(** * Eye-tracking utilities (js/eye-tracking-utils.js): a shallow embedding

    The class [EyeTrackingUtils] wraps the WebGazer engine, the browser's
    [sessionStorage] and the document's [.aoi] elements.  The embedding keeps
    the tracker's fields in a record, threads the engine, the session store
    and the chronological list of effects through every method, and gives
    the JavaScript built-ins the methods call ([JSON.stringify],
    [JSON.parse], [Number.prototype.toString], the conversion to a number
    that [>=] applies, [String.prototype.trim], [startsWith], truthiness) as
    executable functions.

    A number is an integer, a decimal fraction, NaN or an infinity.  A
    finite number is held exactly, as the decimal its shortest numeral
    denotes, and the arithmetic of the code ([-], [+=], [/], [*]) is carried
    out exactly, in the rationals: the rounding of a result to the nearest
    double, the overflow of a numeral to an infinity and the sign of zero
    are not modelled.  [Date.now()], the sizes of the screen and of the
    viewport, the sides of a bounding rectangle and the percentages of a
    calibration target are integers.

    A string is a sequence of code units below 256. *)

From Stdlib Require Import ZArith QArith Lqa Ascii String.
From Stdlib Require Import DecimalString DecimalN DecimalPos DecimalFacts.
From Stdlib Require Import Sorted.
From stdpp Require Import base option list gmap strings.

(** String concatenation unfolds under [simpl], as list concatenation does. *)
#[local] Arguments String.append !_ _ / : simpl nomatch.

(* ===================================================================== *)
(** * Part I. Definitions                                                 *)
(* ===================================================================== *)

(** ** Numbers *)

(** [Dec m k] is m / 10^k; it is the one form of its number when 10 does
    not divide [m]. *)
Inductive number : Type :=
| Int (z : Z)
| Dec (m : Z) (k : positive)
| NaN
| Infinity (negative : bool).
Bind Scope Z_scope with number.
Coercion Int : Z >-> number.

(** The numbers a numeral can denote and [JSON.stringify] prints as
    numbers: the finite ones, each in its one form. *)
Definition number_wf (n : number) : bool :=
  match n with
  | Int _ => true
  | Dec m _ => negb (m mod 10 =? 0)%Z
  | NaN | Infinity _ => false
  end.

(** What the arithmetic of the code computes with: a rational, NaN or an
    infinity. *)
Inductive extended : Type :=
| Finite (q : Q)
| NotANumber
| Infinite (negative : bool).

Definition value (n : number) : extended :=
  match n with
  | Int z => Finite (inject_Z z)
  | Dec m k => Finite (m # 10 ^ k)
  | NaN => NotANumber
  | Infinity negative => Infinite negative
  end.

Definition Qlt_bool (p q : Q) : bool := negb (Qle_bool q p).

(** [a < b] and [a <= b]: false as soon as an operand is NaN. *)
Definition lt (a b : extended) : bool :=
  match a, b with
  | Finite p, Finite q => Qlt_bool p q
  | Finite _, Infinite negative => negb negative
  | Infinite negative, Finite _ => negative
  | Infinite na, Infinite nb => na && negb nb
  | _, _ => false
  end.

Definition le (a b : extended) : bool :=
  match a, b with
  | Finite p, Finite q => Qle_bool p q
  | Finite _, Infinite negative => negb negative
  | Infinite negative, Finite _ => negative
  | Infinite na, Infinite nb => na || negb nb
  | _, _ => false
  end.

(** [a - b]. *)
Definition minus (a b : extended) : extended :=
  match a, b with
  | Finite p, Finite q => Finite (p - q)
  | Finite _, Infinite negative => Infinite (negb negative)
  | Infinite negative, Finite _ => Infinite negative
  | Infinite na, Infinite nb =>
      if Bool.eqb na nb then NotANumber else Infinite na
  | _, _ => NotANumber
  end.

(** m / 10^k in its one form: the factors 10 of [m] are taken out of the
    denominator. *)
Fixpoint reduce (m : Z) (k : nat) : number :=
  match k with
  | O => Int m
  | S k' =>
      if (m mod 10 =? 0)%Z then reduce (m / 10) k'
      else Dec m (Pos.of_succ_nat k')
  end.

(** m * 10^e. *)
Definition scaled (m e : Z) : number :=
  if (0 <=? e)%Z then Int (m * 10 ^ e) else reduce m (Z.to_nat (- e)).

(** ** JavaScript values *)

(** The primitive values other than [undefined]. *)
Inductive primitive : Type :=
| PNull
| PBool (b : bool)
| PNum (n : number)
| PStr (s : string).

(** The values [JSON.parse] returns and [JSON.stringify] prints, with the
    numbers that are not finite. *)
Unset Elimination Schemes.
Inductive json : Type :=
| JNull : json
| JBool : bool -> json
| JNumber : number -> json
| JStr : string -> json
| JArr : list json -> json
| JObj : list (string * json) -> json.
Set Elimination Schemes.

Abbreviation JNum z := (JNumber (Int z)).

Definition json_of_primitive (p : primitive) : json :=
  match p with
  | PNull => JNull
  | PBool b => JBool b
  | PNum n => JNumber n
  | PStr s => JStr s
  end.

(** An object is its own properties, in insertion order.  (JavaScript
    lists the properties named like array indices first; no object of the
    tracker has one, and they are not told apart here.)  Its prototype is
    [Object.prototype]. *)
Abbreviation obj := (list (string * json)).

(** An object whose properties hold primitive values, as the object the
    gaze listener builds. *)
Abbreviation pobj := (list (string * primitive)).

Definition json_of_pobj (o : pobj) : json :=
  JObj (map (fun e => (fst e, json_of_primitive (snd e))) o).

(** [o.k] for an own property: [None] stands for [undefined]. *)
Fixpoint get_prop {A : Type} (k : string) (o : list (string * A)) : option A :=
  match o with
  | [] => None
  | (k', v) :: o' => if String.eqb k k' then Some v else get_prop k o'
  end.

(** [o[k] = v]: an existing property keeps its place, a new one goes last. *)
Fixpoint set_prop (k : string) (v : json) (o : obj) : obj :=
  match o with
  | [] => [(k, v)]
  | (k', v') :: o' =>
      if String.eqb k k' then (k', v) :: o' else (k', v') :: set_prop k v o'
  end.

(** Property read on an arbitrary value that is neither [null] nor
    [undefined]: only objects have the properties the code asks for. *)
Definition prop_of (v : json) (k : string) : option json :=
  match v with
  | JObj o => get_prop k o
  | _ => None
  end.

(** [ToBoolean]. [None] is [undefined]. *)
Definition truthy (v : json) : bool :=
  match v with
  | JNull => false
  | JBool b => b
  | JNumber (Int z) => negb (z =? 0)%Z
  | JNumber (Dec m _) => negb (m =? 0)%Z
  | JNumber NaN => false
  | JNumber (Infinity _) => true
  | JStr s => negb (String.eqb s EmptyString)
  | JArr _ | JObj _ => true
  end.

Definition truthy_opt (v : option json) : bool :=
  match v with
  | None => false
  | Some v => truthy v
  end.

(** [typeof v === 'number'] and the number read. *)
Definition as_number (v : option primitive) : option number :=
  match v with
  | Some (PNum n) => Some n
  | _ => None
  end.

(** ** Characters *)

Definition dquote : ascii := Eval cbv in ascii_of_nat 34.
Definition backslash : ascii := Eval cbv in ascii_of_nat 92.
Definition ch_bs : ascii := Eval cbv in ascii_of_nat 8.
Definition ch_tab : ascii := Eval cbv in ascii_of_nat 9.
Definition ch_lf : ascii := Eval cbv in ascii_of_nat 10.
Definition ch_vt : ascii := Eval cbv in ascii_of_nat 11.
Definition ch_ff : ascii := Eval cbv in ascii_of_nat 12.
Definition ch_cr : ascii := Eval cbv in ascii_of_nat 13.

Definition is_digit (c : ascii) : bool :=
  ((48 <=? N_of_ascii c) && (N_of_ascii c <=? 57))%N.

(** JSON white space: space, tab, line feed, carriage return. *)
Definition is_json_ws (c : ascii) : bool :=
  Ascii.eqb c " " || Ascii.eqb c ch_tab || Ascii.eqb c ch_lf || Ascii.eqb c ch_cr.

(** White space removed by [trim] (the code units below 256). *)
Definition is_trim_ws (c : ascii) : bool :=
  is_json_ws c || Ascii.eqb c ch_vt || Ascii.eqb c ch_ff
  || (N_of_ascii c =? 160)%N.

Definition is_control (c : ascii) : bool := (N_of_ascii c <? 32)%N.

(** ** Strings: [trim], [startsWith] *)

Fixpoint trim_start (s : string) : string :=
  match s with
  | String c s' => if is_trim_ws c then trim_start s' else s
  | EmptyString => EmptyString
  end.

Fixpoint trim_end (s : string) : string :=
  match s with
  | String c s' =>
      match trim_end s' with
      | EmptyString => if is_trim_ws c then EmptyString else String c EmptyString
      | t => String c t
      end
  | EmptyString => EmptyString
  end.

Definition trim (s : string) : string := trim_end (trim_start s).

(** [s.startsWith(p)]. *)
Definition startsWith (s p : string) : bool := String.prefix p s.

(** ** [Number.prototype.toString] *)

Definition string_of_N (n : N) : string :=
  NilEmpty.string_of_uint (N.to_uint n).

Fixpoint zeros (n : nat) : string :=
  match n with
  | O => EmptyString
  | S n' => String "0" (zeros n')
  end.

Fixpoint string_take (n : nat) (s : string) : string :=
  match n, s with
  | S n', String c s' => String c (string_take n' s')
  | _, _ => EmptyString
  end.

Fixpoint string_drop (n : nat) (s : string) : string :=
  match n, s with
  | S n', String _ s' => string_drop n' s'
  | _, _ => s
  end.

(** How many times 10 divides [a], counted up to [fuel]. *)
Fixpoint factors_of_ten (fuel : nat) (a : N) : nat :=
  match fuel with
  | O => O
  | S fuel' =>
      if ((a mod 10 =? 0) && negb (a =? 0))%N
      then S (factors_of_ten fuel' (a / 10))
      else O
  end.

(** The exponent part: e, the sign, the digits. *)
Definition exponent_text (e : Z) : string :=
  String "e"
    (String (if (0 <=? e)%Z then "+"%char else "-"%char)
       (string_of_N (Z.abs_N e))).

(** The digits with the point after the first of them, times ten to the
    [n - 1]: [n] is where the point of the number stands in its digits. *)
Definition scientific (digits : string) (n : Z) : string :=
  match digits with
  | String d EmptyString => String d (exponent_text (n - 1))
  | String d rest => String d (String "." (rest +:+ exponent_text (n - 1)))
  | EmptyString => EmptyString
  end.

(** A positive integer: its digits when there are at most 21 of them, else
    its digits up to the last that is not zero, in exponent form. *)
Definition integer_text (a : N) : string :=
  if (a <? 10 ^ 21)%N then string_of_N a
  else
    let t := factors_of_ten (String.length (string_of_N a)) a in
    let digits := string_of_N (a / 10 ^ N.of_nat t) in
    scientific digits (Z.of_nat (String.length digits + t)).

(** [ToString] of an integer. *)
Definition string_of_Z (z : Z) : string :=
  match z with
  | Z0 => "0"
  | Zpos p => integer_text (Npos p)
  | Zneg p => String "-" (integer_text (Npos p))
  end.

(** a / 10^k, for a positive [a] that 10 does not divide. *)
Definition fraction_text (a : N) (k : positive) : string :=
  let digits := string_of_N a in
  let n := (Z.of_nat (String.length digits) - Zpos k)%Z in
  if (0 <? n)%Z && (n <=? 21)%Z then
    string_take (Z.to_nat n) digits
    +:+ String "." (string_drop (Z.to_nat n) digits)
  else if (-6 <? n)%Z && (n <=? 0)%Z then
    String "0" (String "." (zeros (Z.to_nat (- n)) +:+ digits))
  else scientific digits n.

(** [Number.prototype.toString()], [ToString] of a number. *)
Definition number_text (n : number) : string :=
  match n with
  | Int z => string_of_Z z
  | Dec m k =>
      if (m <? 0)%Z then String "-" (fraction_text (Z.abs_N m) k)
      else fraction_text (Z.abs_N m) k
  | NaN => "NaN"
  | Infinity false => "Infinity"
  | Infinity true => "-Infinity"
  end.

(** ** [JSON.stringify] *)

Definition hex_digit (n : N) : ascii :=
  if (n <? 10)%N then ascii_of_N (48 + n) else ascii_of_N (87 + n).

(** [QuoteJSONString], one code unit. *)
Definition quote_char (c : ascii) : string :=
  if Ascii.eqb c dquote then String backslash (String dquote EmptyString)
  else if Ascii.eqb c backslash then String backslash (String backslash EmptyString)
  else if Ascii.eqb c ch_bs then String backslash "b"
  else if Ascii.eqb c ch_tab then String backslash "t"
  else if Ascii.eqb c ch_lf then String backslash "n"
  else if Ascii.eqb c ch_ff then String backslash "f"
  else if Ascii.eqb c ch_cr then String backslash "r"
  else if is_control c then
    String backslash
      (String "u" (String "0" (String "0"
         (String (hex_digit (N_of_ascii c / 16))
            (String (hex_digit (N_of_ascii c mod 16)) EmptyString)))))
  else String c EmptyString.

Fixpoint quote_body (s : string) : string :=
  match s with
  | EmptyString => EmptyString
  | String c s' => quote_char c +:+ quote_body s'
  end.

Definition quote (s : string) : string :=
  String dquote (quote_body s +:+ String dquote EmptyString).

(** The members after the first: each is preceded by a comma. *)
Definition elements_text (f : json -> string) : list json -> string :=
  fix go (l : list json) : string :=
    match l with
    | [] => "]"
    | x :: l' => String "," (f x +:+ go l')
    end.

Definition member_text (f : json -> string) (m : string * json) : string :=
  quote (fst m) +:+ String ":" (f (snd m)).

Definition members_text (f : json -> string) : obj -> string :=
  fix go (l : obj) : string :=
    match l with
    | [] => "}"
    | m :: l' => String "," (member_text f m +:+ go l')
    end.

(** A number that is not finite is printed as null. *)
Fixpoint JSON_stringify (v : json) : string :=
  match v with
  | JNull => "null"
  | JBool true => "true"
  | JBool false => "false"
  | JNumber NaN | JNumber (Infinity _) => "null"
  | JNumber n => number_text n
  | JStr s => quote s
  | JArr [] => "[]"
  | JArr (x :: vs) =>
      String "[" (JSON_stringify x +:+ elements_text JSON_stringify vs)
  | JObj [] => "{}"
  | JObj (m :: ms) =>
      String "{" (member_text JSON_stringify m +:+ members_text JSON_stringify ms)
  end.

(** ** [JSON.parse] *)

Fixpoint skip_ws (s : string) : string :=
  match s with
  | String c s' => if is_json_ws c then skip_ws s' else s
  | EmptyString => EmptyString
  end.

(** The rest of [s] after the literal [lit], when [s] starts with it. *)
Fixpoint expect (lit s : string) : option string :=
  match lit, s with
  | EmptyString, _ => Some s
  | String a lit', String b s' => if Ascii.eqb a b then expect lit' s' else None
  | String _ _, EmptyString => None
  end.

Definition hex_value (c : ascii) : option N :=
  let n := N_of_ascii c in
  if ((48 <=? n) && (n <=? 57))%N then Some (n - 48)%N
  else if ((97 <=? n) && (n <=? 102))%N then Some (n - 87)%N
  else if ((65 <=? n) && (n <=? 70))%N then Some (n - 55)%N
  else None.

(** The character a one-letter escape stands for. *)
Definition unescape (e : ascii) : option ascii :=
  if Ascii.eqb e dquote then Some dquote
  else if Ascii.eqb e backslash then Some backslash
  else if Ascii.eqb e "/" then Some "/"%char
  else if Ascii.eqb e "b" then Some ch_bs
  else if Ascii.eqb e "f" then Some ch_ff
  else if Ascii.eqb e "n" then Some ch_lf
  else if Ascii.eqb e "r" then Some ch_cr
  else if Ascii.eqb e "t" then Some ch_tab
  else None.

(** A string literal after its opening quote.  An escape that names a code
    unit above 255 has no reading here: the string it stands for is outside
    the embedding (see [mentions_wide_unit]). *)
Fixpoint parse_string (s : string) : option (string * string) :=
  match s with
  | EmptyString => None
  | String c r =>
      if Ascii.eqb c dquote then Some (EmptyString, r)
      else if Ascii.eqb c backslash then
        match r with
        | EmptyString => None
        | String e r' =>
            if Ascii.eqb e "u" then
              match r' with
              | String h1 (String h2 (String h3 (String h4 r''))) =>
                  a ← hex_value h1; b ← hex_value h2;
                  c ← hex_value h3; d ← hex_value h4;
                  if ((a =? 0) && (b =? 0))%N then
                    '(str, rest) ← parse_string r'';
                    Some (String (ascii_of_N (16 * c + d)) str, rest)
                  else None
              | _ => None
              end
            else
              c' ← unescape e;
              '(str, rest) ← parse_string r';
              Some (String c' str, rest)
        end
      else if is_control c then None
      else '(str, rest) ← parse_string r; Some (String c str, rest)
  end.

(** Whether a backslash of the text is followed by u and four hexadecimal
    digits that name a code unit above 255. *)
Fixpoint mentions_wide_unit (s : string) : bool :=
  match s with
  | EmptyString => false
  | String c r =>
      (Ascii.eqb c backslash
       && match r with
          | String u (String h1 (String h2 (String h3 (String h4 _)))) =>
              Ascii.eqb u "u"
              && match hex_value h1, hex_value h2, hex_value h3, hex_value h4 with
                 | Some a, Some b, Some _, Some _ => negb ((a =? 0) && (b =? 0))%N
                 | _, _, _, _ => false
                 end
          | _ => false
          end)
      || mentions_wide_unit r
  end.

(** The longest run of digits at the start of [s], and what follows. *)
Fixpoint span_digits (s : string) : string * string :=
  match s with
  | String c s' =>
      if is_digit c then
        let '(ds, rest) := span_digits s' in (String c ds, rest)
      else (EmptyString, s)
  | EmptyString => (EmptyString, EmptyString)
  end.

Definition digit_of (c : ascii) : N := (N_of_ascii c - 48)%N.

Fixpoint digits_value_from (acc : N) (s : string) : N :=
  match s with
  | EmptyString => acc
  | String c s' => digits_value_from (acc * 10 + digit_of c) s'
  end.

(** The number a run of digits denotes. *)
Definition digits_value (s : string) : N := digits_value_from 0 s.

(** The integer part of a numeral: a zero, or digits that start with
    another digit. *)
Definition parse_int (s : string) : option (string * string) :=
  let '(ds, rest) := span_digits s in
  match ds with
  | EmptyString => None
  | String c more =>
      if Ascii.eqb c "0" && negb (String.eqb more EmptyString) then None
      else Some (ds, rest)
  end.

(** The fraction, if there is one: a point and at least one digit. *)
Definition parse_frac (s : string) : option (string * string) :=
  match s with
  | String c r =>
      if Ascii.eqb c "." then
        let '(ds, rest) := span_digits r in
        if String.eqb ds EmptyString then None else Some (ds, rest)
      else Some (EmptyString, s)
  | EmptyString => Some (EmptyString, s)
  end.

(** The exponent, if there is one: e or E, a sign or none, and at least
    one digit. *)
Definition parse_exp (s : string) : option (Z * string) :=
  match s with
  | String c r =>
      if Ascii.eqb c "e" || Ascii.eqb c "E" then
        let '(negative, r') :=
          match r with
          | String c' r'' =>
              if Ascii.eqb c' "-" then (true, r'')
              else if Ascii.eqb c' "+" then (false, r'')
              else (false, r)
          | EmptyString => (false, r)
          end in
        let '(ds, rest) := span_digits r' in
        if String.eqb ds EmptyString then None
        else
          Some (if negative then (- Z.of_N (digits_value ds))%Z
                else Z.of_N (digits_value ds), rest)
      else Some (0%Z, s)
  | EmptyString => Some (0%Z, s)
  end.

(** The number of a numeral: its digits, read as an integer, times ten to
    the [e]. *)
Definition numeral_value (negative : bool) (digits : string) (e : Z) : number :=
  scaled (if negative then (- Z.of_N (digits_value digits))%Z
          else Z.of_N (digits_value digits)) e.

(** A number: a minus sign or none, the integer part, a fraction or none,
    an exponent or none. *)
Definition parse_number (s : string) : option (json * string) :=
  let '(negative, s1) :=
    match s with
    | String c r => if Ascii.eqb c "-" then (true, r) else (false, s)
    | EmptyString => (false, s)
    end in
  '(ip, r1) ← parse_int s1;
  '(fp, r2) ← parse_frac r1;
  '(e, r3) ← parse_exp r2;
  Some (JNumber (numeral_value negative (ip +:+ fp)
                   (e - Z.of_nat (String.length fp))), r3).

(** [JSON.parse] keeps the last of two members with one name, at the place
    of the first. *)
Definition obj_of_members (ms : obj) : obj :=
  fold_left (fun o m => set_prop (fst m) (snd m) o) ms [].

(** One member [name : value], given the parser of values. *)
Definition parse_member (pv : string -> option (json * string)) (s : string)
  : option ((string * json) * string) :=
  match skip_ws s with
  | String c r =>
      if Ascii.eqb c dquote then
        '(k, r1) ← parse_string r;
        match skip_ws r1 with
        | String c' r2 =>
            if Ascii.eqb c' ":" then '(v, r3) ← pv r2; Some ((k, v), r3)
            else None
        | EmptyString => None
        end
      else None
  | EmptyString => None
  end.

Fixpoint parse_value (fuel : nat) (s : string) : option (json * string) :=
  match fuel with
  | O => None
  | S fuel' =>
      match skip_ws s with
      | EmptyString => None
      | String c r =>
          if Ascii.eqb c "n" then r' ← expect "ull" r; Some (JNull, r')
          else if Ascii.eqb c "t" then r' ← expect "rue" r; Some (JBool true, r')
          else if Ascii.eqb c "f" then r' ← expect "alse" r; Some (JBool false, r')
          else if Ascii.eqb c dquote then
            '(str, r') ← parse_string r; Some (JStr str, r')
          else if Ascii.eqb c "[" then
            match skip_ws r with
            | String c' r' =>
                if Ascii.eqb c' "]" then Some (JArr [], r')
                else
                  '(v, r1) ← parse_value fuel' r;
                  '(vs, r2) ← parse_elements fuel' r1;
                  Some (JArr (v :: vs), r2)
            | EmptyString => None
            end
          else if Ascii.eqb c "{" then
            match skip_ws r with
            | String c' r' =>
                if Ascii.eqb c' "}" then Some (JObj [], r')
                else
                  '(m, r1) ← parse_member (parse_value fuel') r;
                  '(ms, r2) ← parse_members fuel' r1;
                  Some (JObj (obj_of_members (m :: ms)), r2)
            | EmptyString => None
            end
          else parse_number (String c r)
      end
  end
with parse_elements (fuel : nat) (s : string) : option (list json * string) :=
  match fuel with
  | O => None
  | S fuel' =>
      match skip_ws s with
      | String c r =>
          if Ascii.eqb c "," then
            '(v, r1) ← parse_value fuel' r;
            '(vs, r2) ← parse_elements fuel' r1;
            Some (v :: vs, r2)
          else if Ascii.eqb c "]" then Some ([], r)
          else None
      | EmptyString => None
      end
  end
with parse_members (fuel : nat) (s : string) : option (obj * string) :=
  match fuel with
  | O => None
  | S fuel' =>
      match skip_ws s with
      | String c r =>
          if Ascii.eqb c "," then
            '(m, r1) ← parse_member (parse_value fuel') r;
            '(ms, r2) ← parse_members fuel' r1;
            Some (m :: ms, r2)
          else if Ascii.eqb c "}" then Some ([], r)
          else None
      | EmptyString => None
      end
  end.

(** The reading of a JSON text.  The input's length bounds the nesting, so
    the fuel never runs out on a text that has a reading.  A text has no
    reading when it is not JSON, or when it holds a string with a code unit
    above 255. *)
Definition JSON_parse (s : string) : option json :=
  match parse_value (S (String.length s)) s with
  | Some (v, rest) =>
      match skip_ws rest with
      | EmptyString => Some v
      | String _ _ => None
      end
  | None => None
  end.

(** The fuel the reading of a printed value takes. *)
Fixpoint size (v : json) : nat :=
  match v with
  | JArr [] => 1
  | JArr (x :: vs) =>
      S (size x + fold_right (fun e n => S (size e + n)) 1 vs)
  | JObj [] => 1
  | JObj (m :: ms) =>
      S (size (snd m) + fold_right (fun e n => S (size (snd e) + n)) 1 ms)
  | _ => 1
  end.

(** A text may follow a number when it goes on with no digit, no point and
    no exponent. *)
Definition ends_number (rest : string) : Prop :=
  match rest with
  | String c _ =>
      is_digit c = false /\ Ascii.eqb c "." = false
      /\ Ascii.eqb c "e" = false /\ Ascii.eqb c "E" = false
  | EmptyString => True
  end.

Fixpoint all_digits (s : string) : bool :=
  match s with
  | EmptyString => true
  | String c s' => is_digit c && all_digits s'
  end.

(** A text may follow a run of digits when it goes on with no digit. *)
Definition no_digit_head (rest : string) : Prop :=
  match rest with
  | String c _ => is_digit c = false
  | EmptyString => True
  end.

(** A numeral without its sign: the integer part, the fraction when there
    are digits for it, the exponent when there is one. *)
Definition numeral (ip fp : string) (e : option Z) : string :=
  ip
  +:+ (match fp with EmptyString => EmptyString | _ => String "." fp end)
  +:+ (match e with Some e => exponent_text e | None => EmptyString end).

(** A numeral's integer part is well formed: digits, the first of which is
    zero only when it is the only one. *)
Definition int_digits (ds : string) : Prop :=
  all_digits ds = true
  /\ match ds with
     | EmptyString => False
     | String c more => Ascii.eqb c "0" = false \/ more = EmptyString
     end.

(** What may follow a numeral: after an exponent, anything but a digit;
    else, what may follow a number. *)
Definition ends_numeral (e : option Z) (rest : string) : Prop :=
  match e with
  | Some _ => no_digit_head rest
  | None => ends_number rest
  end.

(** What a printed magnitude is: a numeral whose digits, integer part and
    fraction together, are those of [a], with [scale] as the exponent left
    once the fraction is counted in. *)
Definition prints_as (text : string) (a : N) (scale : Z) : Prop :=
  exists ip fp e,
    text = numeral ip fp e
    /\ int_digits ip /\ all_digits fp = true
    /\ digits_value (ip +:+ fp) = a
    /\ (default 0 e - Z.of_nat (String.length fp))%Z = scale
    /\ (e <> None \/ scale = 0%Z \/ fp <> EmptyString).

(** The reading of [v], printed and followed by any text a number may end
    before, gives [v] back and stops at that text. *)
Definition reads_back (v : json) : Prop :=
  forall fuel rest,
    size v <= fuel -> ends_number rest ->
    parse_value fuel (JSON_stringify v +:+ rest) = Some (v, rest).

(** The values JSON carries: every number is finite and in its one form,
    and every object has distinct property names, as every JavaScript
    object has. *)
Fixpoint json_wf (v : json) : bool :=
  match v with
  | JNumber n => number_wf n
  | JArr vs => forallb json_wf vs
  | JObj ms =>
      bool_decide (NoDup (map fst ms)) && forallb (fun m => json_wf (snd m)) ms
  | _ => true
  end.

(** ** The conversion of a value to a number *)

Fixpoint hex_digits_value (base acc : N) (s : string) : option N :=
  match s with
  | EmptyString => Some acc
  | String c s' =>
      match hex_value c with
      | Some d =>
          if (d <? base)%N then hex_digits_value base (acc * base + d) s'
          else None
      | None => None
      end
  end.

(** A literal in base 16, 8 or 2: 0x, 0o or 0b, in either case, and at
    least one digit.  [None] when the text has no such prefix. *)
Definition prefixed_integer (s : string) : option number :=
  match s with
  | String z (String p digits) =>
      if Ascii.eqb z "0" then
        let base :=
          if Ascii.eqb p "x" || Ascii.eqb p "X" then Some 16%N
          else if Ascii.eqb p "o" || Ascii.eqb p "O" then Some 8%N
          else if Ascii.eqb p "b" || Ascii.eqb p "B" then Some 2%N
          else None in
        match base with
        | Some base =>
            match digits with
            | EmptyString => Some NaN
            | _ =>
                match hex_digits_value base 0 digits with
                | Some n => Some (Int (Z.of_N n))
                | None => Some NaN
                end
            end
        | None => None
        end
      else None
  | _ => None
  end.

(** A decimal literal without its sign: digits, a point and digits (one of
    the two runs of digits may be missing), an exponent or none, and
    nothing after. *)
Definition unsigned_decimal (negative : bool) (s : string) : number :=
  let '(ip, r1) := span_digits s in
  let '(fp, r2) :=
    match r1 with
    | String c r => if Ascii.eqb c "." then span_digits r else (EmptyString, r1)
    | EmptyString => (EmptyString, r1)
    end in
  if String.eqb ip EmptyString && String.eqb fp EmptyString then NaN
  else
    match parse_exp r2 with
    | Some (e, EmptyString) =>
        numeral_value negative (ip +:+ fp) (e - Z.of_nat (String.length fp))
    | _ => NaN
    end.

(** [StringToNumber]: white space around the literal is dropped, the empty
    string is 0, and a text that is no numeric literal is NaN. *)
Definition StringToNumber (s : string) : number :=
  match trim s with
  | EmptyString => Int 0
  | String c r as t =>
      match prefixed_integer t with
      | Some n => n
      | None =>
          let '(negative, u) :=
            if Ascii.eqb c "-" then (true, r)
            else if Ascii.eqb c "+" then (false, r)
            else (false, t) in
          if String.eqb u "Infinity" then Infinity negative
          else unsigned_decimal negative u
      end
  end.

(** [ToNumber] of a primitive value; [None] is [undefined]. *)
Definition ToNumber (v : option primitive) : number :=
  match v with
  | None => NaN
  | Some PNull => Int 0
  | Some (PBool b) => Int (if b then 1 else 0)
  | Some (PNum n) => n
  | Some (PStr s) => StringToNumber s
  end.

(** ** The browser around the tracker *)

Module DOMRect.
Record t := mk { left : Z; right : Z; top : Z; bottom : Z }.
End DOMRect.

(** An element of the document: what the code reads of it. *)
Module Element.
Record t := mk { innerText : string; getBoundingClientRect : DOMRect.t }.
End Element.

(** What one call reads of the browser: [Date.now()],
    [window.location.pathname], the viewport, [navigator.userAgent],
    [screen], the elements [document.querySelectorAll('.aoi')] returns in
    document order, and the string each successive
    [Math.random().toString(36).substr(2, 5)] yields. *)
Module Browser.
Record t := mk {
  now : Z;
  pathname : string;
  innerWidth : Z;
  innerHeight : Z;
  userAgent : string;
  screen_width : Z;
  screen_height : Z;
  aoi : list Element.t;
  random_suffix : nat -> string
}.
End Browser.

(** ** The data model *)

(** A gaze point: the coordinates and the elapsed time are the numbers the
    engine hands over, whatever they are; the timestamp is [Date.now()]. *)
Module GazePoint.
Record t := mk {
  x : number;
  y : number;
  timestamp : Z;
  elapsedTime : number;
  page : string
}.
End GazePoint.

(** The object literal the gaze listener builds. *)
Definition obj_of_point (p : GazePoint.t) : pobj :=
  [("x", PNum (GazePoint.x p));
   ("y", PNum (GazePoint.y p));
   ("timestamp", PNum (Int (GazePoint.timestamp p)));
   ("elapsedTime", PNum (GazePoint.elapsedTime p));
   ("page", PStr (GazePoint.page p))].

Definition json_of_gazeData (l : list GazePoint.t) : json :=
  JArr (map (fun p => json_of_pobj (obj_of_point p)) l).

(** The gaze point an object stands for: its five properties, read by
    name. *)
Definition point_of_json (v : json) : option GazePoint.t :=
  match v with
  | JObj o =>
      match get_prop "x" o, get_prop "y" o, get_prop "timestamp" o,
            get_prop "elapsedTime" o, get_prop "page" o with
      | Some (JNumber x), Some (JNumber y), Some (JNum timestamp),
        Some (JNumber elapsedTime), Some (JStr page) =>
          Some (GazePoint.mk x y timestamp elapsedTime page)
      | _, _, _, _, _ => None
      end
  | _ => None
  end.

(** The gaze sequence an array stands for. *)
Definition gazeData_of_json (v : json) : option (list GazePoint.t) :=
  match v with
  | JArr l => mapM point_of_json l
  | _ => None
  end.

(** The numbers of a gaze point are finite. *)
Definition finite_point (p : GazePoint.t) : bool :=
  number_wf (GazePoint.x p) && number_wf (GazePoint.y p)
  && number_wf (GazePoint.elapsedTime p).

(** A calibration target, in percent of the viewport. *)
Module Position.
Record t := mk { x : Z; y : Z }.
End Position.

Definition json_of_position (p : Position.t) : json :=
  JObj [("x", JNum (Position.x p)); ("y", JNum (Position.y p))].

Definition defaultPositions : list Position.t :=
  [Position.mk 10 10; Position.mk 50 10; Position.mk 90 10;
   Position.mk 10 50; Position.mk 50 50; Position.mk 90 50;
   Position.mk 10 90; Position.mk 50 90; Position.mk 90 90]%Z.

(** The record [calibrate] stores in [this.calibrationData]. *)
Definition calibration_record (positions : list Position.t) (timestamp : Z)
    (completed : bool) : json :=
  JObj [("positions", JArr (map json_of_position positions));
        ("timestamp", JNum timestamp);
        ("completed", JBool completed)].

(** ** The engine and the effects of a call *)

Module webgazer.
Inductive call : Type :=
| setRegression (name : string)
| setTracker (name : string)
| showVideoPreview (b : bool)
| showPredictionPoints (b : bool)
| setGazeListener
| begin
| clearData
| recordScreenPosition (x y : Q)
| end_
| pause
| resume.
End webgazer.

(** A registered listener is known by the number it was given. *)
Definition callback := nat.

Inductive effect : Type :=
| Engine (c : webgazer.call)
| Called (cb : callback) (data : json)
| SetTimeout (ms : Z)
| ConsoleError (msg : string).

(** The fields the constructor sets. *)
Record EyeTrackingUtils := mkTracker {
  isInitialized : bool;
  gazeData : list GazePoint.t;
  calibrationData : json;
  listeners : gmap string (list callback)
}.

(** The tracker with what it acts on: whether the engine answers
    [isReady()] with true, whether it holds the tracker's gaze listener,
    the session store, and the effects so far, oldest first. *)
Record world := mkWorld {
  this : EyeTrackingUtils;
  webgazer_isReady : bool;
  webgazer_listening : bool;
  sessionStorage : gmap string string;
  trace : list effect
}.

(** [new EyeTrackingUtils()]. *)
Definition new_EyeTrackingUtils : EyeTrackingUtils :=
  mkTracker false [] JNull ∅.

Definition set_this (t : EyeTrackingUtils) (w : world) : world :=
  mkWorld t (webgazer_isReady w) (webgazer_listening w) (sessionStorage w) (trace w).

Definition set_isInitialized (b : bool) (w : world) : world :=
  set_this (mkTracker b (gazeData (this w)) (calibrationData (this w))
              (listeners (this w))) w.

Definition set_gazeData (l : list GazePoint.t) (w : world) : world :=
  set_this (mkTracker (isInitialized (this w)) l (calibrationData (this w))
              (listeners (this w))) w.

Definition set_calibrationData (c : json) (w : world) : world :=
  set_this (mkTracker (isInitialized (this w)) (gazeData (this w)) c
              (listeners (this w))) w.

Definition set_listeners (l : gmap string (list callback)) (w : world) : world :=
  set_this (mkTracker (isInitialized (this w)) (gazeData (this w))
              (calibrationData (this w)) l) w.

Definition set_listening (b : bool) (w : world) : world :=
  mkWorld (this w) (webgazer_isReady w) b (sessionStorage w) (trace w).

Definition set_isReady (b : bool) (w : world) : world :=
  mkWorld (this w) b (webgazer_listening w) (sessionStorage w) (trace w).

Definition set_sessionStorage (s : gmap string string) (w : world) : world :=
  mkWorld (this w) (webgazer_isReady w) (webgazer_listening w) s (trace w).

Definition emit (es : list effect) (w : world) : world :=
  mkWorld (this w) (webgazer_isReady w) (webgazer_listening w)
    (sessionStorage w) (trace w ++ es).

(** How a call ends: with a value, or with an error thrown (for an [async]
    method: the promise resolved, or rejected).  [Unrepresented] is for the
    one place where the code goes on with a value the embedding cannot
    hold; the world given with it is the world before the call. *)
Inductive completion (A : Type) : Type :=
| Return (a : A)
| Throw (message : string)
| Unrepresented.
Arguments Return {A} a.
Arguments Throw {A} message.
Arguments Unrepresented {A}.

(** ** Events *)

(** The names [Object.prototype] gives every object: [this.listeners],
    created as [{}], answers to them although it has no such property of
    its own. *)
Definition Object_prototype : list string :=
  ["constructor"; "__defineGetter__"; "__defineSetter__"; "hasOwnProperty";
   "__lookupGetter__"; "__lookupSetter__"; "isPrototypeOf";
   "propertyIsEnumerable"; "toString"; "valueOf"; "__proto__";
   "toLocaleString"].

Definition inherited (name : string) : bool :=
  existsb (String.eqb name) Object_prototype.

(** [on(event, callback)].  For a name [this.listeners] inherits and does
    not own, [this.listeners[event]] is a function (or, for '__proto__',
    [Object.prototype]): it is truthy, no array is created, and the call of
    its [push] is a TypeError. *)
Definition on (event : string) (cb : callback) (w : world)
  : world * completion unit :=
  match listeners (this w) !! event with
  | Some cbs =>
      (set_listeners (<[event := cbs ++ [cb]]> (listeners (this w))) w, Return tt)
  | None =>
      if inherited event then (w, Throw "TypeError")
      else (set_listeners (<[event := [cb]]> (listeners (this w))) w, Return tt)
  end.

(** [triggerEvent(event, data)].  A listener only observes: its call is
    recorded, and it neither throws nor calls the tracker back.  For an
    inherited name that is not owned, the call of [forEach] is a
    TypeError. *)
Definition triggerEvent (event : string) (data : json) (w : world)
  : world * completion unit :=
  match listeners (this w) !! event with
  | Some cbs => (emit (map (fun cb => Called cb data) cbs) w, Return tt)
  | None => if inherited event then (w, Throw "TypeError") else (w, Return tt)
  end.

(** The world after [triggerEvent(event, data)].  The methods of the class
    call it for the events the class names itself: none of these is
    inherited, and the call returns. *)
Definition notify (event : string) (data : json) (w : world) : world :=
  fst (triggerEvent event data w).

(** ** [init] *)

Module Options.
Record t := mk {
  regression : option string;
  tracker : option string;
  showVideo : option bool;
  showPredictions : option bool
}.
End Options.

(** The calls chained on [webgazer] up to [begin()]. *)
Definition init_chain (options : Options.t) : list effect :=
  [Engine (webgazer.setRegression (default "ridge" (Options.regression options)));
   Engine (webgazer.setTracker (default "clmtrackr" (Options.tracker options)));
   Engine (webgazer.showVideoPreview (default true (Options.showVideo options)));
   Engine (webgazer.showPredictionPoints
             (default false (Options.showPredictions options)));
   Engine webgazer.setGazeListener;
   Engine webgazer.begin].

(** [init(options)].  [begin_error] is the error the promise of [begin()]
    is rejected with, if it is. *)
Definition init (options : Options.t) (begin_error : option string) (w : world)
  : world * bool :=
  let w1 := set_listening true (emit (init_chain options) w) in
  match begin_error with
  | None =>
      (notify "initialized" JNull (set_isInitialized true w1), true)
  | Some error =>
      (notify "error" (JStr error)
         (emit [ConsoleError "Eye tracking initialization failed:"] w1), false)
  end.

(** The listener [init] gives to [setGazeListener]: [data] is [None] for a
    null prediction. *)
Definition gazeListener (b : Browser.t) (data : option (number * number))
    (elapsedTime : number) (w : world) : world :=
  match data with
  | None => w
  | Some (x, y) =>
      let gazePoint :=
        GazePoint.mk x y (Browser.now b) elapsedTime (Browser.pathname b) in
      notify "gaze" (json_of_pobj (obj_of_point gazePoint))
        (set_gazeData (gazeData (this w) ++ [gazePoint]) w)
  end.

(** ** [calibrate] *)

Definition maxSamples : nat := 5.

(** [collectSample], with [todo] samples still to take: each records the
    target, and all but the last wait 100ms for the next. *)
Fixpoint collectSample (todo : nat) (x y : Q) : list effect :=
  match todo with
  | O => []
  | S O => [Engine (webgazer.recordScreenPosition x y)]
  | S todo' =>
      Engine (webgazer.recordScreenPosition x y) :: SetTimeout 100
        :: collectSample todo' x y
  end.

Definition collectPoint (x y : Q) : list effect := collectSample maxSamples x y.

(** Percent of the viewport to pixels. *)
Definition to_pixels (percent : Z) (extent : Z) : Q :=
  (inject_Z percent / 100 * inject_Z extent)%Q.

(** [processNextPoint] from target [currentPoint] on; [remaining] are the
    targets [calibrationPositions[currentPoint]], ... still to visit.  The
    timers are run to their end, with no other call of the tracker in
    between. *)
Fixpoint processNextPoint (b : Browser.t) (currentPoint : nat)
    (remaining : list Position.t) (w : world) : world * json :=
  match remaining with
  | [] =>
      let record :=
        match calibrationData (this w) with
        | JObj o => JObj (set_prop "completed" (JBool true) o)
        | v => v
        end in
      let w1 := set_calibrationData record w in
      (notify "calibrationCompleted" record w1, record)
  | pos :: rest =>
      let w1 :=
        notify "calibrationPoint"
          (JObj [("index", JNum (Z.of_nat currentPoint));
                 ("position", json_of_position pos)]) w in
      let x := to_pixels (Position.x pos) (Browser.innerWidth b) in
      let y := to_pixels (Position.y pos) (Browser.innerHeight b) in
      let w2 := emit (collectPoint x y) w1 in
      processNextPoint b (S currentPoint) rest (emit [SetTimeout 500] w2)
  end.

(** [calibrate(positions)]: [None] is a call without the argument (or with
    null). *)
Definition calibrate (b : Browser.t) (positions : option (list Position.t))
    (w : world) : world * completion json :=
  if negb (isInitialized (this w)) then
    (w, Throw "Eye tracking not initialized")
  else
    let calibrationPositions := default defaultPositions positions in
    let w1 := emit [Engine webgazer.clearData] w in
    let w2 :=
      set_calibrationData
        (calibration_record calibrationPositions (Browser.now b) false) w1 in
    let w3 := notify "calibrationStarted" (calibrationData (this w2)) w2 in
    let '(w4, record) := processNextPoint b 0 calibrationPositions w3 in
    (w4, Return record).

(** ** The region-of-interest analyzer *)

(** [isGazeOnElement(gazeX, gazeY, element)], for coordinates that are
    primitive values or [undefined] ([None]): [>=] and [<=] convert each to
    a number, and a comparison with NaN is false. *)
Definition isGazeOnElement (gazeX gazeY : option primitive) (element : Element.t)
  : bool :=
  let rect := Element.getBoundingClientRect element in
  let x := value (ToNumber gazeX) in
  let y := value (ToNumber gazeY) in
  le (Finite (inject_Z (DOMRect.left rect))) x
  && le x (Finite (inject_Z (DOMRect.right rect)))
  && le (Finite (inject_Z (DOMRect.top rect))) y
  && le y (Finite (inject_Z (DOMRect.bottom rect))).

(** The dwell mapping: an object whose values are finite numbers. *)
Abbreviation dwell := (list (string * Q)).

(** [dwellTimes[k] = v]. *)
Fixpoint dwell_set (k : string) (v : Q) (d : dwell) : dwell :=
  match d with
  | [] => [(k, v)]
  | (k', v') :: d' =>
      if String.eqb k k' then (k', v) :: d' else (k', v') :: dwell_set k v d'
  end.

(** [dwellTimes[k] += n], for a key of the mapping. *)
Fixpoint dwell_add (k : string) (n : Q) (d : dwell) : dwell :=
  match d with
  | [] => []
  | (k', v') :: d' =>
      if String.eqb k k' then (k', (v' + n)%Q) :: d' else (k', v') :: dwell_add k n d'
  end.

(** The label of a region: [el.innerText.trim()]. *)
Definition label (el : Element.t) : string := trim (Element.innerText el).

(** The key the first loop gives the [i]-th region. *)
Definition aoi_key (b : Browser.t) (i : nat) (el : Element.t) : string :=
  label el +:+ String "_" (Browser.random_suffix b i).

(** The first [forEach]: one zero entry per region, from region [i] on. *)
Fixpoint init_dwellTimes (b : Browser.t) (i : nat) (els : list Element.t)
    (dwellTimes : dwell) : dwell :=
  match els with
  | [] => dwellTimes
  | el :: els' =>
      init_dwellTimes b (S i) els' (dwell_set (aoi_key b i el) 0%Q dwellTimes)
  end.

(** [nextGaze.time - currentGaze.time] when both are numbers, else 0. *)
Definition duration_between (currentGaze nextGaze : pobj) : extended :=
  match as_number (get_prop "time" nextGaze),
        as_number (get_prop "time" currentGaze) with
  | Some tn, Some tc => minus (value tn) (value tc)
  | _, _ => Finite 0
  end.

(** [duration > 0 && duration < 500]. *)
Definition below_threshold (duration : extended) : bool :=
  lt (Finite 0) duration && lt duration (Finite 500).

(** [dwellTimes[key] += duration] for a duration that passed the test: it
    is finite then. *)
Definition add_duration (key : string) (duration : extended) (dwellTimes : dwell)
  : dwell :=
  match duration with
  | Finite q => dwell_add key q dwellTimes
  | _ => dwellTimes
  end.

(** The body of the inner [forEach] for one region. *)
Definition visit_aoi (currentGaze nextGaze : pobj) (dwellTimes : dwell)
    (el : Element.t) : dwell :=
  if isGazeOnElement (get_prop "x" currentGaze) (get_prop "y" currentGaze) el
  then
    match List.find (fun k => startsWith k (label el)) (map fst dwellTimes) with
    | Some key =>
        if String.eqb key EmptyString then dwellTimes
        else
          let duration := duration_between currentGaze nextGaze in
          if below_threshold duration
          then add_duration key duration dwellTimes
          else dwellTimes
    | None => dwellTimes
    end
  else dwellTimes.

(** The [for] loop over the consecutive pairs. *)
Fixpoint dwell_loop (els : list Element.t) (gazeData : list pobj)
    (dwellTimes : dwell) : dwell :=
  match gazeData with
  | currentGaze :: ((nextGaze :: _) as rest) =>
      dwell_loop els rest
        (fold_left (visit_aoi currentGaze nextGaze) els dwellTimes)
  | _ => dwellTimes
  end.

(** [calculateDwellTimeOnAOIs(gazeData)], for a sequence of objects whose
    properties hold primitive values. *)
Definition calculateDwellTimeOnAOIs (b : Browser.t) (gazeData : list pobj)
  : dwell :=
  let aoiElements := Browser.aoi b in
  let dwellTimes := init_dwellTimes b 0 aoiElements [] in
  if (length gazeData <? 2)%nat then dwellTimes
  else dwell_loop aoiElements gazeData dwellTimes.

(** [getGazeDataInRange(startTime, endTime)]. *)
Definition getGazeDataInRange (startTime endTime : Z) (w : world)
  : list GazePoint.t :=
  List.filter
    (fun point =>
       (startTime <=? GazePoint.timestamp point)%Z
       && (GazePoint.timestamp point <=? endTime)%Z)
    (gazeData (this w)).

Module GazeStats.
Record t := mk {
  totalGazePoints : nat;
  gazePointsOnElement : nat;
  gazePercentage : Q;
  firstGaze : option Z;
  lastGaze : option Z;
  totalDwellTime : Z
}.
End GazeStats.

(** [calculateGazeStats(element, timeRange)]. *)
Definition calculateGazeStats (element : Element.t) (timeRange : option (Z * Z))
    (w : world) : GazeStats.t :=
  let relevantGazeData :=
    match timeRange with
    | Some (start, end_) => getGazeDataInRange start end_ w
    | None => gazeData (this w)
    end in
  let gazeOnElement :=
    List.filter
      (fun point =>
         isGazeOnElement (Some (PNum (GazePoint.x point)))
           (Some (PNum (GazePoint.y point))) element)
      relevantGazeData in
  let first := GazePoint.timestamp <$> head gazeOnElement in
  let last_ := GazePoint.timestamp <$> last gazeOnElement in
  GazeStats.mk
    (length relevantGazeData)
    (length gazeOnElement)
    (if (0 <? length relevantGazeData)%nat
     then (inject_Z (Z.of_nat (length gazeOnElement))
           / inject_Z (Z.of_nat (length relevantGazeData)) * 100)%Q
     else 0%Q)
    first
    last_
    (match first, last_ with
     | Some f, Some l => (l - f)%Z
     | _, _ => 0%Z
     end).

(** ** The exporter *)

Module Metadata.
Record t := mk {
  userAgent : string;
  screenResolution : string;
  viewportSize : string;
  exportTime : Z
}.
End Metadata.

Module ExportRecord.
Record t := mk {
  gazeData : list GazePoint.t;
  calibrationData : json;
  metadata : Metadata.t
}.
End ExportRecord.

(** [exportGazeData()]. *)
Definition exportGazeData (b : Browser.t) (w : world) : ExportRecord.t :=
  ExportRecord.mk
    (gazeData (this w))
    (calibrationData (this w))
    (Metadata.mk
       (Browser.userAgent b)
       (string_of_Z (Browser.screen_width b)
          +:+ String "x" (string_of_Z (Browser.screen_height b)))
       (string_of_Z (Browser.innerWidth b)
          +:+ String "x" (string_of_Z (Browser.innerHeight b)))
       (Browser.now b)).

(** The export as the value [JSON.stringify] is given. *)
Definition json_of_export (r : ExportRecord.t) : json :=
  JObj [("gazeData", json_of_gazeData (ExportRecord.gazeData r));
        ("calibrationData", ExportRecord.calibrationData r);
        ("metadata",
         JObj [("userAgent", JStr (Metadata.userAgent (ExportRecord.metadata r)));
               ("screenResolution",
                JStr (Metadata.screenResolution (ExportRecord.metadata r)));
               ("viewportSize",
                JStr (Metadata.viewportSize (ExportRecord.metadata r)));
               ("exportTime",
                JNum (Metadata.exportTime (ExportRecord.metadata r)))])].

(** ** [clearData], [stop], [pause], [resume] *)

Definition clearData (w : world) : world :=
  let w1 := set_gazeData [] w in
  if isInitialized (this w1) then emit [Engine webgazer.clearData] w1 else w1.

Definition stop (w : world) : world :=
  if isInitialized (this w) && webgazer_isReady w then
    notify "stopped" JNull
      (set_isInitialized false (emit [Engine webgazer.end_] w))
  else w.

Definition pause (w : world) : world :=
  if isInitialized (this w) then
    notify "paused" JNull (emit [Engine webgazer.pause] w)
  else w.

Definition resume (w : world) : world :=
  if isInitialized (this w) then
    notify "resumed" JNull (emit [Engine webgazer.resume] w)
  else w.

(** ** The session state store *)

(** [sessionStorage.getItem(k) === 'true']. *)
Definition item_is_true (k : string) (w : world) : bool :=
  bool_decide (sessionStorage w !! k = Some "true").

(** A stored item is truthy when it is there and not empty. *)
Definition item_truthy (v : option string) : bool :=
  match v with
  | Some s => negb (String.eqb s EmptyString)
  | None => false
  end.

(** [isCalibrated()]: the value of the [&&] chain, its first operand that is
    not truthy or else its last; [None] is [undefined]. *)
Definition isCalibrated (w : world) : option json :=
  let c := calibrationData (this w) in
  if negb (truthy c) then Some c
  else
    let completed := prop_of c "completed" in
    if negb (truthy_opt completed) then completed
    else Some (JBool (item_is_true "eyeTrackingCalibrated" w)).

(** [v.toString()] for a value read from a record; [None] is the TypeError
    of a call on null or undefined, or of an own property [toString] that is
    no function. *)
Fixpoint js_toString (v : json) : option string :=
  match v with
  | JNull => None
  | JBool true => Some "true"
  | JBool false => Some "false"
  | JNumber n => Some (number_text n)
  | JStr s => Some s
  | JArr l =>
      (fix join (first : bool) (l : list json) : option string :=
         match l with
         | [] => Some EmptyString
         | e :: l' =>
             s ← match e with JNull => Some EmptyString | _ => js_toString e end;
             t ← join false l';
             Some ((if first then s else String "," s) +:+ t)
         end) true l
  | JObj o =>
      match get_prop "toString" o with
      | Some _ => None
      | None => Some "[object Object]"
      end
  end.

(** [saveCalibrationState()]. *)
Definition saveCalibrationState (w : world) : world * completion unit :=
  let c := calibrationData (this w) in
  if truthy c && truthy_opt (prop_of c "completed") then
    let s1 := <["eyeTrackingCalibrated" := "true"]> (sessionStorage w) in
    match prop_of c "timestamp" ≫= js_toString with
    | Some ts =>
        let s2 := <["calibrationTimestamp" := ts]> s1 in
        let s3 := <["calibrationData" := JSON_stringify c]> s2 in
        (set_sessionStorage s3 w, Return tt)
    | None =>
        (set_sessionStorage s1 w, Throw "TypeError")
    end
  else (w, Return tt).

(** [loadCalibrationState()].  [JSON.parse] throws a SyntaxError on a text
    that is not JSON, and nothing here catches it.  A text without a
    reading that names a code unit above 255 may be JSON: what the code
    does with it is not represented. *)
Definition loadCalibrationState (w : world) : world * completion bool :=
  let calibrated := item_is_true "eyeTrackingCalibrated" w in
  let timestamp := sessionStorage w !! "calibrationTimestamp" in
  let data := sessionStorage w !! "calibrationData" in
  if calibrated && item_truthy timestamp && item_truthy data then
    match JSON_parse (default EmptyString data) with
    | Some v => (set_calibrationData v w, Return true)
    | None =>
        if mentions_wide_unit (default EmptyString data)
        then (w, Unrepresented)
        else (w, Throw "SyntaxError")
    end
  else (w, Return false).

(** ** The operations of the tracker *)

Inductive operation : Type :=
| Init (options : Options.t) (begin_error : option string)
| On (event : string) (cb : callback)
| TriggerEvent (event : string) (data : json)
| Calibrate (b : Browser.t) (positions : option (list Position.t))
| IsGazeOnElement (gazeX gazeY : option primitive) (element : Element.t)
| CalculateDwellTimeOnAOIs (b : Browser.t) (sequence : list pobj)
| GetGazeDataInRange (startTime endTime : Z)
| CalculateGazeStats (element : Element.t) (timeRange : option (Z * Z))
| ExportGazeData (b : Browser.t)
| ClearData
| Stop
| Pause
| Resume
| IsCalibrated
| SaveCalibrationState
| LoadCalibrationState
| GazeListener (b : Browser.t) (data : option (number * number))
    (elapsedTime : number).

(** The world after an operation; the methods that only read leave it as
    it is.  The engine calls the gaze listener only once [init] has given
    it one. *)
Definition run (op : operation) (w : world) : world :=
  match op with
  | Init options begin_error => fst (init options begin_error w)
  | On event cb => fst (on event cb w)
  | TriggerEvent event data => notify event data w
  | Calibrate b positions => fst (calibrate b positions w)
  | IsGazeOnElement _ _ _ => w
  | CalculateDwellTimeOnAOIs _ _ => w
  | GetGazeDataInRange _ _ => w
  | CalculateGazeStats _ _ => w
  | ExportGazeData _ => w
  | ClearData => clearData w
  | Stop => stop w
  | Pause => pause w
  | Resume => resume w
  | IsCalibrated => w
  | SaveCalibrationState => fst (saveCalibrationState w)
  | LoadCalibrationState => fst (loadCalibrationState w)
  | GazeListener b data elapsedTime =>
      if webgazer_listening w then gazeListener b data elapsedTime w else w
  end.

(** ** What the engine is left with *)

(** The training samples the engine holds after the calls of a trace:
    [recordScreenPosition] adds one, [clearData] discards them all. *)
Definition train (samples : list (Q * Q)) (e : effect) : list (Q * Q) :=
  match e with
  | Engine webgazer.clearData => []
  | Engine (webgazer.recordScreenPosition x y) => samples ++ [(x, y)]
  | _ => samples
  end.

Definition engine_samples (tr : list effect) : list (Q * Q) :=
  fold_left train tr [].

(** The samples one calibration takes at a target. *)
Definition target_samples (b : Browser.t) (pos : Position.t) : list (Q * Q) :=
  replicate maxSamples
    (to_pixels (Position.x pos) (Browser.innerWidth b),
     to_pixels (Position.y pos) (Browser.innerHeight b)).

(** A tracker just constructed, in a browser session with nothing stored. *)
Definition fresh_world : world :=
  mkWorld new_EyeTrackingUtils false false ∅ [].

(** A desktop browser showing no region of interest. *)
Definition plain_browser : Browser.t :=
  Browser.mk 1000 "/calibration.html" 1280 720 "Mozilla/5.0" 1920 1080 []
    (fun _ => "k3x9q").

Definition no_options : Options.t := Options.mk None None None None.

(** The fresh tracker after a successful [init]. *)
Definition initialized_world : world := fst (init no_options None fresh_world).

(** The initialized tracker after a full default calibration. *)
Definition calibrated_world : world :=
  fst (calibrate plain_browser None initialized_world).

(** A session store whose three calibration keys are set, the serialized
    record being cut short. *)
Definition corrupted_world : world :=
  mkWorld new_EyeTrackingUtils false false
    (<["calibrationData" := "{bad"]>
       (<["calibrationTimestamp" := "1000"]>
          (<["eyeTrackingCalibrated" := "true"]> ∅)))
    [].

(** A record whose [completed] is the string 'false'. *)
Definition mistyped_record : json :=
  JObj [("timestamp", JNum 7); ("completed", JStr "false")].

(** A tracker that loaded that record from the session store, which was
    emptied afterwards. *)
Definition mistyped_world : world :=
  set_sessionStorage ∅
    (run LoadCalibrationState
       (mkWorld new_EyeTrackingUtils false false
          (<["calibrationData" := JSON_stringify mistyped_record]>
             (<["calibrationTimestamp" := "7"]>
                (<["eyeTrackingCalibrated" := "true"]> ∅)))
          [])).

(** The serialized record of a session store, or the empty string. *)
Definition sessionStorage_data (w : world) : string :=
  default EmptyString (sessionStorage w !! "calibrationData").

(** A session store whose record holds the targets 12.5 and 1e3. *)
Definition fractional_world : world :=
  mkWorld new_EyeTrackingUtils false false
    (<["calibrationData" :=
         "{" +:+ quote "positions" +:+ ":[12.5,1e3],"
         +:+ quote "timestamp" +:+ ":7,"
         +:+ quote "completed" +:+ ":true}"]>
       (<["calibrationTimestamp" := "7"]>
          (<["eyeTrackingCalibrated" := "true"]> ∅)))
    [].

(** ** The dwell time the analyzer is to compute *)

(** The earlier point of a pair lies in the region's rectangle. *)
Definition inside (el : Element.t) (p : pobj) : bool :=
  isGazeOnElement (get_prop "x" p) (get_prop "y" p) el.

(** A total with a delta added when the delta counts: when it is positive
    and below 500ms. *)
Definition counted (delta : extended) (total : Q) : Q :=
  if below_threshold delta then
    match delta with
    | Finite q => (total + q)%Q
    | _ => total
    end
  else total.

(** A total with, added in the order of the sequence, the deltas that
    count of the consecutive pairs whose earlier point is inside the
    region, the delta of a pair being given. *)
Fixpoint dwell_sum_from (delta : pobj -> pobj -> extended) (el : Element.t)
    (gazeData : list pobj) (total : Q) : Q :=
  match gazeData with
  | currentGaze :: ((nextGaze :: _) as rest) =>
      dwell_sum_from delta el rest
        (if inside el currentGaze
         then counted (delta currentGaze nextGaze) total
         else total)
  | _ => total
  end.

(** The sum of those deltas. *)
Definition dwell_sum (delta : pobj -> pobj -> extended) (el : Element.t)
    (gazeData : list pobj) : Q :=
  dwell_sum_from delta el gazeData 0.

(** The deltas of two regions that count, added to one total in the order
    the analyzer visits them. *)
Fixpoint twin_sum_from (el1 el2 : Element.t) (gazeData : list pobj) (total : Q)
  : Q :=
  match gazeData with
  | cur :: ((next :: _) as rest) =>
      let t1 :=
        if inside el1 cur then counted (duration_between cur next) total
        else total in
      twin_sum_from el1 el2 rest
        (if inside el2 cur then counted (duration_between cur next) t1 else t1)
  | _ => total
  end.

(** The delta between two points the gaze listener recorded. *)
Definition elapsed_between (currentGaze nextGaze : pobj) : extended :=
  match as_number (get_prop "elapsedTime" nextGaze),
        as_number (get_prop "elapsedTime" currentGaze) with
  | Some tn, Some tc => minus (value tn) (value tc)
  | _, _ => Finite 0
  end.

(** ** Scenarios *)

(** A page with one region, the word "cause", covering (0,0)-(20,20). *)
Definition reading_browser (now : Z) : Browser.t :=
  Browser.mk now "/abstract1.html" 1280 720 "Mozilla/5.0" 1920 1080
    [Element.mk "cause" (DOMRect.mk 0 20 0 20)]
    (fun _ => "k3x9q").

(** Three samples delivered to the gaze listener at 0, 100 and 2000ms:
    (10,10), (15,15), (1000,1000). *)
Definition reading_world : world :=
  gazeListener (reading_browser 2000) (Some (Int 1000, Int 1000)) 2000
    (gazeListener (reading_browser 100) (Some (Int 15, Int 15)) 100
       (gazeListener (reading_browser 0) (Some (Int 10, Int 10)) 0
          initialized_world)).

(** The sequence as a caller hands it to the analyzer. *)
Definition recorded_sequence (w : world) : list pobj :=
  map obj_of_point (gazeData (this w)).

(** A sample that carries the [time] property the analyzer reads. *)
Definition timed_sample (x y time : number) : pobj :=
  [("x", PNum x); ("y", PNum y); ("time", PNum time)].

(** A page where the word "the" is marked twice, at (0,0)-(20,20) and at
    (100,100)-(120,120); the two random suffixes differ. *)
Definition twice_the_browser : Browser.t :=
  Browser.mk 0 "/abstract1.html" 1280 720 "Mozilla/5.0" 1920 1080
    [Element.mk "the" (DOMRect.mk 0 20 0 20);
     Element.mk "the" (DOMRect.mk 100 120 100 120)]
    (fun i => match i with O => "aaaaa" | _ => "bbbbb" end).

(** A page where "causes" is marked at (0,0)-(20,20) and "cause" at
    (100,100)-(120,120). *)
Definition prefix_browser : Browser.t :=
  Browser.mk 0 "/abstract1.html" 1280 720 "Mozilla/5.0" 1920 1080
    [Element.mk "causes" (DOMRect.mk 0 20 0 20);
     Element.mk "cause" (DOMRect.mk 100 120 100 120)]
    (fun i => match i with O => "aaaaa" | _ => "bbbbb" end).

(** Two samples 100ms apart, both inside (100,100)-(120,120). *)
Definition second_region_gaze : list pobj :=
  [timed_sample 110 110 0; timed_sample 115 115 100].

(** Two samples 100ms apart whose coordinates are [null]: [>=] and [<=]
    read them as 0. *)
Definition null_gaze : list pobj :=
  [[("x", PNull); ("y", PNull); ("time", PNum 0)];
   [("x", PNull); ("y", PNull); ("time", PNum 100)]].

(** The spec's scenario with samples that carry [time]: (10,10), (15,15),
    (1000,1000) at 0, 100 and 2000ms. *)
Definition timed_scenario : list pobj :=
  [timed_sample 10 10 0; timed_sample 15 15 100; timed_sample 1000 1000 2000].



(** ** The states of the tracker *)

(** The worlds a tracker can be in: it is constructed in a page whose
    engine, session store and past effects are whatever they are; then the
    operations run, and between two of them the engine may change its
    readiness and other scripts of the page may rewrite the session
    store. *)
Inductive reachable : world -> Prop :=
| reach_new ready listening store tr :
    reachable (mkWorld new_EyeTrackingUtils ready listening store tr)
| reach_run op w : reachable w -> reachable (run op w)
| reach_isReady b w : reachable w -> reachable (set_isReady b w)
| reach_sessionStorage s w : reachable w -> reachable (set_sessionStorage s w).

(** ** The global instance and its bindings *)

(** [window.initializeEyeTracking], [window.startCalibration],
    [window.isGazeOn], [window.getGazeStats] and
    [window.exportEyeTrackingData], each on [window.eyeTracker]. *)
Definition initializeEyeTracking (options : Options.t)
    (begin_error : option string) (w : world) : world * bool :=
  init options begin_error w.

Definition startCalibration (b : Browser.t) (w : world)
  : world * completion json :=
  calibrate b None w.

Definition isGazeOn (x y : option primitive) (element : Element.t) : bool :=
  isGazeOnElement x y element.

Definition getGazeStats (element : Element.t) (timeRange : option (Z * Z))
    (w : world) : GazeStats.t :=
  calculateGazeStats element timeRange w.

Definition exportEyeTrackingData (b : Browser.t) (w : world) : ExportRecord.t :=
  exportGazeData b w.

(** ** Measures of a trace and of a run of samples *)

(** The time the timers of a trace wait, in milliseconds. *)
Definition waited (tr : list effect) : Z :=
  fold_right (fun e n => match e with SetTimeout ms => (ms + n)%Z | _ => n end)
    0%Z tr.

(** The effects of visiting target [i]: the listeners of 'calibrationPoint'
    are called, five samples are recorded 100ms apart, and the sequencer
    waits 500ms. *)
Definition target_effects (b : Browser.t) (cbs : list callback) (i : nat)
    (pos : Position.t) : list effect :=
  map (fun cb =>
         Called cb (JObj [("index", JNum (Z.of_nat i));
                          ("position", json_of_position pos)])) cbs
  ++ collectPoint (to_pixels (Position.x pos) (Browser.innerWidth b))
       (to_pixels (Position.y pos) (Browser.innerHeight b))
  ++ [SetTimeout 500].

Fixpoint targets_effects (b : Browser.t) (cbs : list callback) (i : nat)
    (positions : list Position.t) : list effect :=
  match positions with
  | [] => []
  | pos :: rest => target_effects b cbs i pos ++ targets_effects b cbs (S i) rest
  end.

(** One call of the gaze listener by the engine: the browser at that
    moment, the prediction, the elapsed time. *)
Definition sample : Type := Browser.t * option (number * number) * number.

(** The engine delivers samples one after the other. *)
Definition deliver (samples : list sample) (w : world) : world :=
  fold_left (fun w s => gazeListener (fst (fst s)) (snd (fst s)) (snd s) w)
    samples w.

(** The gaze points a run of samples holds: one for each prediction that is
    not null. *)
Definition points_of (samples : list sample) : list GazePoint.t :=
  flat_map
    (fun s =>
       match snd (fst s) with
       | Some (x, y) =>
           [GazePoint.mk x y (Browser.now (fst (fst s))) (snd s)
              (Browser.pathname (fst (fst s)))]
       | None => []
       end)
    samples.

(** The timestamps of a gaze sequence never go back. *)
Definition chronological (l : list GazePoint.t) : Prop :=
  StronglySorted Z.le (map GazePoint.timestamp l).

(** A point of the screen inside a viewport of the browser's size. *)
Definition in_viewport (b : Browser.t) (p : Q * Q) : Prop :=
  (0 <= fst p)%Q /\ (fst p <= inject_Z (Browser.innerWidth b))%Q
  /\ (0 <= snd p)%Q /\ (snd p <= inject_Z (Browser.innerHeight b))%Q.

(** The keys of the session store the tracker writes. *)
Definition calibration_keys : list string :=
  ["eyeTrackingCalibrated"; "calibrationTimestamp"; "calibrationData"].

(** A page reload: a tracker just constructed, over the session store of
    [w]. *)
Definition reloaded (w : world) : world :=
  mkWorld new_EyeTrackingUtils false false (sessionStorage w) [].

(** A page with two regions whose labels differ. *)
Definition two_words_browser : Browser.t :=
  Browser.mk 0 "/abstract1.html" 1280 720 "Mozilla/5.0" 1920 1080
    [Element.mk "because" (DOMRect.mk 0 20 0 20);
     Element.mk "therefore" (DOMRect.mk 100 120 100 120)]
    (fun i => match i with O => "aaaaa" | _ => "bbbbb" end).

(** [dwellTimes[k]]: [None] is [undefined]. *)
Fixpoint dwell_get (k : string) (d : dwell) : option Q :=
  match d with
  | [] => None
  | (k', v) :: d' => if String.eqb k k' then Some v else dwell_get k d'
  end.

(** The keys the first loop draws for the regions of the page, in document
    order. *)
Definition aoi_keys (b : Browser.t) : list string :=
  imap (aoi_key b) (Browser.aoi b).

(** [on(event, cb)] for each callback of a list, in turn. *)
Definition register (event : string) (cbs : list callback) (w : world) : world :=
  fold_left (fun w cb => fst (on event cb w)) cbs w.

(** A tracker whose record was loaded from a store that held a completed
    record without a timestamp. *)
Definition untimed_world : world :=
  set_calibrationData (JObj [("completed", JBool true)]) fresh_world.

(* ===================================================================== *)
(** * Part II. Properties                                                 *)
(* ===================================================================== *)

(** ** Frame lemmas for the event and effect helpers *)

Lemma this_notify event data w : this (notify event data w) = this w.
Proof.
  unfold notify, triggerEvent.
  destruct (listeners (this w) !! event); [reflexivity|].
  destruct (inherited event); reflexivity.
Qed.

Lemma sessionStorage_notify event data w :
  sessionStorage (notify event data w) = sessionStorage w.
Proof.
  unfold notify, triggerEvent.
  destruct (listeners (this w) !! event); [reflexivity|].
  destruct (inherited event); reflexivity.
Qed.

Lemma trace_notify event data w :
  trace (notify event data w)
  = trace w ++ map (fun cb => Called cb data)
                 (default [] (listeners (this w) !! event)).
Proof.
  unfold notify, triggerEvent. destruct (listeners (this w) !! event); simpl.
  - reflexivity.
  - destruct (inherited event); symmetry; apply app_nil_r.
Qed.

Lemma listening_notify event data w :
  webgazer_listening (notify event data w) = webgazer_listening w.
Proof.
  unfold notify, triggerEvent.
  destruct (listeners (this w) !! event); [reflexivity|].
  destruct (inherited event); reflexivity.
Qed.

(** [on] changes the listeners only, and nothing when it throws. *)
Lemma on_frame event cb w :
  gazeData (this (fst (on event cb w))) = gazeData (this w)
  /\ isInitialized (this (fst (on event cb w))) = isInitialized (this w)
  /\ calibrationData (this (fst (on event cb w))) = calibrationData (this w)
  /\ sessionStorage (fst (on event cb w)) = sessionStorage w
  /\ trace (fst (on event cb w)) = trace w.
Proof.
  unfold on. destruct (listeners (this w) !! event); [repeat split|].
  destruct (inherited event); repeat split.
Qed.

(** ** Calibration *)

Lemma train_app_called tr cbs data samples :
  fold_left train (tr ++ map (fun cb => Called cb data) cbs) samples
  = fold_left train tr samples.
Proof.
  rewrite fold_left_app. generalize (fold_left train tr samples) as acc.
  induction cbs as [|cb cbs IH]; intros acc; simpl; [reflexivity | apply IH].
Qed.

Lemma train_collectSample n x y samples :
  fold_left train (collectSample n x y) samples = samples ++ replicate n (x, y).
Proof.
  revert samples. induction n as [|n IH]; intros samples; simpl.
  - symmetry. apply app_nil_r.
  - destruct n as [|n].
    + reflexivity.
    + change (fold_left train (collectSample (S n) x y) (samples ++ [(x, y)])
              = samples ++ (x, y) :: replicate (S n) (x, y)).
      rewrite IH, <- app_assoc. reflexivity.
Qed.

(** The sequencer leaves the record it found, completed; it touches nothing
    else of the tracker, and the engine gains the samples of the targets
    visited and loses none. *)
Lemma processNextPoint_spec b rem : forall currentPoint w o,
  calibrationData (this w) = JObj o ->
  let r := processNextPoint b currentPoint rem w in
  snd r = JObj (set_prop "completed" (JBool true) o)
  /\ calibrationData (this (fst r)) = snd r
  /\ isInitialized (this (fst r)) = isInitialized (this w)
  /\ gazeData (this (fst r)) = gazeData (this w)
  /\ sessionStorage (fst r) = sessionStorage w
  /\ (exists es, trace (fst r) = trace w ++ es)
  /\ engine_samples (trace (fst r))
     = engine_samples (trace w) ++ flat_map (target_samples b) rem.
Proof.
  induction rem as [|pos rest IH]; intros currentPoint w o Hc.
  - simpl. rewrite Hc. rewrite this_notify, sessionStorage_notify.
    rewrite trace_notify. simpl.
    repeat split; try reflexivity.
    + eexists. reflexivity.
    + unfold engine_samples. rewrite train_app_called.
      symmetry. apply app_nil_r.
  - cbn [processNextPoint].
    set (w1 := notify "calibrationPoint" _ w).
    set (w3 := emit [SetTimeout 500] (emit (collectPoint _ _) w1)).
    assert (Hthis : this w3 = this w) by (subst w3 w1; simpl; apply this_notify).
    assert (Hc3 : calibrationData (this w3) = JObj o) by (rewrite Hthis; exact Hc).
    destruct (IH (S currentPoint) w3 o Hc3) as (H1 & H2 & H3 & H4 & H5 & [es H6] & H7).
    rewrite Hthis in H3, H4.
    repeat split; try assumption.
    + rewrite H5. subst w3 w1. simpl. apply sessionStorage_notify.
    + rewrite H6. subst w3 w1. simpl. rewrite trace_notify.
      rewrite <- !app_assoc. eexists. reflexivity.
    + rewrite H7. cbn [flat_map]. rewrite app_assoc. f_equal.
      unfold engine_samples.
      change (trace w3)
        with ((trace w1
               ++ collectPoint
                    (to_pixels (Position.x pos) (Browser.innerWidth b))
                    (to_pixels (Position.y pos) (Browser.innerHeight b)))
              ++ [SetTimeout 500]).
      subst w1. rewrite trace_notify.
      rewrite fold_left_app. cbn [fold_left train].
      rewrite fold_left_app, train_app_called.
      unfold collectPoint. apply train_collectSample.
Qed.

(** What a call of [calibrate] on an initialized tracker comes to. *)
Lemma calibrate_initialized b positions w :
  isInitialized (this w) = true ->
  let calibrationPositions := default defaultPositions positions in
  let record := calibration_record calibrationPositions (Browser.now b) true in
  exists w',
    calibrate b positions w = (w', Return record)
    /\ calibrationData (this w') = record
    /\ gazeData (this w') = gazeData (this w)
    /\ sessionStorage w' = sessionStorage w
    /\ (exists es, trace w' = trace w ++ Engine webgazer.clearData :: es)
    /\ engine_samples (trace w')
       = flat_map (target_samples b) calibrationPositions.
Proof.
  intros Hi. unfold calibrate. rewrite Hi. simpl negb. cbv iota.
  set (ps := default defaultPositions positions).
  set (w2 := set_calibrationData _ (emit [Engine webgazer.clearData] w)).
  set (w3 := notify "calibrationStarted" _ w2).
  assert (Hc : calibrationData (this w3)
               = JObj [("positions", JArr (map json_of_position ps));
                       ("timestamp", JNum (Browser.now b));
                       ("completed", JBool false)]).
  { subst w3. rewrite this_notify. reflexivity. }
  pose proof (processNextPoint_spec b ps 0 w3 _ Hc) as H.
  destruct (processNextPoint b 0 ps w3) as [w4 record] eqn:E.
  simpl in H. destruct H as (H1 & H2 & H3 & H4 & H5 & [es H6] & H7).
  exists w4. subst record.
  assert (Htr : trace w3 = (trace w ++ [Engine webgazer.clearData])
                 ++ map (fun cb => Called cb (calibrationData (this w2)))
                      (default [] (listeners (this w2) !! "calibrationStarted"))).
  { subst w3. rewrite trace_notify. reflexivity. }
  repeat split.
  - exact H2.
  - rewrite H4. subst w3. rewrite this_notify. reflexivity.
  - rewrite H5. subst w3. rewrite sessionStorage_notify. reflexivity.
  - rewrite H6, Htr. rewrite <- !app_assoc. simpl. eexists. reflexivity.
  - rewrite H7, Htr. unfold engine_samples at 1.
    rewrite train_app_called, fold_left_app. reflexivity.
Qed.

(** C5. On an initialized tracker, [calibrate] with the single target
    {x:50, y:50} resolves with a record whose [completed] is true and whose
    [positions] has length 1; and [calibrate] without a positions argument
    resolves with a record whose [positions] is the default grid of nine
    percentage targets.  (The engine's calls return normally in the
    embedding.) *)
Theorem calibrate_single_target_and_default (b : Browser.t) (w : world) :
  isInitialized (this w) = true ->
  (exists w' record,
      calibrate b (Some [Position.mk 50 50]) w = (w', Return record)
      /\ calibrationData (this w') = record
      /\ prop_of record "completed" = Some (JBool true)
      /\ exists ps, prop_of record "positions" = Some (JArr ps) /\ length ps = 1)
  /\ (exists w' record,
        calibrate b None w = (w', Return record)
        /\ calibrationData (this w') = record
        /\ prop_of record "completed" = Some (JBool true)
        /\ prop_of record "positions"
           = Some (JArr (map json_of_position defaultPositions))
        /\ length defaultPositions = 9).
Proof.
  intros Hi. split.
  - destruct (calibrate_initialized b (Some [Position.mk 50 50]) w Hi)
      as (w' & Hcal & Hrec & _).
    exists w', (calibration_record [Position.mk 50 50] (Browser.now b) true).
    repeat split; try assumption.
    eexists. split; reflexivity.
  - destruct (calibrate_initialized b None w Hi) as (w' & Hcal & Hrec & _).
    exists w', (calibration_record defaultPositions (Browser.now b) true).
    repeat split; assumption.
Qed.

Lemma calibrate_single_target_and_default_witness :
  (exists w' record,
      calibrate plain_browser (Some [Position.mk 50 50]) initialized_world
      = (w', Return record)
      /\ calibrationData (this w') = record
      /\ prop_of record "completed" = Some (JBool true)
      /\ exists ps, prop_of record "positions" = Some (JArr ps) /\ length ps = 1)
  /\ (exists w' record,
        calibrate plain_browser None initialized_world = (w', Return record)
        /\ calibrationData (this w') = record
        /\ prop_of record "completed" = Some (JBool true)
        /\ prop_of record "positions"
           = Some (JArr (map json_of_position defaultPositions))
        /\ length defaultPositions = 9).
Proof.
  apply (calibrate_single_target_and_default plain_browser initialized_world).
  reflexivity.
Defined.

(** C6. [calibrate] on a tracker that is not initialized is rejected with
    the error 'Eye tracking not initialized'; the call has no effect: no
    engine call, no event, and the stored calibration record is the one
    before the call. *)
Theorem calibrate_requires_init (b : Browser.t)
    (positions : option (list Position.t)) (w : world) :
  isInitialized (this w) = false ->
  snd (calibrate b positions w) = Throw "Eye tracking not initialized"
  /\ fst (calibrate b positions w) = w
  /\ trace (fst (calibrate b positions w)) = trace w
  /\ calibrationData (this (fst (calibrate b positions w)))
     = calibrationData (this w).
Proof.
  intros Hi. unfold calibrate. rewrite Hi. simpl. repeat split.
Qed.

Lemma calibrate_requires_init_witness :
  snd (calibrate plain_browser None fresh_world)
  = Throw "Eye tracking not initialized"
  /\ fst (calibrate plain_browser None fresh_world) = fresh_world
  /\ trace (fst (calibrate plain_browser None fresh_world)) = trace fresh_world
  /\ calibrationData (this (fst (calibrate plain_browser None fresh_world)))
     = calibrationData (this fresh_world).
Proof.
  apply (calibrate_requires_init plain_browser None fresh_world).
  reflexivity.
Defined.

(** C10. Every call of [calibrate] on an initialized tracker first tells
    the engine to clear its data: [clearData] is the first effect of the
    call, ahead of every event and every recorded target, whatever the
    positions; and the samples the engine holds when the call is over are
    those of this calibration alone, five per target, none from before. *)
Theorem calibrate_clears_engine_first (b : Browser.t)
    (positions : option (list Position.t)) (w : world) :
  isInitialized (this w) = true ->
  (exists es,
      trace (fst (calibrate b positions w))
      = trace w ++ Engine webgazer.clearData :: es)
  /\ engine_samples (trace (fst (calibrate b positions w)))
     = flat_map (target_samples b) (default defaultPositions positions).
Proof.
  intros Hi.
  destruct (calibrate_initialized b positions w Hi)
    as (w' & Hcal & _ & _ & _ & Htr & Hs).
  rewrite Hcal. simpl. split; assumption.
Qed.

Lemma calibrate_clears_engine_first_witness :
  (exists es,
      trace (fst (calibrate plain_browser (Some [Position.mk 50 50])
                    calibrated_world))
      = trace calibrated_world ++ Engine webgazer.clearData :: es)
  /\ engine_samples
       (trace (fst (calibrate plain_browser (Some [Position.mk 50 50])
                      calibrated_world)))
     = flat_map (target_samples plain_browser) [Position.mk 50 50].
Proof.
  apply (calibrate_clears_engine_first plain_browser
           (Some [Position.mk 50 50]) calibrated_world).
  reflexivity.
Defined.

(** ** The session state store *)

(** C4, as the code has it.  [isCalibrated()] returns true exactly when the
    in-memory record is truthy, its [completed] property is truthy and the
    stored flag is the string 'true'.  In every other case the value is
    falsy, and it is the operand the [&&] chain stopped at: the record
    itself (null when there is none), the [completed] property (false, or
    undefined), or false.  For a record as [calibrate] makes it, with a
    boolean [completed], the value is the boolean conjunction of that flag
    and the stored one. *)
Theorem isCalibrated_spec (w : world) :
  (isCalibrated w = Some (JBool true)
   <-> truthy (calibrationData (this w)) = true
       /\ truthy_opt (prop_of (calibrationData (this w)) "completed") = true
       /\ sessionStorage w !! "eyeTrackingCalibrated" = Some "true")
  /\ (isCalibrated w <> Some (JBool true) -> truthy_opt (isCalibrated w) = false)
  /\ (calibrationData (this w) = JNull -> isCalibrated w = Some JNull)
  /\ (forall ps ts c,
        calibrationData (this w) = calibration_record ps ts c ->
        isCalibrated w
        = Some (JBool (c && item_is_true "eyeTrackingCalibrated" w))).
Proof.
  unfold isCalibrated, item_is_true.
  destruct (truthy (calibrationData (this w))) eqn:Hc; simpl.
  - destruct (truthy_opt (prop_of (calibrationData (this w)) "completed")) eqn:Hd;
      simpl.
    + split; [split|split; [|split]].
      * intros [= H]. apply bool_decide_eq_true in H. auto.
      * intros (_ & _ & H). rewrite bool_decide_eq_true_2 by exact H. reflexivity.
      * intros H. case_bool_decide; [congruence | reflexivity].
      * intros H. rewrite H in Hc. discriminate.
      * intros ps ts c H. rewrite H in Hd. simpl in Hd. subst c. reflexivity.
    + split; [split|split; [|split]].
      * intros H. rewrite H in Hd. discriminate.
      * intros (_ & H & _). discriminate.
      * intros _. exact Hd.
      * intros H. rewrite H in Hc. discriminate.
      * intros ps ts c H. rewrite H in Hd |- *. simpl in Hd |- *.
        subst c. reflexivity.
  - split; [split|split; [|split]].
    + intros [= H]. rewrite H in Hc. discriminate.
    + intros (H & _). discriminate.
    + intros _. simpl. exact Hc.
    + intros H. rewrite H. reflexivity.
    + intros ps ts c H. rewrite H in Hc. discriminate.
Qed.

(** C4, as stated, fails on the tracker just constructed: no record and no
    stored flag, and the value is null, not false. *)
Lemma isCalibrated_fresh_is_null :
  calibrationData (this fresh_world) = JNull
  /\ sessionStorage fresh_world !! "eyeTrackingCalibrated" = None
  /\ isCalibrated fresh_world = Some JNull
  /\ isCalibrated fresh_world <> Some (JBool false).
Proof. repeat split. discriminate. Qed.

Lemma isCalibrated_spec_witness :
  isCalibrated calibrated_world
  = Some (JBool (true && item_is_true "eyeTrackingCalibrated" calibrated_world)).
Proof.
  apply (proj2 (proj2 (proj2 (isCalibrated_spec calibrated_world)))
           defaultPositions 1000%Z true).
  reflexivity.
Defined.

(** C8, as the code has it.  [saveCalibrationState()] leaves the whole
    world, and so every key of the session store, as it is unless the
    in-memory record is truthy and its [completed] property is truthy: a
    store that changed implies both.  With no record, or a record whose
    [completed] is not truthy, nothing is written.  For a record whose
    [completed] is truthy and whose timestamp prints as [stamp], the three
    keys are written, the flag 'true', the timestamp and the serialized
    record, and every other key keeps its value; truthy is all the test
    asks, so [completed] need not be [true].  For a record as [calibrate]
    builds it the test is [completed = true]. *)
Theorem saveCalibrationState_frame (w : world) :
  (truthy (calibrationData (this w))
   && truthy_opt (prop_of (calibrationData (this w)) "completed") = false ->
   saveCalibrationState w = (w, Return tt))
  /\ (sessionStorage (fst (saveCalibrationState w)) <> sessionStorage w ->
      truthy (calibrationData (this w)) = true
      /\ truthy_opt (prop_of (calibrationData (this w)) "completed") = true)
  /\ (forall stamp,
        truthy (calibrationData (this w)) = true ->
        truthy_opt (prop_of (calibrationData (this w)) "completed") = true ->
        prop_of (calibrationData (this w)) "timestamp" ≫= js_toString = Some stamp ->
        snd (saveCalibrationState w) = Return tt
        /\ this (fst (saveCalibrationState w)) = this w
        /\ sessionStorage (fst (saveCalibrationState w))
           = <["calibrationData" := JSON_stringify (calibrationData (this w))]>
               (<["calibrationTimestamp" := stamp]>
                  (<["eyeTrackingCalibrated" := "true"]> (sessionStorage w))))
  /\ (calibrationData (this w) = JNull -> saveCalibrationState w = (w, Return tt))
  /\ (forall ps ts,
        calibrationData (this w) = calibration_record ps ts false ->
        saveCalibrationState w = (w, Return tt))
  /\ (forall ps ts,
        calibrationData (this w) = calibration_record ps ts true ->
        snd (saveCalibrationState w) = Return tt
        /\ this (fst (saveCalibrationState w)) = this w
        /\ sessionStorage (fst (saveCalibrationState w))
           = <["calibrationData" := JSON_stringify (calibration_record ps ts true)]>
               (<["calibrationTimestamp" := string_of_Z ts]>
                  (<["eyeTrackingCalibrated" := "true"]> (sessionStorage w)))
        /\ forall k,
             k <> "eyeTrackingCalibrated" -> k <> "calibrationTimestamp" ->
             k <> "calibrationData" ->
             sessionStorage (fst (saveCalibrationState w)) !! k
             = sessionStorage w !! k).
Proof.
  assert (Hframe :
    truthy (calibrationData (this w))
    && truthy_opt (prop_of (calibrationData (this w)) "completed") = false ->
    saveCalibrationState w = (w, Return tt)).
  { intros H. unfold saveCalibrationState. rewrite H. reflexivity. }
  split; [exact Hframe|]. split; [|split; [|split; [|split]]].
  - intros Hne.
    destruct (truthy (calibrationData (this w))
              && truthy_opt (prop_of (calibrationData (this w)) "completed"))
      eqn:Hg.
    + apply andb_true_iff in Hg. exact Hg.
    + rewrite (Hframe eq_refl) in Hne. simpl in Hne. congruence.
  - intros stamp Hc Hd Hts. unfold saveCalibrationState. rewrite Hc, Hd, Hts.
    repeat split.
  - intros H. apply Hframe. rewrite H. reflexivity.
  - intros ps ts H. apply Hframe. rewrite H. reflexivity.
  - intros ps ts H. unfold saveCalibrationState. rewrite H.
    cbn [calibration_record truthy prop_of get_prop String.eqb Ascii.eqb
         Bool.eqb truthy_opt andb mbind option_bind js_toString number_text].
    cbn [fst snd set_sessionStorage this sessionStorage].
    repeat split.
    intros k H1 H2 H3. rewrite !lookup_insert_ne by congruence. reflexivity.
Qed.

(** C8, as stated, fails on a record whose [completed] is not [true] and
    yet truthy.  A store holds a record whose [completed] is the string
    'false'; [loadCalibrationState()] restores it; the store is then
    emptied; [saveCalibrationState()] writes the three keys. *)
Lemma saveCalibrationState_completed_not_true :
  reachable mistyped_world
  /\ calibrationData (this mistyped_world) = mistyped_record
  /\ prop_of (calibrationData (this mistyped_world)) "completed"
     = Some (JStr "false")
  /\ prop_of (calibrationData (this mistyped_world)) "completed"
     <> Some (JBool true)
  /\ sessionStorage mistyped_world = ∅
  /\ sessionStorage (fst (saveCalibrationState mistyped_world))
     = <["calibrationData" := JSON_stringify mistyped_record]>
         (<["calibrationTimestamp" := "7"]>
            (<["eyeTrackingCalibrated" := "true"]> ∅)).
Proof.
  split; [|split; [|split; [|split; [|split]]]].
  - unfold mistyped_world.
    apply reach_sessionStorage.
    apply (reach_run LoadCalibrationState). apply reach_new.
  - vm_compute. reflexivity.
  - vm_compute. reflexivity.
  - vm_compute. discriminate.
  - reflexivity.
  - reflexivity.
Qed.

Lemma saveCalibrationState_frame_witness :
  snd (saveCalibrationState calibrated_world) = Return tt
  /\ this (fst (saveCalibrationState calibrated_world)) = this calibrated_world
  /\ sessionStorage (fst (saveCalibrationState calibrated_world))
     = <["calibrationData"
         := JSON_stringify (calibrationData (this calibrated_world))]>
         (<["calibrationTimestamp" := "1000"]>
            (<["eyeTrackingCalibrated" := "true"]>
               (sessionStorage calibrated_world))).
Proof.
  apply (proj1 (proj2 (proj2 (saveCalibrationState_frame calibrated_world)))
           "1000"); reflexivity.
Defined.

Lemma item_truthy_Some (v : option string) :
  item_truthy v = true <-> exists s, v = Some s /\ s <> EmptyString.
Proof.
  destruct v as [s|]; simpl.
  - destruct (String.eqb_spec s EmptyString) as [->|Hne]; simpl; split.
    + discriminate.
    + intros (s & [= <-] & H). congruence.
    + eauto.
    + reflexivity.
  - split; [discriminate|]. intros (s & H & _). discriminate.
Qed.

(** C3, as the code has it.  [loadCalibrationState()] returns true only
    when the three keys are present (the timestamp and the record not
    empty), the flag is the string 'true' and the serialized record parses;
    the in-memory record is then the parsed value.  When a key is missing
    or empty, or the flag is not 'true', it returns false, raises nothing
    and leaves the tracker as it is.  When the three keys are in place and
    the serialized record is not JSON, the SyntaxError of [JSON.parse]
    leaves the method: nothing catches it.  (A text is not JSON when it has
    no reading and names no code unit above 255; a text that names one is
    left aside.  The numerals of the record, fractions and exponents
    included, are read as the decimals they denote.) *)
Theorem loadCalibrationState_spec (w : world) :
  (forall w',
      loadCalibrationState w = (w', Return true) ->
      sessionStorage w !! "eyeTrackingCalibrated" = Some "true"
      /\ exists ts data v,
           sessionStorage w !! "calibrationTimestamp" = Some ts
           /\ ts <> EmptyString
           /\ sessionStorage w !! "calibrationData" = Some data
           /\ data <> EmptyString
           /\ JSON_parse data = Some v
           /\ w' = set_calibrationData v w)
  /\ (sessionStorage w !! "eyeTrackingCalibrated" <> Some "true"
      \/ item_truthy (sessionStorage w !! "calibrationTimestamp") = false
      \/ item_truthy (sessionStorage w !! "calibrationData") = false ->
      loadCalibrationState w = (w, Return false))
  /\ (forall data,
        sessionStorage w !! "eyeTrackingCalibrated" = Some "true" ->
        item_truthy (sessionStorage w !! "calibrationTimestamp") = true ->
        sessionStorage w !! "calibrationData" = Some data ->
        data <> EmptyString ->
        (forall v, JSON_parse data = Some v ->
                   loadCalibrationState w = (set_calibrationData v w, Return true))
        /\ (JSON_parse data = None -> mentions_wide_unit data = false ->
            loadCalibrationState w = (w, Throw "SyntaxError"))).
Proof.
  unfold loadCalibrationState, item_is_true.
  split; [|split].
  - intros w' H.
    case_bool_decide as Hflag; simpl in H; [|discriminate].
    destruct (item_truthy (sessionStorage w !! "calibrationTimestamp")) eqn:Hts;
      simpl in H; [|discriminate].
    destruct (item_truthy (sessionStorage w !! "calibrationData")) eqn:Hd;
      simpl in H; [|discriminate].
    apply item_truthy_Some in Hts as (ts & Hts & Hts').
    apply item_truthy_Some in Hd as (data & Hd & Hd').
    rewrite Hd in H. simpl in H.
    destruct (JSON_parse data) as [v|] eqn:Hp;
      [|destruct (mentions_wide_unit data); discriminate].
    injection H as <-.
    split; [exact Hflag|]. exists ts, data, v. repeat (split; [assumption|]).
    reflexivity.
  - intros [H | [H | H]].
    + rewrite bool_decide_eq_false_2 by exact H. reflexivity.
    + rewrite H, andb_false_r. reflexivity.
    + rewrite H, andb_false_r. reflexivity.
  - intros data Hflag Hts Hd Hne.
    rewrite bool_decide_eq_true_2 by exact Hflag.
    rewrite Hts, Hd. simpl.
    destruct (String.eqb_spec data EmptyString) as [->|_]; [congruence|]. simpl.
    split.
    + intros v ->. reflexivity.
    + intros -> ->. reflexivity.
Qed.

(** C3, as stated, fails on a store whose three keys are set and whose
    serialized record is cut short: the call does not return false, it
    ends with the SyntaxError. *)
Lemma loadCalibrationState_unparsable_raises :
  sessionStorage corrupted_world !! "eyeTrackingCalibrated" = Some "true"
  /\ sessionStorage corrupted_world !! "calibrationTimestamp" = Some "1000"
  /\ sessionStorage corrupted_world !! "calibrationData" = Some "{bad"
  /\ JSON_parse "{bad" = None
  /\ mentions_wide_unit "{bad" = false
  /\ loadCalibrationState corrupted_world = (corrupted_world, Throw "SyntaxError")
  /\ snd (loadCalibrationState corrupted_world) <> Return false.
Proof. repeat split. discriminate. Qed.

(** A store that holds a record with a fraction and an exponent, as any
    JSON text may: the record is restored. *)
Lemma loadCalibrationState_spec_witness :
  loadCalibrationState fractional_world
  = (set_calibrationData
       (JObj [("positions", JArr [JNumber (Dec 125 1); JNum 1000]);
              ("timestamp", JNum 7);
              ("completed", JBool true)])
       fractional_world,
     Return true).
Proof.
  apply (proj1 (proj2 (proj2 (loadCalibrationState_spec fractional_world))
                  (sessionStorage_data fractional_world) eq_refl eq_refl eq_refl
                  ltac:(discriminate))).
  vm_compute. reflexivity.
Defined.

(** ** The gaze sequence *)

Lemma gazeData_notify event data w :
  gazeData (this (notify event data w)) = gazeData (this w).
Proof. rewrite this_notify. reflexivity. Qed.

Lemma gazeData_calibrate b positions w :
  gazeData (this (fst (calibrate b positions w))) = gazeData (this w).
Proof.
  destruct (isInitialized (this w)) eqn:Hi.
  - destruct (calibrate_initialized b positions w Hi) as (w' & Hcal & _ & Hg & _).
    rewrite Hcal. exact Hg.
  - unfold calibrate. rewrite Hi. reflexivity.
Qed.

Lemma gazeData_saveCalibrationState w :
  gazeData (this (fst (saveCalibrationState w))) = gazeData (this w).
Proof.
  unfold saveCalibrationState.
  destruct (truthy _ && truthy_opt _); [|reflexivity].
  destruct (prop_of _ _ ≫= js_toString); reflexivity.
Qed.

Lemma gazeData_loadCalibrationState w :
  gazeData (this (fst (loadCalibrationState w))) = gazeData (this w).
Proof.
  unfold loadCalibrationState.
  destruct (_ && _ && _); [|reflexivity].
  destruct (JSON_parse _); [reflexivity|].
  destruct (mentions_wide_unit _); reflexivity.
Qed.

Lemma gazeData_stop w : gazeData (this (stop w)) = gazeData (this w).
Proof.
  unfold stop. destruct (_ && _); [|reflexivity].
  rewrite gazeData_notify. reflexivity.
Qed.

Lemma gazeData_pause w : gazeData (this (pause w)) = gazeData (this w).
Proof.
  unfold pause. destruct (isInitialized _); [|reflexivity].
  rewrite gazeData_notify. reflexivity.
Qed.

Lemma gazeData_resume w : gazeData (this (resume w)) = gazeData (this w).
Proof.
  unfold resume. destruct (isInitialized _); [|reflexivity].
  rewrite gazeData_notify. reflexivity.
Qed.

Lemma gazeData_gazeListener b data elapsedTime w :
  gazeData (this w) `prefix_of` gazeData (this (gazeListener b data elapsedTime w)).
Proof.
  unfold gazeListener. destruct data as [[x y]|]; [|reflexivity].
  rewrite gazeData_notify. simpl. apply prefix_app_r. reflexivity.
Qed.

Lemma stop_stop w : stop (stop w) = stop w.
Proof.
  destruct (isInitialized (this w) && webgazer_isReady w) eqn:Hc.
  - assert (Hs : stop w
                 = notify "stopped" JNull
                     (set_isInitialized false (emit [Engine webgazer.end_] w)))
      by (unfold stop; rewrite Hc; reflexivity).
    rewrite Hs. unfold stop at 1. rewrite this_notify. reflexivity.
  - assert (Hs : stop w = w) by (unfold stop; rewrite Hc; reflexivity).
    rewrite !Hs. reflexivity.
Qed.

(** C7. No operation of the tracker other than [clearData] removes or
    changes a recorded gaze point: the sequence before the operation is a
    prefix of the sequence after it.  [stop], [pause] and [resume] leave the
    sequence exactly as it is.  [clearData] empties it.  A second [stop]
    right after a [stop] changes nothing. *)
Theorem gaze_sequence_append_only (op : operation) (w : world) :
  (op <> ClearData ->
   gazeData (this w) `prefix_of` gazeData (this (run op w)))
  /\ gazeData (this (run Stop w)) = gazeData (this w)
  /\ gazeData (this (run Pause w)) = gazeData (this w)
  /\ gazeData (this (run Resume w)) = gazeData (this w)
  /\ gazeData (this (run ClearData w)) = []
  /\ run Stop (run Stop w) = run Stop w.
Proof.
  split; [|split; [|split; [|split; [|split]]]].
  - intros Hop. destruct op; cbn [run]; try reflexivity.
    + unfold init. destruct begin_error; cbn [fst]; rewrite gazeData_notify;
        reflexivity.
    + rewrite (proj1 (on_frame event cb w)). reflexivity.
    + rewrite gazeData_notify. reflexivity.
    + rewrite gazeData_calibrate. reflexivity.
    + congruence.
    + rewrite gazeData_stop. reflexivity.
    + rewrite gazeData_pause. reflexivity.
    + rewrite gazeData_resume. reflexivity.
    + rewrite gazeData_saveCalibrationState. reflexivity.
    + rewrite gazeData_loadCalibrationState. reflexivity.
    + destruct (webgazer_listening w); [|reflexivity].
      apply gazeData_gazeListener.
  - apply gazeData_stop.
  - apply gazeData_pause.
  - apply gazeData_resume.
  - simpl. unfold clearData. simpl.
    destruct (isInitialized (this w)); reflexivity.
  - apply stop_stop.
Qed.

Lemma gaze_sequence_append_only_witness :
  gazeData (this reading_world)
  `prefix_of`
  gazeData (this (run (GazeListener (reading_browser 2100)
                         (Some (Int 12, Int 12)) 2100)
                    reading_world)).
Proof.
  apply (proj1 (gaze_sequence_append_only
                  (GazeListener (reading_browser 2100) (Some (Int 12, Int 12)) 2100)
                  reading_world)).
  discriminate.
Defined.

(** ** Dwell time *)

Lemma Qlt_bool_iff (p q : Q) : Qlt_bool p q = true <-> (p < q)%Q.
Proof.
  unfold Qlt_bool. rewrite negb_true_iff. split.
  - intros H. apply Qnot_le_lt. intros Hle. apply Qle_bool_iff in Hle. congruence.
  - intros H. destruct (Qle_bool q p) eqn:E; [|reflexivity].
    apply Qle_bool_iff in E. exfalso. apply (Qlt_not_le _ _ H E).
Qed.

(** A duration that passes the test is a rational between 0 and 500. *)
Lemma below_threshold_finite (d : extended) :
  below_threshold d = true -> exists q, d = Finite q /\ (0 < q)%Q /\ (q < 500)%Q.
Proof.
  unfold below_threshold. destruct d as [q| |[]]; cbn [lt andb];
    try discriminate.
  intros H. apply andb_true_iff in H as [H0 H1].
  apply Qlt_bool_iff in H0, H1. eauto.
Qed.

Lemma dwell_set_zero k (d : dwell) :
  Forall (fun e => snd e = 0%Q) d -> Forall (fun e => snd e = 0%Q) (dwell_set k 0 d).
Proof.
  induction 1 as [|[k' v'] d' Hv Hd IH]; simpl.
  - repeat constructor.
  - destruct (String.eqb k k'); constructor; auto.
Qed.

Lemma init_dwellTimes_zero b els : forall i (d : dwell),
  Forall (fun e => snd e = 0%Q) d ->
  Forall (fun e => snd e = 0%Q) (init_dwellTimes b i els d).
Proof.
  induction els as [|el els IH]; intros i d Hd; simpl.
  - exact Hd.
  - apply IH, dwell_set_zero, Hd.
Qed.

(** A point the listener built has no [time] property. *)
Lemma point_has_no_time p : get_prop "time" (obj_of_point p) = None.
Proof. reflexivity. Qed.

Lemma duration_between_recorded p q :
  duration_between (obj_of_point p) (obj_of_point q) = Finite 0.
Proof. reflexivity. Qed.

Lemma visit_aoi_no_duration cur next d el :
  duration_between cur next = Finite 0 -> visit_aoi cur next d el = d.
Proof.
  intros H. unfold visit_aoi. rewrite H.
  change (below_threshold (Finite 0)) with false.
  destruct (isGazeOnElement _ _ el); [|reflexivity].
  destruct (List.find _ _); [|reflexivity].
  destruct (String.eqb _ _); reflexivity.
Qed.

Lemma dwell_loop_recorded els pts : forall d,
  dwell_loop els (map obj_of_point pts) d = d.
Proof.
  induction pts as [|p pts IH]; intros d; [reflexivity|].
  destruct pts as [|q pts]; [reflexivity|].
  change (dwell_loop els (map obj_of_point (q :: pts))
            (fold_left (visit_aoi (obj_of_point p) (obj_of_point q)) els d) = d).
  rewrite IH. clear IH. revert d.
  induction els as [|el els IHe]; intros d; simpl; [reflexivity|].
  rewrite visit_aoi_no_duration by apply duration_between_recorded. apply IHe.
Qed.

(** Whatever the gaze listener recorded, and wherever the points lie, the
    analyzer leaves every region at zero: the deltas it adds are between
    [time] properties, and a recorded point has [timestamp] and
    [elapsedTime] but no [time]. *)
Lemma recorded_points_dwell_nowhere b pts :
  Forall (fun e => snd e = 0%Q)
    (calculateDwellTimeOnAOIs b (map obj_of_point pts)).
Proof.
  unfold calculateDwellTimeOnAOIs.
  destruct (length _ <? 2)%nat.
  - apply init_dwellTimes_zero. constructor.
  - rewrite dwell_loop_recorded. apply init_dwellTimes_zero. constructor.
Qed.

(** C1, at the scenario of three recorded points at (10,10), (15,15),
    (1000,1000), 0, 100 and 2000ms into the recording, with one region
    covering (0,0)-(20,20): the deltas that count, for the pairs whose
    earlier point is inside, sum to 100ms; the analyzer reports 0. *)
Theorem recorded_scenario_dwell_is_zero :
  recorded_sequence reading_world
  = [obj_of_point (GazePoint.mk 10 10 0 0 "/abstract1.html");
     obj_of_point (GazePoint.mk 15 15 100 100 "/abstract1.html");
     obj_of_point (GazePoint.mk 1000 1000 2000 2000 "/abstract1.html")]
  /\ dwell_sum elapsed_between (Element.mk "cause" (DOMRect.mk 0 20 0 20))
       (recorded_sequence reading_world) = 100%Q
  /\ calculateDwellTimeOnAOIs (reading_browser 2000)
       (recorded_sequence reading_world)
     = [("cause_k3x9q", 0%Q)].
Proof. repeat split. Qed.

(** C2, at a page where "the" is marked twice: both regions get an entry,
    under distinct keys, but the 100ms of gaze inside the second region
    are added to the first region's key, which the prefix search finds
    first.  The same happens to "cause" when "causes" is marked before
    it. *)
Theorem duplicate_labels_share_one_key :
  init_dwellTimes twice_the_browser 0 (Browser.aoi twice_the_browser) []
  = [("the_aaaaa", 0%Q); ("the_bbbbb", 0%Q)]
  /\ map (fun el => map (inside el) second_region_gaze)
       (Browser.aoi twice_the_browser)
     = [[false; false]; [true; true]]
  /\ calculateDwellTimeOnAOIs twice_the_browser second_region_gaze
     = [("the_aaaaa", 100%Q); ("the_bbbbb", 0%Q)]
  /\ calculateDwellTimeOnAOIs prefix_browser second_region_gaze
     = [("causes_aaaaa", 100%Q); ("cause_bbbbb", 0%Q)].
Proof. repeat split. Qed.

Lemma prefix_append s t : String.prefix s (s +:+ t) = true.
Proof.
  induction s as [|c s IH]; simpl.
  - destruct t; reflexivity.
  - destruct (ascii_dec c c); [exact IH | congruence].
Qed.

Lemma aoi_key_not_empty b i el : String.eqb (aoi_key b i el) EmptyString = false.
Proof. unfold aoi_key. destruct (label el); reflexivity. Qed.

(** What one visit adds under a key. *)
Lemma add_counted key duration a (d : dwell) :
  (if below_threshold duration then add_duration key duration ((key, a) :: d)
   else (key, a) :: d)
  = (key, counted duration a) :: d.
Proof.
  unfold counted. destruct (below_threshold duration) eqn:Hb; [|reflexivity].
  apply below_threshold_finite in Hb as (q & -> & _).
  cbn [add_duration dwell_add]. rewrite String.eqb_refl. reflexivity.
Qed.

Lemma visit_aoi_single b el cur next a :
  visit_aoi cur next [(aoi_key b 0 el, a)] el
  = [(aoi_key b 0 el,
      if inside el cur then counted (duration_between cur next) a else a)].
Proof.
  unfold visit_aoi, inside.
  destruct (isGazeOnElement _ _ el); [|reflexivity].
  cbn [map fst List.find]. unfold startsWith, aoi_key at 1.
  rewrite prefix_append, aoi_key_not_empty. cbv zeta. apply add_counted.
Qed.

Lemma dwell_loop_single b el pts : forall a,
  dwell_loop [el] pts [(aoi_key b 0 el, a)]
  = [(aoi_key b 0 el, dwell_sum_from duration_between el pts a)].
Proof.
  induction pts as [|cur pts IH]; intros a; [reflexivity|].
  destruct pts as [|next pts]; [reflexivity|].
  change (dwell_loop [el] (next :: pts)
            (visit_aoi cur next [(aoi_key b 0 el, a)] el)
          = [(aoi_key b 0 el,
              dwell_sum_from duration_between el (next :: pts)
                (if inside el cur then counted (duration_between cur next) a
                 else a))]).
  rewrite visit_aoi_single, IH. reflexivity.
Qed.

(** What the analyzer does compute.  On a page with a single region, its
    entry is the sum, over the consecutive pairs whose earlier point is
    inside the region, of the differences of the [time] properties that
    are positive and below 500ms. *)
Lemma single_region_dwell b el pts :
  Browser.aoi b = [el] ->
  calculateDwellTimeOnAOIs b pts
  = [(aoi_key b 0 el, dwell_sum duration_between el pts)].
Proof.
  intros H. unfold calculateDwellTimeOnAOIs. rewrite H.
  cbn [init_dwellTimes dwell_set].
  destruct (length pts <? 2)%nat eqn:Hl.
  - destruct pts as [|p [|q pts]]; try reflexivity. discriminate.
  - rewrite dwell_loop_single. reflexivity.
Qed.

(** The sum only grows with the sequence: a longer recording never lowers
    a region's dwell time. *)
Lemma counted_ge d total : (total <= counted d total)%Q.
Proof.
  unfold counted. destruct (below_threshold d) eqn:Hb; [|apply Qle_refl].
  apply below_threshold_finite in Hb as (q & -> & H0 & _). lra.
Qed.

Lemma dwell_sum_from_ge delta el pts : forall total,
  (total <= dwell_sum_from delta el pts total)%Q.
Proof.
  induction pts as [|p pts IH]; intros total; [apply Qle_refl|].
  destruct pts as [|q pts]; [apply Qle_refl|].
  change (total <= dwell_sum_from delta el (q :: pts)
                     (if inside el p then counted (delta p q) total else total))%Q.
  eapply Qle_trans; [|apply IH].
  destruct (inside el p); [apply counted_ge | apply Qle_refl].
Qed.

Lemma dwell_sum_nonneg delta el pts : (0 <= dwell_sum delta el pts)%Q.
Proof. apply dwell_sum_from_ge. Qed.

Lemma dwell_sum_from_snoc delta el pts p : forall total,
  (dwell_sum_from delta el pts total <= dwell_sum_from delta el (pts ++ [p]) total)%Q.
Proof.
  induction pts as [|a pts IH]; intros total; simpl app.
  - apply Qle_refl.
  - destruct pts as [|c pts].
    + simpl. destruct (inside el a); [apply counted_ge | apply Qle_refl].
    + change (dwell_sum_from delta el (c :: pts)
                (if inside el a then counted (delta a c) total else total)
              <= dwell_sum_from delta el ((c :: pts) ++ [p])
                   (if inside el a then counted (delta a c) total else total))%Q.
      apply IH.
Qed.

Lemma dwell_sum_snoc delta el pts p :
  (dwell_sum delta el pts <= dwell_sum delta el (pts ++ [p]))%Q.
Proof. apply dwell_sum_from_snoc. Qed.

(** ** Regions that share a label *)

(** With samples that carry [time], the spec's scenario gives the 100ms it
    expects. *)
Example timed_scenario_dwell :
  calculateDwellTimeOnAOIs (reading_browser 2000) timed_scenario
  = [("cause_k3x9q", 100%Q)].
Proof. reflexivity. Qed.

Lemma visit_aoi_twin (el : Element.t) k1 k2 cur next a c :
  startsWith k1 (label el) = true ->
  String.eqb k1 EmptyString = false ->
  visit_aoi cur next [(k1, a); (k2, c)] el
  = [(k1, if inside el cur then counted (duration_between cur next) a else a);
     (k2, c)].
Proof.
  intros Hp Hne. unfold visit_aoi, inside.
  destruct (isGazeOnElement _ _ el); [|reflexivity].
  cbn [map fst List.find]. rewrite Hp, Hne. cbv zeta. apply add_counted.
Qed.

Lemma counted_plus d total : (counted d total == total + counted d 0)%Q.
Proof.
  unfold counted. destruct (below_threshold d); [|lra].
  destruct d; lra.
Qed.

Lemma dwell_sum_from_cons delta el p q pts total :
  dwell_sum_from delta el (p :: q :: pts) total
  = dwell_sum_from delta el (q :: pts)
      (if inside el p then counted (delta p q) total else total).
Proof. reflexivity. Qed.

Lemma twin_sum_from_cons el1 el2 p q pts total :
  twin_sum_from el1 el2 (p :: q :: pts) total
  = twin_sum_from el1 el2 (q :: pts)
      (if inside el2 p
       then counted (duration_between p q)
              (if inside el1 p then counted (duration_between p q) total
               else total)
       else if inside el1 p then counted (duration_between p q) total
            else total).
Proof. reflexivity. Qed.

Lemma dwell_sum_from_plus delta el pts : forall total,
  (dwell_sum_from delta el pts total == total + dwell_sum delta el pts)%Q.
Proof.
  unfold dwell_sum.
  induction pts as [|p pts IH]; intros total; [simpl; lra|].
  destruct pts as [|q pts]; [simpl; lra|].
  rewrite !dwell_sum_from_cons.
  rewrite (IH (if inside el p then counted (delta p q) total else total)).
  rewrite (IH (if inside el p then counted (delta p q) 0%Q else 0%Q)).
  destruct (inside el p); [rewrite (counted_plus _ total)|]; lra.
Qed.

Lemma twin_sum_from_plus el1 el2 pts : forall total,
  (twin_sum_from el1 el2 pts total
   == total + (dwell_sum duration_between el1 pts
               + dwell_sum duration_between el2 pts))%Q.
Proof.
  induction pts as [|p pts IH]; intros total; [unfold dwell_sum; simpl; lra|].
  destruct pts as [|q pts]; [unfold dwell_sum; simpl; lra|].
  rewrite twin_sum_from_cons, IH. unfold dwell_sum at 3 4.
  rewrite !dwell_sum_from_cons.
  rewrite (dwell_sum_from_plus _ el1 (q :: pts) (if inside el1 p then _ else _)).
  rewrite (dwell_sum_from_plus _ el2 (q :: pts) (if inside el2 p then _ else _)).
  destruct (inside el1 p), (inside el2 p);
    rewrite ?(counted_plus _ (counted _ total)), ?(counted_plus _ total); lra.
Qed.

(** On a page with two regions of one label, whatever the suffixes drawn,
    the first region's key receives the dwell time of both regions and the
    second region's key stays at zero. *)
Lemma twin_regions_dwell b el1 el2 pts :
  Browser.aoi b = [el1; el2] ->
  label el1 = label el2 ->
  aoi_key b 1 el2 <> aoi_key b 0 el1 ->
  exists total,
    calculateDwellTimeOnAOIs b pts
    = [(aoi_key b 0 el1, total); (aoi_key b 1 el2, 0%Q)]
    /\ (total == dwell_sum duration_between el1 pts
                 + dwell_sum duration_between el2 pts)%Q.
Proof.
  intros Haoi Hlabel Hkeys.
  exists (twin_sum_from el1 el2 pts 0). split; [|rewrite twin_sum_from_plus; lra].
  unfold calculateDwellTimeOnAOIs. rewrite Haoi.
  cbn [init_dwellTimes dwell_set].
  apply String.eqb_neq in Hkeys. rewrite Hkeys.
  assert (Hloop : forall pts a,
             dwell_loop [el1; el2] pts [(aoi_key b 0 el1, a); (aoi_key b 1 el2, 0%Q)]
             = [(aoi_key b 0 el1, twin_sum_from el1 el2 pts a);
                (aoi_key b 1 el2, 0%Q)]).
  { clear pts. induction pts as [|cur pts IH]; intros a; [reflexivity|].
    destruct pts as [|next pts]; [reflexivity|].
    change (dwell_loop [el1; el2] (next :: pts)
              (visit_aoi cur next
                 (visit_aoi cur next
                    [(aoi_key b 0 el1, a); (aoi_key b 1 el2, 0%Q)] el1) el2)
            = [(aoi_key b 0 el1,
                twin_sum_from el1 el2 (next :: pts)
                  (if inside el2 cur
                   then counted (duration_between cur next)
                          (if inside el1 cur
                           then counted (duration_between cur next) a else a)
                   else if inside el1 cur
                        then counted (duration_between cur next) a else a));
               (aoi_key b 1 el2, 0%Q)]).
    rewrite !visit_aoi_twin, IH;
      try apply aoi_key_not_empty;
      try (unfold startsWith, aoi_key; rewrite <- ?Hlabel; apply prefix_append).
    reflexivity. }
  destruct (length pts <? 2)%nat eqn:Hl.
  - destruct pts as [|p [|q pts]]; try reflexivity. discriminate.
  - rewrite Hloop. reflexivity.
Qed.

(** ** [JSON.parse] reads back what [JSON.stringify] wrote *)

Lemma append_assoc (a b c : string) : (a +:+ b) +:+ c = a +:+ (b +:+ c).
Proof. induction a as [|x a IH]; simpl; [reflexivity | rewrite IH; reflexivity]. Qed.

Lemma append_empty_r (a : string) : a +:+ EmptyString = a.
Proof. induction a as [|x a IH]; simpl; [reflexivity | rewrite IH; reflexivity]. Qed.

Lemma length_append (a b : string) :
  String.length (a +:+ b) = String.length a + String.length b.
Proof. induction a as [|x a IH]; simpl; [reflexivity | rewrite IH; reflexivity]. Qed.

(** *** String literals *)

Lemma parse_string_quote_char c tail :
  parse_string (quote_char c +:+ tail)
  = '(str, rest) ← parse_string tail; Some (String c str, rest).
Proof.
  destruct c as [[] [] [] [] [] [] [] []]; reflexivity.
Qed.

Lemma parse_string_quote_body s rest :
  parse_string (quote_body s +:+ String dquote rest) = Some (s, rest).
Proof.
  induction s as [|c s IH]; simpl.
  - reflexivity.
  - rewrite append_assoc, parse_string_quote_char, IH. reflexivity.
Qed.

Lemma quote_unfold s rest :
  quote s +:+ rest = String dquote (quote_body s +:+ String dquote rest).
Proof. unfold quote. simpl. rewrite append_assoc. reflexivity. Qed.

(** *** Numbers *)

Import Decimal.

Lemma all_digits_uint d : all_digits (NilEmpty.string_of_uint d) = true.
Proof. induction d; simpl; auto. Qed.

Lemma all_digits_string_of_N n : all_digits (string_of_N n) = true.
Proof. apply all_digits_uint. Qed.

Lemma all_digits_app a b :
  all_digits (a +:+ b) = all_digits a && all_digits b.
Proof.
  induction a as [|c a IH]; simpl; [reflexivity|].
  rewrite IH, andb_assoc. reflexivity.
Qed.

Lemma all_digits_zeros n : all_digits (zeros n) = true.
Proof. induction n; simpl; auto. Qed.

Lemma span_digits_app ds rest :
  all_digits ds = true -> no_digit_head rest ->
  span_digits (ds +:+ rest) = (ds, rest).
Proof.
  intros Hd Hr. induction ds as [|c ds IH]; simpl.
  - destruct rest as [|c rest]; simpl; [reflexivity|].
    simpl in Hr. rewrite Hr. reflexivity.
  - simpl in Hd. apply andb_true_iff in Hd as [Hc Hd].
    rewrite Hc, (IH Hd). reflexivity.
Qed.

Lemma digits_value_from_app a b : forall acc,
  digits_value_from acc (a +:+ b) = digits_value_from (digits_value_from acc a) b.
Proof. induction a as [|c a IH]; intros acc; simpl; [reflexivity | apply IH]. Qed.

Lemma digits_value_zeros n : digits_value_from 0 (zeros n) = 0%N.
Proof. induction n; simpl; [reflexivity | exact IHn]. Qed.

Lemma of_uint_acc_value d : forall acc,
  Npos (Pos.of_uint_acc d acc)
  = digits_value_from (Npos acc) (NilEmpty.string_of_uint d).
Proof.
  induction d; intros acc; cbn [Pos.of_uint_acc NilEmpty.string_of_uint digits_value_from];
    [reflexivity | rewrite IHd; f_equal; unfold digit_of; cbn; lia ..].
Qed.

Lemma of_uint_value d :
  N.of_uint d = digits_value (NilEmpty.string_of_uint d).
Proof.
  unfold digits_value, N.of_uint.
  induction d; cbn [Pos.of_uint NilEmpty.string_of_uint digits_value_from];
    [reflexivity | exact IHd | rewrite of_uint_acc_value; reflexivity ..].
Qed.

Lemma digits_value_string_of_N n : digits_value (string_of_N n) = n.
Proof.
  unfold string_of_N. rewrite <- of_uint_value. apply DecimalN.Unsigned.of_to.
Qed.

Lemma nzhead_no_leading_zero d :
  match nzhead d with D0 _ => False | _ => True end.
Proof. induction d; simpl; auto. Qed.

(** The decimal digits of a positive number start with a digit that is
    not zero. *)
Lemma to_uint_head p :
  match Pos.to_uint p with Nil | D0 _ => False | _ => True end.
Proof.
  pose proof (DecimalPos.Unsigned.to_of (Pos.to_uint p)) as H.
  rewrite DecimalPos.Unsigned.of_to in H. simpl in H.
  pose proof (DecimalPos.Unsigned.to_uint_nonzero p) as Hnz.
  pose proof (nzhead_no_leading_zero (Pos.to_uint p)) as Hh.
  unfold unorm in H.
  destruct (nzhead (Pos.to_uint p)); rewrite H; auto.
Qed.

Lemma string_of_N_head n :
  exists c s, string_of_N n = String c s /\ is_digit c = true
              /\ (Ascii.eqb c "0" = false \/ s = EmptyString).
Proof.
  destruct n as [|p].
  - exists "0"%char, EmptyString. repeat split. right. reflexivity.
  - unfold string_of_N. simpl. pose proof (to_uint_head p) as H.
    destruct (Pos.to_uint p); try contradiction; simpl; eexists _, _;
      (split; [reflexivity | split; [reflexivity | left; reflexivity]]).
Qed.

Lemma int_digits_string_of_N n : int_digits (string_of_N n).
Proof.
  split; [apply all_digits_string_of_N|].
  destruct (string_of_N_head n) as (c & s & -> & _ & H). exact H.
Qed.

Lemma int_digits_single c : is_digit c = true -> int_digits (String c EmptyString).
Proof. intros H. split; [simpl; rewrite H; reflexivity | right; reflexivity]. Qed.

Lemma parse_int_digits ds rest :
  int_digits ds -> no_digit_head rest ->
  parse_int (ds +:+ rest) = Some (ds, rest).
Proof.
  intros [Hd Hh] Hr. unfold parse_int. rewrite span_digits_app by assumption.
  destruct ds as [|c more]; [contradiction|].
  destruct Hh as [-> | ->]; [reflexivity|].
  rewrite andb_false_r. reflexivity.
Qed.

Lemma parse_frac_none rest :
  match rest with String c _ => Ascii.eqb c "." = false | EmptyString => True end ->
  parse_frac rest = Some (EmptyString, rest).
Proof. destruct rest as [|c rest]; simpl; [reflexivity|]. intros ->. reflexivity. Qed.

Lemma parse_frac_digits ds rest :
  all_digits ds = true -> ds <> EmptyString -> no_digit_head rest ->
  parse_frac (String "." (ds +:+ rest)) = Some (ds, rest).
Proof.
  intros Hd Hne Hr. unfold parse_frac. cbn [Ascii.eqb Bool.eqb].
  rewrite span_digits_app by assumption.
  destruct ds; [congruence | reflexivity].
Qed.

Lemma parse_exp_none rest :
  match rest with
  | String c _ => Ascii.eqb c "e" = false /\ Ascii.eqb c "E" = false
  | EmptyString => True
  end ->
  parse_exp rest = Some (0%Z, rest).
Proof.
  destruct rest as [|c rest]; simpl; [reflexivity|]. intros [-> ->]. reflexivity.
Qed.

Lemma string_of_N_not_empty n : string_of_N n <> EmptyString.
Proof. destruct (string_of_N_head n) as (c & s & -> & _). discriminate. Qed.

Lemma parse_exp_text e rest :
  no_digit_head rest -> parse_exp (exponent_text e +:+ rest) = Some (e, rest).
Proof.
  intros Hr. unfold exponent_text, parse_exp. cbn [String.append Ascii.eqb Bool.eqb orb].
  destruct (Z.leb_spec 0 e) as [He|He]; cbn [Ascii.eqb Bool.eqb];
    rewrite span_digits_app by (try apply all_digits_string_of_N; assumption);
    destruct (string_of_N (Z.abs_N e)) eqn:Hs;
    try (exfalso; exact (string_of_N_not_empty _ Hs));
    cbn [String.eqb]; rewrite <- Hs, digits_value_string_of_N; do 2 f_equal; lia.
Qed.

(** The reading of a numeral without its sign. *)
Lemma parse_numeral_parts ip fp e rest :
  int_digits ip -> all_digits fp = true -> ends_numeral e rest ->
  ('(ip', r1) ← parse_int (numeral ip fp e +:+ rest);
   '(fp', r2) ← parse_frac r1;
   '(e', r3) ← parse_exp r2;
   Some (ip', fp', e', r3))
  = Some (ip, fp, default 0%Z e, rest).
Proof.
  intros Hip Hfp Hr. unfold numeral. rewrite !append_assoc.
  assert (Hexp : parse_exp ((match e with
                             | Some e => exponent_text e
                             | None => EmptyString
                             end) +:+ rest)
                 = Some (default 0%Z e, rest)).
  { destruct e as [e|]; cbn [ends_numeral] in Hr; [apply parse_exp_text, Hr|].
    cbn [String.append]. apply parse_exp_none.
    destruct rest; [exact I | destruct Hr as (_ & _ & ? & ?); auto]. }
  assert (Hhead : no_digit_head ((match e with
                                  | Some e => exponent_text e
                                  | None => EmptyString
                                  end) +:+ rest)).
  { destruct e as [e|]; [reflexivity|]. cbn [String.append].
    destruct rest; [exact I | destruct Hr as (? & _); auto]. }
  destruct fp as [|c fp].
  - cbn [String.append].
    rewrite parse_int_digits by assumption. cbn [mbind option_bind].
    rewrite parse_frac_none.
    + cbn [mbind option_bind]. rewrite Hexp. reflexivity.
    + destruct e as [e|]; [reflexivity|]. cbn [String.append].
      destruct rest; [exact I | destruct Hr as (_ & ? & _); auto].
  - cbn [String.append].
    rewrite parse_int_digits by (assumption || reflexivity).
    cbn [mbind option_bind].
    change (String "." (String c (fp +:+ ?x)))
      with (String "." (String c fp +:+ x)).
    rewrite parse_frac_digits by (assumption || discriminate).
    cbn [mbind option_bind]. rewrite Hexp. reflexivity.
Qed.

Lemma numeral_head ip fp e :
  int_digits ip ->
  exists c s, numeral ip fp e = String c s /\ is_digit c = true.
Proof.
  intros [Hd Hh]. destruct ip as [|c ip]; [contradiction|].
  simpl in Hd. apply andb_true_iff in Hd as [Hc _].
  unfold numeral. cbn [String.append]. eauto.
Qed.

Lemma digit_not_minus c : is_digit c = true -> Ascii.eqb c "-" = false.
Proof.
  intros H. destruct (Ascii.eqb_spec c "-") as [->|]; [discriminate H | reflexivity].
Qed.

(** The reading of a numeral, with a minus sign or without. *)
Lemma parse_numeral (negative : bool) ip fp e rest :
  int_digits ip -> all_digits fp = true -> ends_numeral e rest ->
  parse_number ((if negative then String "-" (numeral ip fp e)
                 else numeral ip fp e) +:+ rest)
  = Some (JNumber (numeral_value negative (ip +:+ fp)
                     (default 0%Z e - Z.of_nat (String.length fp))), rest).
Proof.
  intros Hip Hfp Hr.
  pose proof (parse_numeral_parts ip fp e rest Hip Hfp Hr) as H.
  destruct (numeral_head ip fp e Hip) as (c & s & Hs & Hc).
  unfold parse_number. destruct negative.
  - cbn [String.append Ascii.eqb Bool.eqb].
    destruct (parse_int _) as [[ip' r1]|]; [|discriminate H].
    cbn [mbind option_bind] in H |- *.
    destruct (parse_frac r1) as [[fp' r2]|]; [|discriminate H].
    cbn [mbind option_bind] in H |- *.
    destruct (parse_exp r2) as [[e' r3]|]; [|discriminate H].
    cbn [mbind option_bind] in H |- *. injection H as -> -> -> ->. reflexivity.
  - rewrite Hs in H |- *. cbn [String.append] in H |- *.
    rewrite (digit_not_minus c Hc).
    destruct (parse_int _) as [[ip' r1]|]; [|discriminate H].
    cbn [mbind option_bind] in H |- *.
    destruct (parse_frac r1) as [[fp' r2]|]; [|discriminate H].
    cbn [mbind option_bind] in H |- *.
    destruct (parse_exp r2) as [[e' r3]|]; [|discriminate H].
    cbn [mbind option_bind] in H |- *. injection H as -> -> -> ->. reflexivity.
Qed.

(** *** The numbers printed are read back *)

Lemma reduce_canonical m k :
  (m mod 10 =? 0)%Z = false -> reduce m (Pos.to_nat k) = Dec m k.
Proof.
  intros Hm. destruct (Pos2Nat.is_succ k) as [n Hn]. rewrite Hn.
  cbn [reduce]. rewrite Hm. f_equal. apply Pos2Nat.inj.
  rewrite SuccNat2Pos.id_succ. congruence.
Qed.

Lemma scaled_fraction m k :
  (m mod 10 =? 0)%Z = false -> scaled m (- Zpos k) = Dec m k.
Proof.
  intros Hm. unfold scaled. cbn [Z.opp Z.leb Z.compare Z.to_nat].
  apply reduce_canonical, Hm.
Qed.

Lemma string_take_drop n : forall s, string_take n s +:+ string_drop n s = s.
Proof.
  induction n as [|n IH]; intros [|c s]; simpl; try reflexivity.
  rewrite IH. reflexivity.
Qed.

Lemma string_drop_length n : forall s,
  String.length (string_drop n s) = String.length s - n.
Proof.
  induction n as [|n IH]; intros [|c s]; simpl; try reflexivity; try lia.
  apply IH.
Qed.

Lemma all_digits_take n : forall s,
  all_digits s = true -> all_digits (string_take n s) = true.
Proof.
  induction n as [|n IH]; intros [|c s]; simpl; try reflexivity.
  intros H. apply andb_true_iff in H as [-> H]. apply IH, H.
Qed.

Lemma all_digits_drop n : forall s,
  all_digits s = true -> all_digits (string_drop n s) = true.
Proof.
  induction n as [|n IH]; intros [|c s]; simpl; try reflexivity; try tauto.
  intros H. apply andb_true_iff in H as [_ H]. apply IH, H.
Qed.

Lemma int_digits_take n s :
  int_digits s -> 0 < n -> int_digits (string_take n s).
Proof.
  intros [Hd Hh] Hn. split; [apply all_digits_take, Hd|].
  destruct n as [|n]; [lia|]. destruct s as [|c s]; [contradiction|].
  cbn [string_take]. destruct Hh as [H | ->]; [left; exact H|].
  right. destruct n; reflexivity.
Qed.

Lemma scientific_numeral d r n :
  scientific (String d r) n = numeral (String d EmptyString) r (Some (n - 1)%Z).
Proof. destruct r; reflexivity. Qed.

Lemma ends_number_no_digit rest : ends_number rest -> no_digit_head rest.
Proof. destruct rest; [trivial | intros (H & _); exact H]. Qed.

Lemma prints_as_parse (negative : bool) text a scale rest :
  prints_as text a scale -> ends_number rest ->
  parse_number ((if negative then String "-" text else text) +:+ rest)
  = Some (JNumber (scaled (if negative then (- Z.of_N a)%Z else Z.of_N a) scale),
          rest).
Proof.
  intros (ip & fp & e & -> & Hip & Hfp & <- & <- & _) Hr.
  rewrite parse_numeral; [reflexivity | assumption | assumption |].
  destruct e; [apply ends_number_no_digit, Hr | exact Hr].
Qed.

Lemma fraction_text_prints a k :
  prints_as (fraction_text a k) a (- Zpos k).
Proof.
  unfold fraction_text.
  pose proof (int_digits_string_of_N a) as Hint.
  pose proof (digits_value_string_of_N a) as Hval.
  pose proof (string_of_N_not_empty a) as Hne.
  set (ds := string_of_N a) in *. cbv zeta.
  set (n := (Z.of_nat (String.length ds) - Zpos k)%Z).
  destruct ((0 <? n)%Z && (n <=? 21)%Z) eqn:H1.
  - apply andb_true_iff in H1 as [H1 _]. apply Z.ltb_lt in H1.
    exists (string_take (Z.to_nat n) ds), (string_drop (Z.to_nat n) ds), None.
    assert (Hlen : String.length (string_drop (Z.to_nat n) ds) = Pos.to_nat k).
    { rewrite string_drop_length. subst n. lia. }
    split.
    { unfold numeral. destruct (string_drop (Z.to_nat n) ds) eqn:Hd.
      - simpl in Hlen. lia.
      - rewrite append_empty_r. reflexivity. }
    split; [apply int_digits_take; [exact Hint | lia]|].
    split; [apply all_digits_drop, Hint|].
    split; [rewrite string_take_drop; exact Hval|].
    split; [rewrite Hlen; cbn [default from_option id]; lia|].
    right. right. intros E. rewrite E in Hlen. simpl in Hlen. lia.
  - destruct ((-6 <? n)%Z && (n <=? 0)%Z) eqn:H2.
    + apply andb_true_iff in H2 as [_ H2]. apply Z.leb_le in H2.
      exists "0", (zeros (Z.to_nat (- n)) +:+ ds), None.
      split.
      { unfold numeral. destruct (zeros (Z.to_nat (- n)) +:+ ds) eqn:Hd.
        - destruct (zeros _); [simpl in Hd; congruence | discriminate Hd].
        - rewrite append_empty_r. reflexivity. }
      split; [apply int_digits_single; reflexivity|].
      split; [rewrite all_digits_app, all_digits_zeros; apply Hint|].
      split.
      { change ("0" +:+ (zeros (Z.to_nat (- n)) +:+ ds))
          with (zeros (S (Z.to_nat (- n))) +:+ ds).
        unfold digits_value. rewrite digits_value_from_app, digits_value_zeros.
        exact Hval. }
      split.
      { rewrite length_append.
        assert (String.length (zeros (Z.to_nat (- n))) = Z.to_nat (- n)) as ->
          by (clear; induction (Z.to_nat (- n)); simpl; congruence).
        cbn [default from_option id]. subst n. lia. }
      right. right. destruct (zeros _); [simpl; exact Hne | discriminate].
    + destruct ds as [|d r] eqn:Hds; [congruence|].
      rewrite scientific_numeral.
      exists (String d EmptyString), r, (Some (n - 1)%Z).
      split; [reflexivity|].
      split.
      { apply int_digits_single. destruct Hint as [Hd _]. simpl in Hd.
        apply andb_true_iff in Hd. tauto. }
      split.
      { destruct Hint as [Hd _]. simpl in Hd. apply andb_true_iff in Hd. tauto. }
      split; [exact Hval|].
      split; [cbn [default from_option id]; subst n; simpl String.length; lia|].
      left. discriminate.
Qed.

Lemma factors_of_ten_divides fuel : forall a,
  (a / 10 ^ N.of_nat (factors_of_ten fuel a) * 10 ^ N.of_nat (factors_of_ten fuel a)
   = a)%N.
Proof.
  induction fuel as [|fuel IH]; intros a; cbn [factors_of_ten].
  - simpl. rewrite N.div_1_r. lia.
  - destruct ((a mod 10 =? 0)%N && negb (a =? 0)%N) eqn:H.
    + apply andb_true_iff in H as [H _]. apply N.eqb_eq in H.
      specialize (IH (a / 10)%N).
      rewrite Nat2N.inj_succ, N.pow_succ_r'.
      rewrite <- N.Div0.div_div.
      rewrite (N.mul_comm 10), N.mul_assoc, IH.
      pose proof (N.div_mod a 10 ltac:(discriminate)). lia.
    + simpl. rewrite N.div_1_r. lia.
Qed.

Lemma integer_text_prints a :
  exists scale, (0 <= scale)%Z
    /\ prints_as (integer_text a) (a / 10 ^ Z.to_N scale) scale
    /\ (a / 10 ^ Z.to_N scale * 10 ^ Z.to_N scale = a)%N.
Proof.
  unfold integer_text. destruct (a <? 10 ^ 21)%N.
  - exists 0%Z. split; [lia|]. simpl Z.to_N. rewrite N.pow_0_r, N.div_1_r.
    split; [|lia].
    exists (string_of_N a), EmptyString, None.
    split; [unfold numeral; rewrite !append_empty_r; reflexivity|].
    split; [apply int_digits_string_of_N|]. split; [reflexivity|].
    split; [rewrite append_empty_r; apply digits_value_string_of_N|].
    split; [reflexivity|]. right. left. reflexivity.
  - cbv zeta.
    set (t := factors_of_ten (String.length (string_of_N a)) a).
    pose proof (factors_of_ten_divides (String.length (string_of_N a)) a) as Hdiv.
    fold t in Hdiv.
    exists (Z.of_nat t). split; [lia|].
    replace (Z.to_N (Z.of_nat t)) with (N.of_nat t) by lia.
    split; [|exact Hdiv].
    set (s := (a / 10 ^ N.of_nat t)%N) in *.
    pose proof (int_digits_string_of_N s) as Hint.
    pose proof (digits_value_string_of_N s) as Hval.
    destruct (string_of_N s) as [|d r] eqn:Hds;
      [exfalso; exact (string_of_N_not_empty _ Hds)|].
    rewrite scientific_numeral.
    exists (String d EmptyString), r, (Some (Z.of_nat (String.length (String d r) + t) - 1)%Z).
    split; [reflexivity|].
    destruct Hint as [Hd _]. simpl in Hd. apply andb_true_iff in Hd as [Hd1 Hd2].
    split; [apply int_digits_single, Hd1|].
    split; [exact Hd2|]. split; [exact Hval|].
    split; [cbn [default from_option id String.length]; lia|].
    left. discriminate.
Qed.

Lemma scaled_integer m a scale :
  (0 <= scale)%Z -> (a / 10 ^ Z.to_N scale * 10 ^ Z.to_N scale = a)%N ->
  (m = Z.of_N (a / 10 ^ Z.to_N scale) \/ m = - Z.of_N (a / 10 ^ Z.to_N scale))%Z ->
  scaled m scale
  = Int (if (m <? 0)%Z then - Z.of_N a else Z.of_N a).
Proof.
  intros Hs Hdiv Hm. unfold scaled.
  rewrite (proj2 (Z.leb_le 0 scale) Hs). f_equal.
  assert (Hpow : (Z.of_N (a / 10 ^ Z.to_N scale) * 10 ^ scale = Z.of_N a)%Z).
  { rewrite <- Hdiv at 2. rewrite N2Z.inj_mul, N2Z.inj_pow.
    rewrite Z2N.id by exact Hs. reflexivity. }
  assert (Hnn : (0 <= Z.of_N (a / 10 ^ Z.to_N scale))%Z) by lia.
  destruct Hm as [-> | ->].
  - rewrite Hpow. destruct (Z.ltb_spec (Z.of_N (a / 10 ^ Z.to_N scale)) 0);
      [lia | reflexivity].
  - rewrite Z.mul_opp_l, Hpow.
    destruct (Z.ltb_spec (- Z.of_N (a / 10 ^ Z.to_N scale)) 0); [reflexivity|].
    assert (Z.of_N (a / 10 ^ Z.to_N scale) = 0%Z) as E by lia.
    rewrite E in Hpow. lia.
Qed.

Lemma prints_as_positive text a scale rest :
  prints_as text a scale -> ends_number rest ->
  parse_number (text +:+ rest) = Some (JNumber (scaled (Z.of_N a) scale), rest).
Proof. apply (prints_as_parse false). Qed.

Lemma prints_as_negative text a scale rest :
  prints_as text a scale -> ends_number rest ->
  parse_number (String "-" text +:+ rest)
  = Some (JNumber (scaled (- Z.of_N a) scale), rest).
Proof. apply (prints_as_parse true). Qed.

(** A number that is finite and in its one form, printed, is read back. *)
Lemma parse_number_text n rest :
  number_wf n = true -> ends_number rest ->
  parse_number (number_text n +:+ rest) = Some (JNumber n, rest).
Proof.
  intros Hwf Hr. destruct n as [z|m k| |s]; try discriminate Hwf.
  - destruct z as [|p|p]; cbn [number_text string_of_Z].
    + apply (prints_as_positive "0" 0 0 rest); [|exact Hr].
      exists "0", EmptyString, None. repeat split; auto.
    + destruct (integer_text_prints (Npos p)) as (scale & Hs & Hp & Hdiv).
      rewrite (prints_as_positive _ _ _ rest Hp Hr).
      rewrite (scaled_integer _ (Npos p) scale Hs Hdiv) by (left; reflexivity).
      destruct (Z.ltb_spec (Z.of_N (N.pos p / 10 ^ Z.to_N scale)) 0); [lia|].
      reflexivity.
    + destruct (integer_text_prints (Npos p)) as (scale & Hs & Hp & Hdiv).
      rewrite (prints_as_negative _ _ _ rest Hp Hr).
      rewrite (scaled_integer _ (Npos p) scale Hs Hdiv) by (right; reflexivity).
      destruct (Z.ltb_spec (- Z.of_N (N.pos p / 10 ^ Z.to_N scale)) 0);
        [reflexivity|].
      assert ((N.pos p / 10 ^ Z.to_N scale = 0)%N) as E by lia.
      rewrite E in Hdiv. lia.
  - cbn [number_wf] in Hwf. apply negb_true_iff in Hwf.
    cbn [number_text].
    pose proof (fraction_text_prints (Z.abs_N m) k) as Hp.
    destruct (Z.ltb_spec m 0) as [Hneg|Hpos].
    + rewrite (prints_as_negative _ _ _ rest Hp Hr).
      replace (- Z.of_N (Z.abs_N m))%Z with m by lia.
      rewrite scaled_fraction by exact Hwf. reflexivity.
    + rewrite (prints_as_positive _ _ _ rest Hp Hr).
      replace (Z.of_N (Z.abs_N m))%Z with m by lia.
      rewrite scaled_fraction by exact Hwf. reflexivity.
Qed.

(** A value that starts with a digit or a minus sign is read as a number. *)
Lemma parse_value_number fuel c r :
  is_digit c = true \/ c = "-"%char ->
  parse_value (S fuel) (String c r) = parse_number (String c r).
Proof.
  intros [H | ->]; [|reflexivity].
  destruct c as [[] [] [] [] [] [] [] []]; try discriminate H; reflexivity.
Qed.

Lemma prints_as_head text a scale :
  prints_as text a scale -> exists c s, text = String c s /\ is_digit c = true.
Proof. intros (ip & fp & e & -> & Hip & _). apply numeral_head, Hip. Qed.

Lemma string_of_Z_head z :
  exists c s, string_of_Z z = String c s /\ (is_digit c = true \/ c = "-"%char).
Proof.
  destruct z as [|p|p]; simpl.
  - eexists _, _. split; [reflexivity | left; reflexivity].
  - destruct (integer_text_prints (Npos p)) as (scale & _ & Hp & _).
    destruct (prints_as_head _ _ _ Hp) as (c & s & Hs & Hc). eauto.
  - eexists _, _. split; [reflexivity | right; reflexivity].
Qed.

Lemma number_text_head n :
  exists c s, number_text n = String c s
              /\ (number_wf n = true -> is_digit c = true \/ c = "-"%char).
Proof.
  destruct n as [z|m k| |[]]; cbn [number_text number_wf];
    try (eexists _, _; split; [reflexivity | discriminate]).
  - destruct (string_of_Z_head z) as (c & s & Hs & Hc). eauto.
  - destruct (prints_as_head _ _ _ (fraction_text_prints (Z.abs_N m) k))
      as (c & s & Hs & Hc).
    destruct (m <? 0)%Z; [|rewrite Hs; eauto].
    eexists _, _. split; [reflexivity | right; reflexivity].
Qed.

(** *** Values *)

(** Induction on a value, with the hypothesis for every element of an
    array and every member of an object. *)
Lemma json_induction (P : json -> Prop) :
  P JNull ->
  (forall b, P (JBool b)) ->
  (forall n, P (JNumber n)) ->
  (forall s, P (JStr s)) ->
  (forall vs, Forall P vs -> P (JArr vs)) ->
  (forall ms, Forall (fun m => P (snd m)) ms -> P (JObj ms)) ->
  forall v, P v.
Proof.
  intros Hnull Hbool Hnum Hstr Harr Hobj.
  fix IH 1. intros [|b|n|s|vs|ms].
  - exact Hnull.
  - apply Hbool.
  - apply Hnum.
  - apply Hstr.
  - apply Harr. induction vs as [|x vs IHvs]; constructor; [apply IH | exact IHvs].
  - apply Hobj. induction ms as [|m ms IHms]; constructor; [apply IH | exact IHms].
Qed.

(** What a printed value starts with is no white space, and closes
    neither an array nor an object. *)
Definition opens_value (c : ascii) : Prop :=
  is_json_ws c = false /\ Ascii.eqb c "]" = false /\ Ascii.eqb c "}" = false.

Lemma digit_opens_value c : is_digit c = true \/ c = "-"%char -> opens_value c.
Proof.
  intros [H | ->]; [|repeat split].
  destruct c as [[] [] [] [] [] [] [] []]; try discriminate H; repeat split.
Qed.

Lemma stringify_head v :
  exists c s, JSON_stringify v = String c s /\ opens_value c.
Proof.
  destruct v as [|[]|n|s|[|x vs]|[|m ms]];
    try (eexists _, _; split; [reflexivity | repeat split]).
  destruct n as [z|m k| |negative];
    try (eexists _, _; split; [reflexivity | repeat split]).
  - destruct (number_text_head (Int z)) as (c & s & Hs & Hc).
    exists c, s. split; [exact Hs | apply digit_opens_value, Hc; reflexivity].
  - destruct (number_text_head (Dec m k)) as (c & s & Hs & Hc).
    exists c, s. split; [exact Hs|].
    destruct (number_wf (Dec m k)) eqn:Hwf;
      [apply digit_opens_value, Hc; reflexivity|].
    cbn [number_text] in Hs.
    destruct (prints_as_head _ _ _ (fraction_text_prints (Z.abs_N m) k))
      as (c' & s' & Hs' & Hc').
    destruct (m <? 0)%Z.
    + injection Hs as <- _. repeat split.
    + rewrite Hs' in Hs. injection Hs as <- _.
      apply digit_opens_value. left. exact Hc'.
Qed.

Lemma skip_ws_head c s : is_json_ws c = false -> skip_ws (String c s) = String c s.
Proof. intros H. simpl. rewrite H. reflexivity. Qed.

Lemma parse_value_array fuel r :
  parse_value (S fuel) (String "[" r)
  = match skip_ws r with
    | String c' r' =>
        if Ascii.eqb c' "]" then Some (JArr [], r')
        else
          '(v, r1) ← parse_value fuel r;
          '(vs, r2) ← parse_elements fuel r1;
          Some (JArr (v :: vs), r2)
    | EmptyString => None
    end.
Proof. reflexivity. Qed.

Lemma parse_value_object fuel r :
  parse_value (S fuel) (String "{" r)
  = match skip_ws r with
    | String c' r' =>
        if Ascii.eqb c' "}" then Some (JObj [], r')
        else
          '(m, r1) ← parse_member (parse_value fuel) r;
          '(ms, r2) ← parse_members fuel r1;
          Some (JObj (obj_of_members (m :: ms)), r2)
    | EmptyString => None
    end.
Proof. reflexivity. Qed.

Lemma parse_value_string fuel r :
  parse_value (S fuel) (String dquote r)
  = '(str, r') ← parse_string r; Some (JStr str, r').
Proof. reflexivity. Qed.

Lemma parse_elements_comma fuel r :
  parse_elements (S fuel) (String "," r)
  = '(v, r1) ← parse_value fuel r;
    '(vs, r2) ← parse_elements fuel r1;
    Some (v :: vs, r2).
Proof. reflexivity. Qed.

Lemma parse_members_comma fuel r :
  parse_members (S fuel) (String "," r)
  = '(m, r1) ← parse_member (parse_value fuel) r;
    '(ms, r2) ← parse_members fuel r1;
    Some (m :: ms, r2).
Proof. reflexivity. Qed.

Lemma ends_number_elements f vs rest :
  ends_number (elements_text f vs +:+ rest).
Proof. destruct vs; repeat split. Qed.

Lemma ends_number_members f ms rest :
  ends_number (members_text f ms +:+ rest).
Proof. destruct ms; repeat split. Qed.

Lemma parse_elements_text vs :
  Forall reads_back vs ->
  forall fuel rest,
    fold_right (fun e n => S (size e + n)) 1 vs <= fuel ->
    parse_elements fuel (elements_text JSON_stringify vs +:+ rest)
    = Some (vs, rest).
Proof.
  induction 1 as [|x vs Hx Hvs IH]; intros fuel rest Hf.
  - destruct fuel as [|fuel]; [simpl in Hf; lia | reflexivity].
  - destruct fuel as [|fuel]; [simpl in Hf; lia|].
    cbn [fold_right] in Hf.
    change (elements_text JSON_stringify (x :: vs) +:+ rest)
      with (String "," ((JSON_stringify x +:+ elements_text JSON_stringify vs)
                        +:+ rest)).
    rewrite append_assoc, parse_elements_comma.
    rewrite Hx by (try apply ends_number_elements; lia). simpl.
    rewrite IH by lia. reflexivity.
Qed.

Lemma parse_member_text fuel k v rest :
  reads_back v -> size v <= fuel -> ends_number rest ->
  parse_member (parse_value fuel) (member_text JSON_stringify (k, v) +:+ rest)
  = Some ((k, v), rest).
Proof.
  intros Hv Hf Hr. unfold member_text, parse_member. cbn [fst snd].
  rewrite append_assoc, quote_unfold.
  rewrite skip_ws_head by reflexivity.
  change (Ascii.eqb dquote dquote) with true. cbv iota.
  rewrite parse_string_quote_body. simpl.
  rewrite Hv by assumption. reflexivity.
Qed.

Lemma parse_members_text ms :
  Forall (fun m => reads_back (snd m)) ms ->
  forall fuel rest,
    fold_right (fun e n => S (size (snd e) + n)) 1 ms <= fuel ->
    parse_members fuel (members_text JSON_stringify ms +:+ rest)
    = Some (ms, rest).
Proof.
  induction 1 as [|[k v] ms Hm Hms IH]; intros fuel rest Hf.
  - destruct fuel as [|fuel]; [simpl in Hf; lia | reflexivity].
  - destruct fuel as [|fuel]; [simpl in Hf; lia|].
    cbn [fold_right snd] in Hf.
    change (members_text JSON_stringify ((k, v) :: ms) +:+ rest)
      with (String "," ((member_text JSON_stringify (k, v)
                         +:+ members_text JSON_stringify ms) +:+ rest)).
    rewrite append_assoc, parse_members_comma.
    rewrite parse_member_text by (try apply ends_number_members; simpl in *; auto; lia).
    simpl. rewrite IH by lia. reflexivity.
Qed.

(** *** Objects keep their members *)

Lemma set_prop_fresh k v (o : obj) :
  k ∉ map fst o -> set_prop k v o = o ++ [(k, v)].
Proof.
  induction o as [|[k' v'] o IH]; simpl; intros Hk; [reflexivity|].
  destruct (String.eqb_spec k k') as [->|Hne].
  - exfalso. apply Hk. left.
  - rewrite IH; [reflexivity|]. intros Hin. apply Hk. right. exact Hin.
Qed.

Lemma fold_set_prop_nodup (ms acc : obj) :
  NoDup (map fst (acc ++ ms)) ->
  fold_left (fun o m => set_prop (fst m) (snd m) o) ms acc = acc ++ ms.
Proof.
  revert acc. induction ms as [|[k v] ms IH]; intros acc Hnd; simpl.
  - symmetry. apply app_nil_r.
  - rewrite set_prop_fresh.
    + rewrite IH; rewrite <- app_assoc; [reflexivity | exact Hnd].
    + rewrite map_app in Hnd. apply NoDup_app in Hnd as (_ & Hd & _).
      intros Hin. apply (Hd k Hin). left.
Qed.

Lemma obj_of_members_nodup (ms : obj) :
  NoDup (map fst ms) -> obj_of_members ms = ms.
Proof. intros H. unfold obj_of_members. apply (fold_set_prop_nodup ms []). exact H. Qed.

Lemma json_wf_array vs : json_wf (JArr vs) = true -> Forall (fun v => json_wf v = true) vs.
Proof.
  simpl. intros H. apply Forall_forall. intros v Hv.
  rewrite forallb_forall in H. apply H. apply list_elem_of_In, Hv.
Qed.

Lemma json_wf_object ms :
  json_wf (JObj ms) = true ->
  NoDup (map fst ms) /\ Forall (fun m => json_wf (snd m) = true) ms.
Proof.
  simpl. intros H. apply andb_true_iff in H as [Hk Hm].
  apply bool_decide_eq_true in Hk. split; [exact Hk|].
  apply Forall_forall. intros m Hin.
  rewrite forallb_forall in Hm. apply Hm. apply list_elem_of_In, Hin.
Qed.

(** A well-formed value, printed, is read back as itself. *)
Lemma stringify_reads_back v : json_wf v = true -> reads_back v.
Proof.
  induction v as [|b|n|s|vs IH|ms IH] using json_induction;
    intros Hwf fuel rest Hf Hr;
    (destruct fuel as [|fuel];
     [destruct vs as [|? ?] || destruct ms as [|? ?] || idtac; simpl in Hf; lia|]).
  - reflexivity.
  - destruct b; reflexivity.
  - cbn [json_wf] in Hwf.
    destruct (number_text_head n) as (c & s & Hs & Hc).
    assert (Hstr : JSON_stringify (JNumber n) = number_text n)
      by (destruct n as [| | |[]]; try discriminate Hwf; reflexivity).
    rewrite Hstr, Hs. cbn [String.append].
    rewrite parse_value_number by exact (Hc Hwf).
    change (String c (s +:+ rest)) with (String c s +:+ rest).
    rewrite <- Hs. apply parse_number_text; assumption.
  - cbn [JSON_stringify]. rewrite quote_unfold, parse_value_string.
    rewrite parse_string_quote_body. reflexivity.
  - destruct vs as [|x vs]; [reflexivity|].
    apply json_wf_array in Hwf.
    inversion IH as [|? ? IHx IHvs]; subst. inversion Hwf as [|? ? Hx Hvs]; subst.
    change (size (JArr (x :: vs)))
      with (S (size x + fold_right (fun e n => S (size e + n)) 1 vs)) in Hf.
    change (JSON_stringify (JArr (x :: vs)) +:+ rest)
      with (String "[" ((JSON_stringify x +:+ elements_text JSON_stringify vs)
                        +:+ rest)).
    rewrite append_assoc, parse_value_array.
    destruct (stringify_head x) as (c & s & Hs & Hws & Hc & _).
    rewrite Hs at 1. cbn [String.append]. rewrite skip_ws_head, Hc by exact Hws.
    rewrite (IHx Hx) by (try apply ends_number_elements; lia). simpl.
    rewrite parse_elements_text; [reflexivity| |lia].
    eapply Forall_impl; [|intros v Hv; exact Hv].
    clear -IHvs Hvs. induction IHvs; inversion Hvs; subst; constructor; auto.
  - destruct ms as [|[k x] ms]; [reflexivity|].
    apply json_wf_object in Hwf as [Hnd Hwf].
    inversion IH as [|? ? IHx IHms]; subst. inversion Hwf as [|? ? Hx Hms]; subst.
    cbn [snd] in IHx, Hx.
    change (size (JObj ((k, x) :: ms)))
      with (S (size x + fold_right (fun e n => S (size (snd e) + n)) 1 ms)) in Hf.
    change (JSON_stringify (JObj ((k, x) :: ms)) +:+ rest)
      with (String "{" ((member_text JSON_stringify (k, x)
                         +:+ members_text JSON_stringify ms) +:+ rest)).
    rewrite append_assoc, parse_value_object.
    set (r := member_text JSON_stringify (k, x)
              +:+ members_text JSON_stringify ms +:+ rest).
    assert (Hsk : exists s, skip_ws r = String dquote s).
    { subst r. unfold member_text. cbn [fst snd].
      rewrite append_assoc, quote_unfold. eexists. apply skip_ws_head. reflexivity. }
    destruct Hsk as [s0 ->]. change (Ascii.eqb dquote "}") with false. cbv iota.
    subst r.
    rewrite parse_member_text by (try apply ends_number_members; auto; lia).
    simpl.
    rewrite parse_members_text; [|
      clear -IHms Hms; induction IHms; inversion Hms; subst; constructor; auto
      | lia].
    simpl. rewrite (obj_of_members_nodup ((k, x) :: ms)) by exact Hnd.
    reflexivity.
Qed.

Lemma elements_text_cons f x l :
  elements_text f (x :: l) = String "," (f x +:+ elements_text f l).
Proof. reflexivity. Qed.

Lemma members_text_cons f m l :
  members_text f (m :: l) = String "," (member_text f m +:+ members_text f l).
Proof. reflexivity. Qed.

(** The fuel [JSON_parse] takes is enough for a printed value. *)
Lemma size_le_length v : size v <= String.length (JSON_stringify v).
Proof.
  induction v as [|b|n|s|vs IH|ms IH] using json_induction.
  - simpl. lia.
  - destruct b; simpl; lia.
  - destruct (stringify_head (JNumber n)) as (c & s & Hs & _).
    rewrite Hs. simpl. lia.
  - simpl. lia.
  - destruct vs as [|x vs]; [simpl; lia|].
    inversion IH as [|? ? IHx IHvs]; subst.
    change (size (JArr (x :: vs)))
      with (S (size x + fold_right (fun e n => S (size e + n)) 1 vs)).
    change (JSON_stringify (JArr (x :: vs)))
      with (String "[" (JSON_stringify x +:+ elements_text JSON_stringify vs)).
    cbn [String.length]. rewrite length_append.
    enough (fold_right (fun e n => S (size e + n)) 1 vs
            <= String.length (elements_text JSON_stringify vs)) by lia.
    clear -IHvs. induction IHvs as [|y vs Hy Hvs IHl]; [simpl; lia|].
    rewrite elements_text_cons. cbn [fold_right String.length].
    rewrite length_append. lia.
  - destruct ms as [|[k x] ms]; [simpl; lia|].
    inversion IH as [|? ? IHx IHms]; subst. cbn [snd] in IHx.
    change (size (JObj ((k, x) :: ms)))
      with (S (size x + fold_right (fun e n => S (size (snd e) + n)) 1 ms)).
    change (JSON_stringify (JObj ((k, x) :: ms)))
      with (String "{" (member_text JSON_stringify (k, x)
                        +:+ members_text JSON_stringify ms)).
    cbn [String.length]. rewrite length_append.
    unfold member_text at 1. cbn [fst snd]. rewrite length_append.
    cbn [String.length].
    enough (fold_right (fun e n => S (size (snd e) + n)) 1 ms
            <= String.length (members_text JSON_stringify ms)) by lia.
    clear -IHms. induction IHms as [|[k' y] ms Hy Hms IHl]; [simpl; lia|].
    rewrite members_text_cons. cbn [fold_right String.length].
    rewrite length_append. unfold member_text at 1. cbn [fst snd] in *.
    rewrite length_append. cbn [String.length]. lia.
Qed.

(** [JSON.parse(JSON.stringify(v))] is [v], for every value whose objects
    have distinct property names. *)
Lemma JSON_parse_stringify v :
  json_wf v = true -> JSON_parse (JSON_stringify v) = Some v.
Proof.
  intros Hwf. unfold JSON_parse.
  pose proof (stringify_reads_back v Hwf
                (S (String.length (JSON_stringify v))) EmptyString) as H.
  rewrite append_empty_r in H. rewrite H.
  - reflexivity.
  - pose proof (size_le_length v). lia.
  - exact I.
Qed.

(** *** What [JSON.parse] returns is well formed *)

Lemma json_wf_JObj (o : obj) :
  NoDup (map fst o) -> Forall (fun m => json_wf (snd m) = true) o ->
  json_wf (JObj o) = true.
Proof.
  intros Hnd Hf. simpl. apply andb_true_iff. split.
  - apply bool_decide_eq_true. exact Hnd.
  - apply forallb_forall. intros m Hm.
    rewrite Forall_forall in Hf. apply Hf. apply list_elem_of_In, Hm.
Qed.

Lemma json_wf_JArr vs :
  Forall (fun v => json_wf v = true) vs -> json_wf (JArr vs) = true.
Proof.
  intros Hf. simpl. apply forallb_forall. intros v Hv.
  rewrite Forall_forall in Hf. apply Hf. apply list_elem_of_In, Hv.
Qed.

Lemma set_prop_keys k v (o : obj) x :
  x ∈ map fst (set_prop k v o) -> x = k \/ x ∈ map fst o.
Proof.
  induction o as [|[k' v'] o IH]; simpl.
  - intros H. apply list_elem_of_singleton in H. auto.
  - destruct (String.eqb_spec k k') as [->|Hne]; simpl; intros H.
    + right. exact H.
    + apply elem_of_cons in H as [->|H].
      * right. left.
      * destruct (IH H) as [->|Hin]; [left; reflexivity | right; right; exact Hin].
Qed.

Lemma set_prop_NoDup k v (o : obj) :
  NoDup (map fst o) -> NoDup (map fst (set_prop k v o)).
Proof.
  induction o as [|[k' v'] o IH]; simpl; intros Hnd.
  - repeat constructor. intros H. inversion H.
  - apply NoDup_cons in Hnd as [Hk' Hnd].
    destruct (String.eqb_spec k k') as [->|Hne]; simpl.
    + apply NoDup_cons. auto.
    + apply NoDup_cons. split; [|auto].
      intros Hin. apply set_prop_keys in Hin as [->|Hin]; [congruence | auto].
Qed.

Lemma set_prop_wf k v (o : obj) :
  json_wf v = true ->
  Forall (fun m => json_wf (snd m) = true) o ->
  Forall (fun m => json_wf (snd m) = true) (set_prop k v o).
Proof.
  intros Hv. induction 1 as [|[k' v'] o Hm Ho IH]; simpl.
  - repeat constructor. exact Hv.
  - destruct (String.eqb k k'); constructor; auto.
Qed.

Lemma obj_of_members_wf (ms : obj) :
  Forall (fun m => json_wf (snd m) = true) ms ->
  json_wf (JObj (obj_of_members ms)) = true.
Proof.
  intros Hms. unfold obj_of_members.
  assert (H : forall acc : obj,
             NoDup (map fst acc) ->
             Forall (fun m => json_wf (snd m) = true) acc ->
             let o := fold_left (fun o m => set_prop (fst m) (snd m) o) ms acc in
             NoDup (map fst o) /\ Forall (fun m => json_wf (snd m) = true) o).
  { induction Hms as [|m ms Hm Hms IH]; intros acc Hnd Hacc; simpl.
    - auto.
    - apply IH; [apply set_prop_NoDup | apply set_prop_wf]; assumption. }
  destruct (H [] (NoDup_nil_2) (Forall_nil_2 _)) as [Hnd Hf].
  apply json_wf_JObj; assumption.
Qed.

Lemma reduce_wf k : forall m, number_wf (reduce m k) = true.
Proof.
  induction k as [|k IH]; intros m; cbn [reduce]; [reflexivity|].
  destruct (m mod 10 =? 0)%Z eqn:E; [apply IH|].
  cbn [number_wf]. rewrite E. reflexivity.
Qed.

Lemma scaled_wf m e : number_wf (scaled m e) = true.
Proof. unfold scaled. destruct (0 <=? e)%Z; [reflexivity | apply reduce_wf]. Qed.

(** The parts of a numeral, as [parse_number] reads them. *)
Lemma parse_number_parts s v r :
  parse_number s = Some (v, r) ->
  exists negative s1 ip r1 fp r2 e,
    (s = String "-" s1 /\ negative = true \/ s = s1 /\ negative = false)
    /\ parse_int s1 = Some (ip, r1)
    /\ parse_frac r1 = Some (fp, r2)
    /\ parse_exp r2 = Some (e, r)
    /\ v = JNumber (numeral_value negative (ip +:+ fp)
                      (e - Z.of_nat (String.length fp))).
Proof.
  unfold parse_number.
  assert (H : exists negative s1,
             (s = String "-" s1 /\ negative = true \/ s = s1 /\ negative = false)
             /\ match s with
                | String c r0 => if Ascii.eqb c "-" then (true, r0) else (false, s)
                | EmptyString => (false, s)
                end = (negative, s1)).
  { destruct s as [|c s0]; [exists false, EmptyString; auto|].
    destruct (Ascii.eqb_spec c "-") as [->|_]; [exists true, s0 | exists false, (String c s0)];
      auto. }
  destruct H as (negative & s1 & Hs & ->).
  destruct (parse_int s1) as [[ip r1]|] eqn:H1; [|discriminate].
  cbn [mbind option_bind].
  destruct (parse_frac r1) as [[fp r2]|] eqn:H2; [|discriminate].
  cbn [mbind option_bind].
  destruct (parse_exp r2) as [[e r3]|] eqn:H3; [|discriminate].
  cbn [mbind option_bind]. intros [= <- <-].
  exists negative, s1, ip, r1, fp, r2, e. auto.
Qed.

Lemma parse_number_wf s v r : parse_number s = Some (v, r) -> json_wf v = true.
Proof.
  intros H. apply parse_number_parts in H
    as (negative & s1 & ip & r1 & fp & r2 & e & _ & _ & _ & _ & ->).
  apply scaled_wf.
Qed.

Lemma parse_member_wf (pv : string -> option (json * string)) s m r :
  (forall s v r, pv s = Some (v, r) -> json_wf v = true) ->
  parse_member pv s = Some (m, r) -> json_wf (snd m) = true.
Proof.
  intros Hpv. unfold parse_member.
  destruct (skip_ws s) as [|c s1]; [discriminate|].
  destruct (Ascii.eqb c dquote); [|discriminate].
  destruct (parse_string s1) as [[k r1]|]; simpl; [|discriminate].
  destruct (skip_ws r1) as [|c' r2]; [discriminate|].
  destruct (Ascii.eqb c' ":"); [|discriminate].
  destruct (pv r2) as [[v r3]|] eqn:Hv; simpl; [|discriminate].
  intros [= <- _]. simpl. eapply Hpv, Hv.
Qed.

Lemma parse_value_S fuel s :
  parse_value (S fuel) s
  = match skip_ws s with
    | EmptyString => None
    | String c r =>
        if Ascii.eqb c "n" then r' ← expect "ull" r; Some (JNull, r')
        else if Ascii.eqb c "t" then r' ← expect "rue" r; Some (JBool true, r')
        else if Ascii.eqb c "f" then r' ← expect "alse" r; Some (JBool false, r')
        else if Ascii.eqb c dquote then
          '(str, r') ← parse_string r; Some (JStr str, r')
        else if Ascii.eqb c "[" then
          match skip_ws r with
          | String c' r' =>
              if Ascii.eqb c' "]" then Some (JArr [], r')
              else
                '(v, r1) ← parse_value fuel r;
                '(vs, r2) ← parse_elements fuel r1;
                Some (JArr (v :: vs), r2)
          | EmptyString => None
          end
        else if Ascii.eqb c "{" then
          match skip_ws r with
          | String c' r' =>
              if Ascii.eqb c' "}" then Some (JObj [], r')
              else
                '(m, r1) ← parse_member (parse_value fuel) r;
                '(ms, r2) ← parse_members fuel r1;
                Some (JObj (obj_of_members (m :: ms)), r2)
          | EmptyString => None
          end
        else parse_number (String c r)
    end.
Proof. reflexivity. Qed.

Lemma parse_elements_S fuel s :
  parse_elements (S fuel) s
  = match skip_ws s with
    | String c r =>
        if Ascii.eqb c "," then
          '(v, r1) ← parse_value fuel r;
          '(vs, r2) ← parse_elements fuel r1;
          Some (v :: vs, r2)
        else if Ascii.eqb c "]" then Some ([], r)
        else None
    | EmptyString => None
    end.
Proof. reflexivity. Qed.

Lemma parse_members_S fuel s :
  parse_members (S fuel) s
  = match skip_ws s with
    | String c r =>
        if Ascii.eqb c "," then
          '(m, r1) ← parse_member (parse_value fuel) r;
          '(ms, r2) ← parse_members fuel r1;
          Some (m :: ms, r2)
        else if Ascii.eqb c "}" then Some ([], r)
        else None
    | EmptyString => None
    end.
Proof. reflexivity. Qed.

Lemma parse_wf fuel :
  (forall s v r, parse_value fuel s = Some (v, r) -> json_wf v = true)
  /\ (forall s vs r, parse_elements fuel s = Some (vs, r) ->
                     Forall (fun v => json_wf v = true) vs)
  /\ (forall s ms r, parse_members fuel s = Some (ms, r) ->
                     Forall (fun m => json_wf (snd m) = true) ms).
Proof.
  induction fuel as [|fuel (IHv & IHe & IHm)].
  - repeat split; intros; discriminate.
  - split; [|split].
    + intros s v r. rewrite parse_value_S.
      destruct (skip_ws s) as [|c s1]; [discriminate|].
      destruct (Ascii.eqb c "n").
      { destruct (expect _ _); simpl; intros [= <- _]; reflexivity. }
      destruct (Ascii.eqb c "t").
      { destruct (expect _ _); simpl; intros [= <- _]; reflexivity. }
      destruct (Ascii.eqb c "f").
      { destruct (expect _ _); simpl; intros [= <- _]; reflexivity. }
      destruct (Ascii.eqb c dquote).
      { destruct (parse_string _) as [[str r']|]; simpl; intros [= <- _];
          reflexivity. }
      destruct (Ascii.eqb c "[").
      { destruct (skip_ws s1) as [|c' r']; [discriminate|].
        destruct (Ascii.eqb c' "]"); [intros [= <- _]; reflexivity|].
        destruct (parse_value fuel s1) as [[x r1]|] eqn:Hx; simpl; [|discriminate].
        destruct (parse_elements fuel r1) as [[vs r2]|] eqn:Hvs; simpl;
          [|discriminate].
        intros [= <- _]. apply json_wf_JArr. constructor; eauto. }
      destruct (Ascii.eqb c "{").
      { destruct (skip_ws s1) as [|c' r']; [discriminate|].
        destruct (Ascii.eqb c' "}"); [intros [= <- _]; reflexivity|].
        destruct (parse_member (parse_value fuel) s1) as [[m r1]|] eqn:Hx; simpl;
          [|discriminate].
        destruct (parse_members fuel r1) as [[ms r2]|] eqn:Hms; simpl;
          [|discriminate].
        intros [= <- _]. apply obj_of_members_wf. constructor; eauto.
        eapply parse_member_wf; eauto. }
      apply parse_number_wf.
    + intros s vs r. rewrite parse_elements_S.
      destruct (skip_ws s) as [|c s1]; [discriminate|].
      destruct (Ascii.eqb c ",").
      * destruct (parse_value fuel s1) as [[x r1]|] eqn:Hx; simpl; [|discriminate].
        destruct (parse_elements fuel r1) as [[l r2]|] eqn:Hl; simpl;
          [|discriminate].
        intros [= <- _]. constructor; eauto.
      * destruct (Ascii.eqb c "]"); [|discriminate]. intros [= <- _]. constructor.
    + intros s ms r. rewrite parse_members_S.
      destruct (skip_ws s) as [|c s1]; [discriminate|].
      destruct (Ascii.eqb c ",").
      * destruct (parse_member (parse_value fuel) s1) as [[m r1]|] eqn:Hx; simpl;
          [|discriminate].
        destruct (parse_members fuel r1) as [[l r2]|] eqn:Hl; simpl;
          [|discriminate].
        intros [= <- _]. constructor; eauto. eapply parse_member_wf; eauto.
      * destruct (Ascii.eqb c "}"); [|discriminate]. intros [= <- _]. constructor.
Qed.

Lemma JSON_parse_wf s v : JSON_parse s = Some v -> json_wf v = true.
Proof.
  unfold JSON_parse.
  destruct (parse_value _ s) as [[v' r]|] eqn:Hp; [|discriminate].
  destruct (skip_ws r); [|discriminate].
  intros [= <-]. eapply (proj1 (parse_wf _)), Hp.
Qed.

(** *** The fuel of [JSON_parse] *)

Lemma skip_ws_length s : String.length (skip_ws s) <= String.length s.
Proof.
  induction s as [|c s IH]; simpl; [lia|].
  destruct (is_json_ws c); simpl; lia.
Qed.

Lemma expect_length lit : forall s r,
  expect lit s = Some r -> String.length r <= String.length s.
Proof.
  induction lit as [|a lit IH]; intros s r; simpl.
  - intros [= ->]. lia.
  - destruct s as [|b s]; [discriminate|].
    destruct (Ascii.eqb a b); [|discriminate].
    intros H. apply IH in H. simpl. lia.
Qed.

Lemma parse_string_length n : forall s str r,
  String.length s <= n ->
  parse_string s = Some (str, r) -> String.length r < String.length s.
Proof.
  induction n as [|n IH]; intros s str r Hn; destruct s as [|c s];
    try discriminate; simpl in Hn; [lia|].
  cbn [parse_string].
  destruct (Ascii.eqb c dquote); [intros [= _ ->]; simpl; lia|].
  destruct (Ascii.eqb c backslash).
  - destruct s as [|e s]; [discriminate|].
    destruct (Ascii.eqb e "u").
    + destruct s as [|h1 [|h2 [|h3 [|h4 s]]]]; try discriminate.
      destruct (hex_value h1) as [a|]; [|discriminate].
      destruct (hex_value h2) as [b|]; [|discriminate].
      destruct (hex_value h3) as [c'|]; [|discriminate].
      destruct (hex_value h4) as [d|]; [|discriminate].
      cbn [mbind option_bind].
      destruct ((a =? 0)%N && (b =? 0)%N); [|discriminate].
      destruct (parse_string s) as [[str' r']|] eqn:Hp; [|discriminate].
      cbn [mbind option_bind]. intros [= _ <-].
      apply IH in Hp; simpl in *; lia.
    + destruct (unescape e); [|discriminate]. cbn [mbind option_bind].
      destruct (parse_string s) as [[str' r']|] eqn:Hp; [|discriminate].
      cbn [mbind option_bind]. intros [= _ <-].
      apply IH in Hp; simpl in *; lia.
  - destruct (is_control c); [discriminate|].
    destruct (parse_string s) as [[str' r']|] eqn:Hp; [|discriminate].
    cbn [mbind option_bind]. intros [= _ <-].
    apply IH in Hp; simpl in *; lia.
Qed.

Lemma span_digits_length s : forall ds r,
  span_digits s = (ds, r) ->
  String.length s = String.length ds + String.length r.
Proof.
  induction s as [|c s IH]; intros ds r; simpl.
  - intros [= <- <-]. reflexivity.
  - destruct (is_digit c).
    + destruct (span_digits s) as [ds' r']. intros [= <- <-].
      simpl. rewrite (IH ds' r' eq_refl). reflexivity.
    + intros [= <- <-]. reflexivity.
Qed.

Lemma parse_int_length s ip r :
  parse_int s = Some (ip, r) -> String.length r < String.length s.
Proof.
  unfold parse_int. destruct (span_digits s) as [ds rest] eqn:Hs.
  apply span_digits_length in Hs.
  destruct ds as [|c more]; [discriminate|].
  destruct (_ && _); [discriminate|].
  intros [= _ <-]. simpl in Hs. lia.
Qed.

Lemma parse_frac_length s fp r :
  parse_frac s = Some (fp, r) -> String.length r <= String.length s.
Proof.
  unfold parse_frac. destruct s as [|c s0]; [intros [= _ <-]; lia|].
  destruct (Ascii.eqb c "."); [|intros [= _ <-]; lia].
  destruct (span_digits s0) as [ds rest] eqn:Hs.
  apply span_digits_length in Hs.
  destruct (String.eqb ds EmptyString); [discriminate|].
  intros [= _ <-]. simpl. lia.
Qed.

Lemma parse_exp_length s e r :
  parse_exp s = Some (e, r) -> String.length r <= String.length s.
Proof.
  unfold parse_exp. destruct s as [|c s0]; [intros [= _ <-]; lia|].
  destruct (_ || _); [|intros [= _ <-]; lia].
  assert (H : exists negative s1,
             match s0 with
             | String c' r'' =>
                 if Ascii.eqb c' "-" then (true, r'')
                 else if Ascii.eqb c' "+" then (false, r'')
                 else (false, s0)
             | EmptyString => (false, s0)
             end = (negative, s1)
             /\ String.length s1 <= String.length s0).
  { destruct s0 as [|c' s1]; [exists false, EmptyString; auto|].
    destruct (Ascii.eqb c' "-"); [exists true, s1; simpl; auto|].
    destruct (Ascii.eqb c' "+"); [exists false, s1; simpl; auto|].
    exists false, (String c' s1). auto. }
  destruct H as (negative & s1 & -> & Hl).
  destruct (span_digits s1) as [ds rest] eqn:Hs.
  apply span_digits_length in Hs.
  destruct (String.eqb ds EmptyString); [discriminate|].
  intros [= _ <-]. simpl. lia.
Qed.

Lemma parse_number_length s v r :
  parse_number s = Some (v, r) -> String.length r < String.length s.
Proof.
  intros H. apply parse_number_parts in H
    as (negative & s1 & ip & r1 & fp & r2 & e & Hs & H1 & H2 & H3 & _).
  apply parse_int_length in H1. apply parse_frac_length in H2.
  apply parse_exp_length in H3.
  destruct Hs as [[-> _] | [-> _]]; simpl; lia.
Qed.

Lemma parse_member_length (pv : string -> option (json * string)) s m r :
  (forall s' v r', pv s' = Some (v, r') -> String.length r' < String.length s') ->
  parse_member pv s = Some (m, r) -> String.length r < String.length s.
Proof.
  intros Hpv. unfold parse_member.
  pose proof (skip_ws_length s) as Hs.
  destruct (skip_ws s) as [|c s1]; [discriminate|].
  destruct (Ascii.eqb c dquote); [|discriminate].
  destruct (parse_string s1) as [[k r1]|] eqn:Hk; [|discriminate].
  apply (parse_string_length _ _ _ _ (le_n _)) in Hk.
  cbn [mbind option_bind].
  pose proof (skip_ws_length r1) as Hr1.
  destruct (skip_ws r1) as [|c' r2]; [discriminate|].
  destruct (Ascii.eqb c' ":"); [|discriminate].
  destruct (pv r2) as [[v r3]|] eqn:Hv; [|discriminate].
  cbn [mbind option_bind]. intros [= _ <-].
  apply Hpv in Hv. simpl in *. lia.
Qed.

(** Every reading consumes some of the text. *)
Lemma parse_progress fuel :
  (forall s v r, parse_value fuel s = Some (v, r) ->
                 String.length r < String.length s)
  /\ (forall s vs r, parse_elements fuel s = Some (vs, r) ->
                     String.length r < String.length s)
  /\ (forall s ms r, parse_members fuel s = Some (ms, r) ->
                     String.length r < String.length s).
Proof.
  induction fuel as [|fuel (IHv & IHe & IHm)].
  - repeat split; intros; discriminate.
  - split; [|split].
    + intros s v r. rewrite parse_value_S.
      pose proof (skip_ws_length s) as Hs.
      destruct (skip_ws s) as [|c s1]; [discriminate|]. simpl in Hs.
      destruct (Ascii.eqb c "n").
      { destruct (expect _ _) eqn:He; [|discriminate].
        cbn [mbind option_bind]. intros [= _ <-].
        apply expect_length in He. lia. }
      destruct (Ascii.eqb c "t").
      { destruct (expect _ _) eqn:He; [|discriminate].
        cbn [mbind option_bind]. intros [= _ <-].
        apply expect_length in He. lia. }
      destruct (Ascii.eqb c "f").
      { destruct (expect _ _) eqn:He; [|discriminate].
        cbn [mbind option_bind]. intros [= _ <-].
        apply expect_length in He. lia. }
      destruct (Ascii.eqb c dquote).
      { destruct (parse_string _) as [[str r']|] eqn:Hp; [|discriminate].
        cbn [mbind option_bind]. intros [= _ <-].
        apply (parse_string_length _ _ _ _ (le_n _)) in Hp. lia. }
      destruct (Ascii.eqb c "[").
      { pose proof (skip_ws_length s1) as Hs1.
        destruct (skip_ws s1) as [|c' r']; [discriminate|]. simpl in Hs1.
        destruct (Ascii.eqb c' "]"); [intros [= _ <-]; lia|].
        destruct (parse_value fuel s1) as [[x r1]|] eqn:Hx; [|discriminate].
        cbn [mbind option_bind].
        destruct (parse_elements fuel r1) as [[vs r2]|] eqn:Hvs; [|discriminate].
        cbn [mbind option_bind]. intros [= _ <-].
        apply IHv in Hx. apply IHe in Hvs. lia. }
      destruct (Ascii.eqb c "{").
      { pose proof (skip_ws_length s1) as Hs1.
        destruct (skip_ws s1) as [|c' r']; [discriminate|]. simpl in Hs1.
        destruct (Ascii.eqb c' "}"); [intros [= _ <-]; lia|].
        destruct (parse_member (parse_value fuel) s1) as [[m r1]|] eqn:Hx;
          [|discriminate].
        cbn [mbind option_bind].
        destruct (parse_members fuel r1) as [[ms r2]|] eqn:Hms; [|discriminate].
        cbn [mbind option_bind]. intros [= _ <-].
        apply (parse_member_length _ _ _ _ IHv) in Hx. apply IHm in Hms. lia. }
      intros H. apply parse_number_length in H. simpl in H. lia.
    + intros s vs r. rewrite parse_elements_S.
      pose proof (skip_ws_length s) as Hs.
      destruct (skip_ws s) as [|c s1]; [discriminate|]. simpl in Hs.
      destruct (Ascii.eqb c ",").
      * destruct (parse_value fuel s1) as [[x r1]|] eqn:Hx; [|discriminate].
        cbn [mbind option_bind].
        destruct (parse_elements fuel r1) as [[l r2]|] eqn:Hl; [|discriminate].
        cbn [mbind option_bind]. intros [= _ <-].
        apply IHv in Hx. apply IHe in Hl. lia.
      * destruct (Ascii.eqb c "]"); [|discriminate]. intros [= _ <-]. lia.
    + intros s ms r. rewrite parse_members_S.
      pose proof (skip_ws_length s) as Hs.
      destruct (skip_ws s) as [|c s1]; [discriminate|]. simpl in Hs.
      destruct (Ascii.eqb c ",").
      * destruct (parse_member (parse_value fuel) s1) as [[m r1]|] eqn:Hx;
          [|discriminate].
        cbn [mbind option_bind].
        destruct (parse_members fuel r1) as [[l r2]|] eqn:Hl; [|discriminate].
        cbn [mbind option_bind]. intros [= _ <-].
        apply (parse_member_length _ _ _ _ IHv) in Hx. apply IHm in Hl. lia.
      * destruct (Ascii.eqb c "}"); [|discriminate]. intros [= _ <-]. lia.
Qed.

Lemma parse_member_ext (pv1 pv2 : string -> option (json * string)) s :
  (forall s', String.length s' < String.length s -> pv1 s' = pv2 s') ->
  parse_member pv1 s = parse_member pv2 s.
Proof.
  intros Hpv. unfold parse_member.
  pose proof (skip_ws_length s) as Hs.
  destruct (skip_ws s) as [|c s1]; [reflexivity|]. simpl in Hs.
  destruct (Ascii.eqb c dquote); [|reflexivity].
  destruct (parse_string s1) as [[k r1]|] eqn:Hk; [|reflexivity].
  apply (parse_string_length _ _ _ _ (le_n _)) in Hk.
  cbn [mbind option_bind].
  pose proof (skip_ws_length r1) as Hr1.
  destruct (skip_ws r1) as [|c' r2]; [reflexivity|]. simpl in Hr1.
  destruct (Ascii.eqb c' ":"); [|reflexivity].
  rewrite (Hpv r2) by lia. reflexivity.
Qed.

(** Any two amounts of fuel above the length of a text give it the same
    reading. *)
Lemma parse_fuel f1 : forall f2,
  (forall s, String.length s < f1 -> String.length s < f2 ->
             parse_value f1 s = parse_value f2 s)
  /\ (forall s, String.length s < f1 -> String.length s < f2 ->
                parse_elements f1 s = parse_elements f2 s)
  /\ (forall s, String.length s < f1 -> String.length s < f2 ->
                parse_members f1 s = parse_members f2 s).
Proof.
  induction f1 as [|f1 IH]; intros f2.
  - repeat split; intros; lia.
  - destruct f2 as [|f2]; [repeat split; intros; lia|].
    destruct (IH f2) as (IHv & IHe & IHm).
    destruct (parse_progress f2) as (Pv & _ & _).
    assert (Hmem : forall s, String.length s < f1 -> String.length s < f2 ->
                     parse_member (parse_value f1) s
                     = parse_member (parse_value f2) s).
    { intros s H1 H2. apply parse_member_ext. intros s' Hs'. apply IHv; lia. }
    split; [|split]; intros s H1 H2.
    + rewrite !parse_value_S.
      pose proof (skip_ws_length s) as Hs.
      destruct (skip_ws s) as [|c s1]; [reflexivity|]. simpl in Hs.
      repeat (match goal with
              | |- context [if Ascii.eqb c ?a then _ else _] =>
                  destruct (Ascii.eqb c a); try reflexivity
              end).
      * pose proof (skip_ws_length s1) as Hs1.
        destruct (skip_ws s1) as [|c' r']; [reflexivity|].
        destruct (Ascii.eqb c' "]"); [reflexivity|].
        rewrite (IHv s1) by lia.
        destruct (parse_value f2 s1) as [[x r1]|] eqn:Hx; [|reflexivity].
        cbn [mbind option_bind]. apply Pv in Hx.
        rewrite (IHe r1) by lia. reflexivity.
      * pose proof (skip_ws_length s1) as Hs1.
        destruct (skip_ws s1) as [|c' r']; [reflexivity|].
        destruct (Ascii.eqb c' "}"); [reflexivity|].
        rewrite (Hmem s1) by lia.
        destruct (parse_member (parse_value f2) s1) as [[m r1]|] eqn:Hx;
          [|reflexivity].
        cbn [mbind option_bind]. apply (parse_member_length _ _ _ _ Pv) in Hx.
        rewrite (IHm r1) by lia. reflexivity.
    + rewrite !parse_elements_S.
      pose proof (skip_ws_length s) as Hs.
      destruct (skip_ws s) as [|c s1]; [reflexivity|]. simpl in Hs.
      destruct (Ascii.eqb c ","); [|reflexivity].
      rewrite (IHv s1) by lia.
      destruct (parse_value f2 s1) as [[x r1]|] eqn:Hx; [|reflexivity].
      cbn [mbind option_bind]. apply Pv in Hx.
      rewrite (IHe r1) by lia. reflexivity.
    + rewrite !parse_members_S.
      pose proof (skip_ws_length s) as Hs.
      destruct (skip_ws s) as [|c s1]; [reflexivity|]. simpl in Hs.
      destruct (Ascii.eqb c ","); [|reflexivity].
      rewrite (Hmem s1) by lia.
      destruct (parse_member (parse_value f2) s1) as [[m r1]|] eqn:Hx;
        [|reflexivity].
      cbn [mbind option_bind]. apply (parse_member_length _ _ _ _ Pv) in Hx.
      rewrite (IHm r1) by lia. reflexivity.
Qed.

(** No amount of fuel reads more than [JSON_parse] does: where it has no
    result, the text has no reading. *)
Lemma JSON_parse_fuel s fuel :
  String.length s < fuel ->
  parse_value fuel s = parse_value (S (String.length s)) s.
Proof. intros H. apply (parse_fuel fuel (S (String.length s))); lia. Qed.

(** ** The export *)

Lemma json_wf_positions ps :
  Forall (fun v => json_wf v = true) (map json_of_position ps).
Proof. induction ps; constructor; [reflexivity | assumption]. Qed.

Lemma json_wf_calibration_record ps ts c :
  json_wf (calibration_record ps ts c) = true.
Proof.
  unfold calibration_record. apply json_wf_JObj.
  - eapply bool_decide_eq_true_1. reflexivity.
  - repeat constructor. apply json_wf_JArr, json_wf_positions.
Qed.

Lemma json_wf_gazeData l :
  Forall (fun p => finite_point p = true) l ->
  json_wf (json_of_gazeData l) = true.
Proof.
  intros Hl. unfold json_of_gazeData. apply json_wf_JArr.
  induction Hl as [|p l Hp Hl IH]; constructor; [|exact IH].
  unfold finite_point in Hp.
  apply andb_true_iff in Hp as [Hp He]. apply andb_true_iff in Hp as [Hx Hy].
  unfold json_of_pobj, obj_of_point. cbn [map fst snd json_of_primitive].
  apply json_wf_JObj; [eapply bool_decide_eq_true_1; reflexivity|].
  repeat constructor; assumption.
Qed.

Lemma json_wf_export r :
  Forall (fun p => finite_point p = true) (ExportRecord.gazeData r) ->
  json_wf (ExportRecord.calibrationData r) = true ->
  json_wf (json_of_export r) = true.
Proof.
  intros Hg H. unfold json_of_export. apply json_wf_JObj.
  - eapply bool_decide_eq_true_1. reflexivity.
  - repeat constructor; [apply json_wf_gazeData; exact Hg | exact H].
Qed.

(** The objects of a gaze sequence stand for its points, one for one. *)
Lemma gazeData_of_json_of_gazeData l :
  gazeData_of_json (json_of_gazeData l) = Some l.
Proof.
  unfold gazeData_of_json, json_of_gazeData.
  induction l as [|[x y t e p] l IH]; [reflexivity|].
  cbn [map mapM]. rewrite IH. reflexivity.
Qed.

(** The calibration record stays well formed whatever the tracker does: it
    is null, a record [calibrate] built, or a value [JSON.parse] returned. *)
Lemma run_preserves_wf op w :
  json_wf (calibrationData (this w)) = true ->
  json_wf (calibrationData (this (run op w))) = true.
Proof.
  intros Hw. destruct op; cbn [run]; try exact Hw.
  - unfold init. destruct begin_error; cbn [fst]; rewrite this_notify; exact Hw.
  - rewrite (proj1 (proj2 (proj2 (on_frame event cb w)))). exact Hw.
  - rewrite this_notify. exact Hw.
  - destruct (isInitialized (this w)) eqn:Hi.
    + destruct (calibrate_initialized b positions w Hi) as (w' & Hcal & Hrec & _).
      rewrite Hcal. simpl. rewrite Hrec. apply json_wf_calibration_record.
    + unfold calibrate. rewrite Hi. exact Hw.
  - unfold clearData. simpl. destruct (isInitialized (this w)); exact Hw.
  - unfold stop. destruct (_ && _); [|exact Hw].
    rewrite this_notify. exact Hw.
  - unfold pause. destruct (isInitialized _); [|exact Hw].
    rewrite this_notify. exact Hw.
  - unfold resume. destruct (isInitialized _); [|exact Hw].
    rewrite this_notify. exact Hw.
  - unfold saveCalibrationState. destruct (_ && _); [|exact Hw].
    destruct (_ ≫= _); exact Hw.
  - unfold loadCalibrationState. destruct (_ && _ && _); [|exact Hw].
    destruct (JSON_parse _) eqn:Hp;
      [|destruct (mentions_wide_unit _); exact Hw].
    simpl. eapply JSON_parse_wf, Hp.
  - destruct (webgazer_listening w); [|exact Hw].
    unfold gazeListener. destruct data as [[x y]|]; [|exact Hw].
    rewrite this_notify. exact Hw.
Qed.

Lemma export_round_trip_general (b : Browser.t) (w : world) :
  Forall (fun p => finite_point p = true) (gazeData (this w)) ->
  json_wf (calibrationData (this w)) = true ->
  exists o,
    JSON_parse (JSON_stringify (json_of_export (exportGazeData b w)))
    = Some (JObj o)
    /\ get_prop "gazeData" o = Some (json_of_gazeData (gazeData (this w)))
    /\ (get_prop "gazeData" o ≫= gazeData_of_json) = Some (gazeData (this w))
    /\ get_prop "calibrationData" o = Some (calibrationData (this w)).
Proof.
  intros Hg Hw.
  rewrite JSON_parse_stringify by (apply json_wf_export; assumption).
  eexists. split; [reflexivity|].
  cbn [get_prop String.eqb Ascii.eqb Bool.eqb exportGazeData
       ExportRecord.gazeData ExportRecord.calibrationData mbind option_bind].
  rewrite gazeData_of_json_of_gazeData. repeat split.
Qed.




Lemma reachable_wf w : reachable w -> json_wf (calibrationData (this w)) = true.
Proof.
  induction 1 as [| op w _ IH | b w _ IH | s w _ IH].
  - reflexivity.
  - apply run_preserves_wf, IH.
  - exact IH.
  - exact IH.
Qed.

(** The round trip, for every world the tracker can be in. *)
Lemma export_round_trip_reachable (b : Browser.t) (w : world) :
  reachable w ->
  Forall (fun p => finite_point p = true) (gazeData (this w)) ->
  exists o,
    JSON_parse (JSON_stringify (json_of_export (exportGazeData b w)))
    = Some (JObj o)
    /\ (get_prop "gazeData" o ≫= gazeData_of_json) = Some (gazeData (this w))
    /\ get_prop "calibrationData" o = Some (calibrationData (this w)).
Proof.
  intros Hr Hg.
  destruct (export_round_trip_general b w Hg (reachable_wf w Hr))
    as (o & H1 & _ & H3 & H4).
  eauto.
Qed.

(** ** The course of a calibration *)

Lemma listeners_notify event data w :
  listeners (this (notify event data w)) = listeners (this w).
Proof. rewrite this_notify. reflexivity. Qed.

Lemma processNextPoint_trace b rem : forall currentPoint w,
  let completed :=
    match calibrationData (this w) with
    | JObj o => JObj (set_prop "completed" (JBool true) o)
    | v => v
    end in
  trace (fst (processNextPoint b currentPoint rem w))
  = trace w
    ++ targets_effects b
         (default [] (listeners (this w) !! "calibrationPoint")) currentPoint rem
    ++ map (fun cb => Called cb completed)
         (default [] (listeners (this w) !! "calibrationCompleted")).
Proof.
  induction rem as [|pos rest IH]; intros currentPoint w.
  - cbn [processNextPoint fst targets_effects app].
    rewrite trace_notify. reflexivity.
  - cbn [processNextPoint targets_effects]. cbv zeta.
    set (w1 := notify "calibrationPoint" _ w).
    set (w3 := emit [SetTimeout 500] (emit (collectPoint _ _) w1)).
    assert (Hthis : this w3 = this w) by (subst w3 w1; simpl; apply this_notify).
    specialize (IH (S currentPoint) w3). cbv zeta in IH.
    rewrite Hthis in IH. rewrite IH.
    assert (Htr : trace w3
                  = trace w
                    ++ target_effects b
                         (default [] (listeners (this w) !! "calibrationPoint"))
                         currentPoint pos).
    { subst w3 w1. cbn [emit trace]. rewrite trace_notify.
      unfold target_effects. rewrite <- !app_assoc. reflexivity. }
    rewrite Htr, <- !app_assoc. reflexivity.
Qed.

Lemma waited_app tr1 tr2 : waited (tr1 ++ tr2) = (waited tr1 + waited tr2)%Z.
Proof.
  induction tr1 as [|e tr1 IH]; simpl; [reflexivity|].
  rewrite IH. destruct e; lia.
Qed.

Lemma waited_called (f : callback -> json) cbs :
  waited (map (fun cb => Called cb (f cb)) cbs) = 0%Z.
Proof. induction cbs; simpl; assumption || reflexivity. Qed.

Lemma waited_target b cbs i pos : waited (target_effects b cbs i pos) = 900%Z.
Proof.
  unfold target_effects. rewrite !waited_app.
  rewrite (waited_called (fun _ => _)). reflexivity.
Qed.

Lemma waited_targets b cbs positions : forall i,
  waited (targets_effects b cbs i positions)
  = (900 * Z.of_nat (length positions))%Z.
Proof.
  induction positions as [|pos rest IH]; intros i; [reflexivity|].
  cbn [targets_effects length]. rewrite waited_app, waited_target, IH. lia.
Qed.

(** X1. The effects of a call of [calibrate] on an initialized tracker, in
    order: the engine is told to clear its data; the listeners of
    'calibrationStarted' get the record, not yet completed; each target in
    turn has the listeners of 'calibrationPoint' called with its index and
    position, five samples recorded at its pixel position 100ms apart, and
    a 500ms wait; last, the listeners of 'calibrationCompleted' get the
    completed record.  The timers wait 900ms per target in all, 8100ms for
    the default grid that [window.startCalibration] uses. *)
Theorem calibrate_effects_in_order (b : Browser.t)
    (positions : option (list Position.t)) (w : world) :
  isInitialized (this w) = true ->
  let ps := default defaultPositions positions in
  let heard event := default [] (listeners (this w) !! event) in
  trace (fst (calibrate b positions w))
  = trace w
    ++ [Engine webgazer.clearData]
    ++ map (fun cb => Called cb (calibration_record ps (Browser.now b) false))
         (heard "calibrationStarted")
    ++ targets_effects b (heard "calibrationPoint") 0 ps
    ++ map (fun cb => Called cb (calibration_record ps (Browser.now b) true))
         (heard "calibrationCompleted")
  /\ waited (trace (fst (calibrate b positions w)))
     = (waited (trace w) + 900 * Z.of_nat (length ps))%Z
  /\ waited (trace (fst (startCalibration b w))) = (waited (trace w) + 8100)%Z.
Proof.
  intros Hi ps heard.
  assert (Htrace : forall positions',
    trace (fst (calibrate b positions' w))
    = trace w
      ++ [Engine webgazer.clearData]
      ++ map (fun cb =>
                Called cb (calibration_record (default defaultPositions positions')
                             (Browser.now b) false))
           (heard "calibrationStarted")
      ++ targets_effects b (heard "calibrationPoint") 0
           (default defaultPositions positions')
      ++ map (fun cb =>
                Called cb (calibration_record (default defaultPositions positions')
                             (Browser.now b) true))
           (heard "calibrationCompleted")).
  { intros positions'. unfold calibrate. rewrite Hi. cbn [negb].
    set (w2 := set_calibrationData _ (emit [Engine webgazer.clearData] w)).
    set (w3 := notify "calibrationStarted" _ w2).
    pose proof (processNextPoint_trace b (default defaultPositions positions') 0 w3)
      as H. cbv zeta in H.
    destruct (processNextPoint b 0 (default defaultPositions positions') w3)
      as [w4 record]. cbn [fst] in H |- *. rewrite H.
    subst w3. rewrite this_notify, trace_notify.
    subst w2. cbn [set_calibrationData set_this this calibrationData listeners
                   emit trace].
    unfold heard. rewrite <- !app_assoc. reflexivity. }
  assert (Hwait : forall positions',
    waited (trace (fst (calibrate b positions' w)))
    = (waited (trace w)
       + 900 * Z.of_nat (length (default defaultPositions positions')))%Z).
  { intros positions'. rewrite Htrace, !waited_app, waited_targets.
    rewrite !(waited_called (fun _ => _)). simpl. lia. }
  split; [apply Htrace|]. split; [apply Hwait|].
  unfold startCalibration. rewrite Hwait. reflexivity.
Qed.

Lemma calibrate_effects_in_order_witness :
  waited (trace (fst (startCalibration plain_browser initialized_world)))
  = (waited (trace initialized_world) + 8100)%Z.
Proof.
  apply (calibrate_effects_in_order plain_browser None initialized_world).
  reflexivity.
Defined.

(** ** [init] and the gaze listener *)

(** X2. [init] hands its chain of settings, the gaze listener and [begin()]
    to the engine, with 'ridge', 'clmtrackr', video on and prediction
    points off unless the options say otherwise, and leaves the gaze
    sequence, the calibration record, the listeners and the session store
    alone.  When [begin()] succeeds it returns true, the tracker is
    initialized and [calibrate] goes through.  When [begin()] fails it
    returns false, logs the error, gives it to the listeners of 'error',
    and neither sets nor clears the initialized flag: on a tracker that was
    not initialized, [calibrate] is still rejected. *)
Theorem init_outcomes (options : Options.t) (begin_error : option string)
    (b : Browser.t) (positions : option (list Position.t)) (w : world) :
  let r := init options begin_error w in
  gazeData (this (fst r)) = gazeData (this w)
  /\ calibrationData (this (fst r)) = calibrationData (this w)
  /\ listeners (this (fst r)) = listeners (this w)
  /\ sessionStorage (fst r) = sessionStorage w
  /\ webgazer_listening (fst r) = true
  /\ match begin_error with
     | None =>
         snd r = true
         /\ isInitialized (this (fst r)) = true
         /\ trace (fst r)
            = trace w ++ init_chain options
              ++ map (fun cb => Called cb JNull)
                   (default [] (listeners (this w) !! "initialized"))
         /\ exists record, snd (calibrate b positions (fst r)) = Return record
     | Some error =>
         snd r = false
         /\ isInitialized (this (fst r)) = isInitialized (this w)
         /\ trace (fst r)
            = trace w ++ init_chain options
              ++ [ConsoleError "Eye tracking initialization failed:"]
              ++ map (fun cb => Called cb (JStr error))
                   (default [] (listeners (this w) !! "error"))
         /\ (isInitialized (this w) = false ->
             snd (calibrate b positions (fst r))
             = Throw "Eye tracking not initialized")
     end.
Proof.
  unfold init. destruct begin_error as [error|]; cbn [fst snd].
  - rewrite this_notify, sessionStorage_notify, trace_notify.
    repeat (split; [reflexivity|]).
    split; [apply listening_notify|].
    split; [reflexivity|]. split; [reflexivity|].
    split; [cbn [emit trace set_listening this]; rewrite <- !app_assoc; reflexivity|].
    intros Hi. unfold calibrate. rewrite this_notify. cbn. rewrite Hi.
    reflexivity.
  - rewrite this_notify, sessionStorage_notify, trace_notify.
    repeat (split; [reflexivity|]).
    split; [apply listening_notify|].
    split; [reflexivity|]. split; [reflexivity|].
    split; [cbn [emit trace set_listening this set_isInitialized set_this listeners];
            rewrite <- !app_assoc; reflexivity|].
    set (w' := notify _ _ _).
    assert (Hi : isInitialized (this w') = true)
      by (subst w'; rewrite this_notify; reflexivity).
    destruct (calibrate_initialized b positions w' Hi) as (w'' & Hcal & _).
    rewrite Hcal. eexists. reflexivity.
Qed.

Lemma deliver_cons s samples w :
  deliver (s :: samples) w
  = deliver samples (gazeListener (fst (fst s)) (snd (fst s)) (snd s) w).
Proof. reflexivity. Qed.

(** X3. The gaze listener records the engine's predictions in the order
    they come: after any run of samples the gaze sequence is the one
    before, followed by one point for each prediction that is not null,
    carrying its coordinates, [Date.now()], the elapsed time and the page's
    path; a null prediction records nothing and notifies nobody.  Each
    recorded point is given once to every listener of 'gaze'; nothing else
    of the tracker or the session store changes. *)
Theorem gaze_samples_recorded_in_order (samples : list sample) (w : world) :
  gazeData (this (deliver samples w)) = gazeData (this w) ++ points_of samples
  /\ length (gazeData (this (deliver samples w)))
     = length (gazeData (this w)) + length (points_of samples)
  /\ trace (deliver samples w)
     = trace w
       ++ flat_map
            (fun p => map (fun cb => Called cb (json_of_pobj (obj_of_point p)))
                        (default [] (listeners (this w) !! "gaze")))
            (points_of samples)
  /\ isInitialized (this (deliver samples w)) = isInitialized (this w)
  /\ calibrationData (this (deliver samples w)) = calibrationData (this w)
  /\ listeners (this (deliver samples w)) = listeners (this w)
  /\ sessionStorage (deliver samples w) = sessionStorage w.
Proof.
  assert (H : forall samples w,
    gazeData (this (deliver samples w)) = gazeData (this w) ++ points_of samples
    /\ trace (deliver samples w)
       = trace w
         ++ flat_map
              (fun p => map (fun cb => Called cb (json_of_pobj (obj_of_point p)))
                          (default [] (listeners (this w) !! "gaze")))
              (points_of samples)
    /\ isInitialized (this (deliver samples w)) = isInitialized (this w)
    /\ calibrationData (this (deliver samples w)) = calibrationData (this w)
    /\ listeners (this (deliver samples w)) = listeners (this w)
    /\ sessionStorage (deliver samples w) = sessionStorage w).
  { clear. induction samples as [|[[b data] elapsed] samples IH]; intros w.
    - cbn. rewrite !app_nil_r. repeat split.
    - rewrite deliver_cons. cbn [fst snd].
      destruct (IH (gazeListener b data elapsed w)) as (H1 & H2 & H3 & H4 & H5 & H6).
      rewrite H1, H2, H3, H4, H5, H6. clear.
      unfold gazeListener, points_of. cbn [flat_map fst snd].
      destruct data as [[x y]|]; cbn [app].
      + rewrite this_notify, sessionStorage_notify, trace_notify.
        cbn [set_gazeData set_this this gazeData listeners trace isInitialized
             calibrationData sessionStorage flat_map].
        rewrite <- !app_assoc. repeat split.
      + repeat split. }
  destruct (H samples w) as (H1 & H2 & H3 & H4 & H5 & H6).
  repeat (split; [assumption|]). split; [|repeat (split; [assumption|]); assumption].
  rewrite H1. apply length_app.
Qed.

(** ** Time ranges and gaze statistics *)

Lemma filter_sublist {A} (f : A -> bool) (l : list A) : sublist (List.filter f l) l.
Proof.
  induction l as [|a l IH]; simpl; [constructor|].
  destruct (f a); [apply sublist_skip | apply sublist_cons]; exact IH.
Qed.

(** X4. [getGazeDataInRange(startTime, endTime)] returns exactly the
    recorded points whose timestamp lies between the two bounds, both
    included, in the order they were recorded; it is empty when the end
    comes before the start, and the whole sequence when the bounds enclose
    every timestamp. *)
Theorem getGazeDataInRange_spec (startTime endTime : Z) (w : world) :
  (forall p,
      In p (getGazeDataInRange startTime endTime w)
      <-> In p (gazeData (this w))
          /\ (startTime <= GazePoint.timestamp p <= endTime)%Z)
  /\ sublist (getGazeDataInRange startTime endTime w) (gazeData (this w))
  /\ ((endTime < startTime)%Z -> getGazeDataInRange startTime endTime w = [])
  /\ (Forall (fun p => (startTime <= GazePoint.timestamp p <= endTime)%Z)
        (gazeData (this w)) ->
      getGazeDataInRange startTime endTime w = gazeData (this w)).
Proof.
  unfold getGazeDataInRange. split; [|split; [|split]].
  - intros p. rewrite filter_In, andb_true_iff, !Z.leb_le. tauto.
  - apply filter_sublist.
  - intros Hlt. induction (gazeData (this w)) as [|p l IH]; simpl; [reflexivity|].
    destruct (Z.leb_spec startTime (GazePoint.timestamp p));
      destruct (Z.leb_spec (GazePoint.timestamp p) endTime); simpl;
      try exact IH. lia.
  - induction 1 as [|p l Hp Hl IH]; simpl; [reflexivity|].
    destruct (Z.leb_spec startTime (GazePoint.timestamp p));
      destruct (Z.leb_spec (GazePoint.timestamp p) endTime); simpl; try lia.
    rewrite IH. reflexivity.
Qed.

Lemma filter_length_le {A} (f : A -> bool) (l : list A) :
  length (List.filter f l) <= length l.
Proof. induction l as [|a l IH]; simpl; [lia|]. destruct (f a); simpl; lia. Qed.

Lemma percentage_bounds (n m : nat) :
  n <= m -> 0 < m ->
  (0 <= inject_Z (Z.of_nat n) / inject_Z (Z.of_nat m) * 100)%Q
  /\ (inject_Z (Z.of_nat n) / inject_Z (Z.of_nat m) * 100 <= 100)%Q.
Proof.
  intros Hnm Hm.
  assert (Hpos : (0 < inject_Z (Z.of_nat m))%Q).
  { change 0%Q with (inject_Z 0). rewrite <- Zlt_Qlt. lia. }
  assert (H0 : (0 <= inject_Z (Z.of_nat n) / inject_Z (Z.of_nat m))%Q).
  { apply Qle_shift_div_l; [exact Hpos|]. rewrite Qmult_0_l.
    change 0%Q with (inject_Z 0). rewrite <- Zle_Qle. lia. }
  assert (H1 : (inject_Z (Z.of_nat n) / inject_Z (Z.of_nat m) <= 1)%Q).
  { apply Qle_shift_div_r; [exact Hpos|]. rewrite Qmult_1_l.
    rewrite <- Zle_Qle. lia. }
  split.
  - apply Qmult_le_0_compat; [exact H0 | discriminate].
  - apply Qle_trans with (1 * 100)%Q; [|discriminate].
    apply Qmult_le_compat_r; [exact H1 | discriminate].
Qed.

(** X5. The statistics [calculateGazeStats] reports are consistent: the
    points on the element are no more than the points considered, which are
    no more than the points recorded; the percentage lies between 0 and
    100; and with no point on the element (in particular with an empty
    sequence, or a time range that holds no point) the first and the last
    timestamps are null and the dwell time is 0, the percentage being 0 as
    soon as no point is considered. *)
Theorem calculateGazeStats_consistent (element : Element.t)
    (timeRange : option (Z * Z)) (w : world) :
  let stats := calculateGazeStats element timeRange w in
  GazeStats.gazePointsOnElement stats <= GazeStats.totalGazePoints stats
  /\ GazeStats.totalGazePoints stats <= length (gazeData (this w))
  /\ (0 <= GazeStats.gazePercentage stats)%Q
  /\ (GazeStats.gazePercentage stats <= 100)%Q
  /\ (GazeStats.gazePointsOnElement stats = 0 ->
      GazeStats.firstGaze stats = None
      /\ GazeStats.lastGaze stats = None
      /\ GazeStats.totalDwellTime stats = 0%Z)
  /\ (GazeStats.totalGazePoints stats = 0 ->
      GazeStats.gazePointsOnElement stats = 0
      /\ GazeStats.gazePercentage stats = 0%Q)
  /\ (0 < GazeStats.gazePointsOnElement stats ->
      exists first last_,
        GazeStats.firstGaze stats = Some first
        /\ GazeStats.lastGaze stats = Some last_
        /\ GazeStats.totalDwellTime stats = (last_ - first)%Z).
Proof.
  unfold calculateGazeStats. cbv zeta.
  set (relevant := match timeRange with
                   | Some (start, end_) => getGazeDataInRange start end_ w
                   | None => gazeData (this w)
                   end).
  set (onElement := List.filter _ relevant).
  cbn [GazeStats.gazePointsOnElement GazeStats.totalGazePoints
       GazeStats.gazePercentage GazeStats.firstGaze GazeStats.lastGaze
       GazeStats.totalDwellTime].
  assert (Hon : length onElement <= length relevant) by apply filter_length_le.
  assert (Hrel : length relevant <= length (gazeData (this w))).
  { subst relevant. destruct timeRange as [[s e]|]; [|lia].
    apply filter_length_le. }
  split; [exact Hon|]. split; [exact Hrel|].
  assert (Hpct : (0 <= (if 0 <? length relevant
                        then inject_Z (Z.of_nat (length onElement))
                             / inject_Z (Z.of_nat (length relevant)) * 100
                        else 0))%Q
                 /\ ((if 0 <? length relevant
                      then inject_Z (Z.of_nat (length onElement))
                           / inject_Z (Z.of_nat (length relevant)) * 100
                      else 0) <= 100)%Q).
  { destruct (Nat.ltb_spec 0 (length relevant)) as [Hpos|_].
    - apply percentage_bounds; assumption.
    - split; discriminate. }
  split; [apply Hpct|]. split; [apply Hpct|]. split; [|split].
  - intros H0. destruct onElement; [repeat split | discriminate].
  - intros H0. split; [lia|]. rewrite H0. reflexivity.
  - intros Hpos. destruct onElement as [|p l] eqn:E; [simpl in Hpos; lia|].
    destruct (last (p :: l)) as [q|] eqn:Hl.
    + exists (GazePoint.timestamp p), (GazePoint.timestamp q). repeat split.
    + apply last_None in Hl. discriminate.
Qed.

Lemma chronological_filter (f : GazePoint.t -> bool) l :
  chronological l -> chronological (List.filter f l).
Proof.
  unfold chronological. induction l as [|p l IH]; simpl; intros H; [constructor|].
  apply StronglySorted_inv in H as [Hl Hp].
  destruct (f p); [|auto]. simpl. constructor; [auto|].
  rewrite List.Forall_forall in Hp |- *. intros z Hz. apply Hp.
  rewrite in_map_iff in Hz |- *. destruct Hz as (q & Hq & Hin).
  exists q. split; [exact Hq|]. apply filter_In in Hin. tauto.
Qed.

Lemma chronological_last l q :
  chronological l -> last l = Some q ->
  forall p, In p l -> (GazePoint.timestamp p <= GazePoint.timestamp q)%Z.
Proof.
  unfold chronological. induction l as [|a l IH]; intros Hs Hl p Hin; [destruct Hin|].
  simpl in Hs. apply StronglySorted_inv in Hs as [Hs Ha].
  destruct l as [|a' l'].
  - simpl in Hl. injection Hl as <-. destruct Hin as [<-|[]]. lia.
  - change (last (a :: a' :: l')) with (last (a' :: l')) in Hl.
    destruct Hin as [<-|Hin].
    + rewrite List.Forall_forall in Ha. apply Ha. apply in_map.
      apply last_Some in Hl as [l'' Hl]. rewrite Hl. apply in_or_app.
      right. left. reflexivity.
    + apply IH; assumption.
Qed.

Lemma chronological_head l p :
  chronological l -> head l = Some p ->
  forall q, In q l -> (GazePoint.timestamp p <= GazePoint.timestamp q)%Z.
Proof.
  unfold chronological. destruct l as [|a l]; [discriminate|].
  intros Hs [= <-] q [<-|Hin]; [lia|].
  simpl in Hs. apply StronglySorted_inv in Hs as [_ Ha].
  rewrite List.Forall_forall in Ha. apply Ha, in_map, Hin.
Qed.

(** X6. When the timestamps of the gaze sequence never go back, the span
    [calculateGazeStats] reports as [totalDwellTime] is not negative, and
    [firstGaze] and [lastGaze] are the earliest and the latest timestamp of
    a considered point on the element. *)
Theorem calculateGazeStats_span (element : Element.t)
    (timeRange : option (Z * Z)) (w : world) :
  chronological (gazeData (this w)) ->
  let stats := calculateGazeStats element timeRange w in
  (0 <= GazeStats.totalDwellTime stats)%Z
  /\ forall p first last_,
       GazeStats.firstGaze stats = Some first ->
       GazeStats.lastGaze stats = Some last_ ->
       In p (match timeRange with
             | Some (start, end_) => getGazeDataInRange start end_ w
             | None => gazeData (this w)
             end) ->
       isGazeOnElement (Some (PNum (GazePoint.x p))) (Some (PNum (GazePoint.y p)))
         element = true ->
       (first <= GazePoint.timestamp p <= last_)%Z.
Proof.
  intros Hc. unfold calculateGazeStats. cbv zeta.
  set (relevant := match timeRange with
                   | Some (start, end_) => getGazeDataInRange start end_ w
                   | None => gazeData (this w)
                   end).
  set (onElement := List.filter _ relevant).
  cbn [GazeStats.firstGaze GazeStats.lastGaze GazeStats.totalDwellTime].
  assert (Hrel : chronological relevant).
  { subst relevant. destruct timeRange as [[s e]|]; [|exact Hc].
    apply chronological_filter, Hc. }
  assert (Hon : chronological onElement) by apply chronological_filter, Hrel.
  destruct (head onElement) as [f|] eqn:Hf; destruct (last onElement) as [l|] eqn:Hl;
    cbn [fmap option_fmap option_map]; try (split; [lia | intros; discriminate]).
  split.
  - pose proof (chronological_last onElement l Hon Hl f) as H.
    destruct onElement; [discriminate|]. injection Hf as ->.
    specialize (H (or_introl eq_refl)). lia.
  - intros p first last_ [= <-] [= <-] Hin Hgaze.
    assert (Hp : In p onElement) by (apply filter_In; auto).
    split.
    + apply (chronological_head onElement f Hon Hf p Hp).
    + apply (chronological_last onElement l Hon Hl p Hp).
Qed.

Lemma calculateGazeStats_span_witness :
  (0 <= GazeStats.totalDwellTime
          (calculateGazeStats (Element.mk "cause" (DOMRect.mk 0 20 0 20)) None
             reading_world))%Z.
Proof.
  apply (calculateGazeStats_span (Element.mk "cause" (DOMRect.mk 0 20 0 20)) None
           reading_world).
  change (StronglySorted Z.le [0; 100; 2000]%Z). repeat constructor; lia.
Defined.

(** ** [clearData] and [stop] among the other operations *)

(** X7. [clearData()] empties the gaze sequence and tells the engine to
    clear its data exactly when the tracker is initialized; it leaves the
    calibration record, the listeners, the initialized flag and the session
    store as they are.  So on an initialized tracker the engine holds no
    training sample afterwards while [isCalibrated()] answers as before. *)
Theorem clearData_effect (w : world) :
  gazeData (this (clearData w)) = []
  /\ calibrationData (this (clearData w)) = calibrationData (this w)
  /\ listeners (this (clearData w)) = listeners (this w)
  /\ isInitialized (this (clearData w)) = isInitialized (this w)
  /\ sessionStorage (clearData w) = sessionStorage w
  /\ trace (clearData w)
     = trace w ++ (if isInitialized (this w) then [Engine webgazer.clearData] else [])
  /\ isCalibrated (clearData w) = isCalibrated w
  /\ (isInitialized (this w) = true -> engine_samples (trace (clearData w)) = []).
Proof.
  assert (E : clearData w
              = if isInitialized (this w)
                then emit [Engine webgazer.clearData] (set_gazeData [] w)
                else set_gazeData [] w) by reflexivity.
  rewrite E. clear E. destruct (isInitialized (this w)) eqn:Hi.
  - do 3 (split; [reflexivity|]). split; [exact Hi|].
    do 3 (split; [reflexivity|]). intros _.
    unfold engine_samples. cbn [emit trace]. rewrite fold_left_app. reflexivity.
  - do 3 (split; [reflexivity|]). split; [exact Hi|]. split; [reflexivity|].
    split; [symmetry; apply app_nil_r|]. split; [reflexivity | discriminate].
Qed.

(** X8. Once [stop()] has taken effect, the tracker is inert: it is no
    longer initialized, [stop], [pause] and [resume] do nothing, [clearData]
    no longer reaches the engine, and [calibrate] is rejected; the gaze
    sequence and the calibration record are kept.  While the engine does
    not report itself ready, [stop()] does nothing at all and the tracker
    stays initialized. *)
Theorem stop_effect (b : Browser.t) (positions : option (list Position.t))
    (w : world) :
  isInitialized (this w) = true ->
  (webgazer_isReady w = false -> stop w = w)
  /\ (webgazer_isReady w = true ->
      isInitialized (this (stop w)) = false
      /\ trace (stop w)
         = trace w ++ [Engine webgazer.end_]
           ++ map (fun cb => Called cb JNull)
                (default [] (listeners (this w) !! "stopped"))
      /\ gazeData (this (stop w)) = gazeData (this w)
      /\ calibrationData (this (stop w)) = calibrationData (this w)
      /\ stop (stop w) = stop w
      /\ pause (stop w) = stop w
      /\ resume (stop w) = stop w
      /\ trace (clearData (stop w)) = trace (stop w)
      /\ calibrate b positions (stop w)
         = (stop w, Throw "Eye tracking not initialized")).
Proof.
  intros Hi. split; intros Hr.
  - unfold stop. rewrite Hi, Hr. reflexivity.
  - assert (Hs : stop w
                 = notify "stopped" JNull
                     (set_isInitialized false (emit [Engine webgazer.end_] w)))
      by (unfold stop; rewrite Hi, Hr; reflexivity).
    assert (Hoff : isInitialized (this (stop w)) = false)
      by (rewrite Hs, this_notify; reflexivity).
    split; [exact Hoff|]. split.
    { rewrite Hs, trace_notify. cbn [set_isInitialized set_this emit trace
        this listeners]. rewrite <- app_assoc. reflexivity. }
    split; [rewrite Hs, this_notify; reflexivity|].
    split; [rewrite Hs, this_notify; reflexivity|].
    split; [apply stop_stop|].
    split; [unfold pause; rewrite Hoff; reflexivity|].
    split; [unfold resume; rewrite Hoff; reflexivity|].
    split.
    + unfold clearData. cbn [set_gazeData set_this this isInitialized].
      rewrite Hoff. reflexivity.
    + unfold calibrate. rewrite Hoff. reflexivity.
Qed.

Lemma stop_effect_witness :
  isInitialized (this (stop (set_isReady true initialized_world))) = false.
Proof.
  apply (proj2 (stop_effect plain_browser None (set_isReady true initialized_world)
                  eq_refl) eq_refl).
Defined.

(** ** Saving and loading the calibration *)

Lemma stringify_not_empty v : JSON_stringify v <> EmptyString.
Proof. destruct (stringify_head v) as (c & s & Hs & _). rewrite Hs. discriminate. Qed.

(** A tracker over a store that holds the flag, a timestamp that is not
    empty and a printed well-formed value loads that value. *)
Lemma load_stored (w : world) (ts : string) (v : json) :
  json_wf v = true ->
  sessionStorage w !! "eyeTrackingCalibrated" = Some "true" ->
  sessionStorage w !! "calibrationTimestamp" = Some ts ->
  sessionStorage w !! "calibrationData" = Some (JSON_stringify v) ->
  ts <> EmptyString ->
  loadCalibrationState w = (set_calibrationData v w, Return true).
Proof.
  intros Hwf Hflag Htime Hdata Hne.
  unfold loadCalibrationState, item_is_true.
  rewrite Htime, Hdata, (bool_decide_eq_true_2 _ Hflag). cbn [item_truthy andb].
  destruct (String.eqb_spec ts EmptyString) as [->|_]; [congruence|].
  destruct (String.eqb_spec (JSON_stringify v) EmptyString) as [He|_];
    [exfalso; exact (stringify_not_empty _ He)|].
  cbn [negb andb from_option id]. rewrite JSON_parse_stringify by exact Hwf.
  reflexivity.
Qed.



(** ** Calibration targets on the screen *)

Lemma to_pixels_bounds percent extent :
  (0 <= percent <= 100)%Z -> (0 <= extent)%Z ->
  (0 <= to_pixels percent extent)%Q
  /\ (to_pixels percent extent <= inject_Z extent)%Q.
Proof.
  intros Hp He. unfold to_pixels.
  assert (He' : (0 <= inject_Z extent)%Q)
    by (change 0%Q with (inject_Z 0); rewrite <- Zle_Qle; lia).
  assert (H0 : (0 <= inject_Z percent / 100)%Q).
  { apply Qle_shift_div_l; [reflexivity|]. rewrite Qmult_0_l.
    change 0%Q with (inject_Z 0). rewrite <- Zle_Qle. lia. }
  assert (H1 : (inject_Z percent / 100 <= 1)%Q).
  { apply Qle_shift_div_r; [reflexivity|]. rewrite Qmult_1_l.
    change 100%Q with (inject_Z 100). rewrite <- Zle_Qle. lia. }
  split.
  - apply Qmult_le_0_compat; assumption.
  - apply Qle_trans with (1 * inject_Z extent)%Q.
    + apply Qmult_le_compat_r; assumption.
    + rewrite Qmult_1_l. apply Qle_refl.
Qed.

(** X10. Every screen position a calibration records lies inside the
    viewport, as long as the targets are percentages between 0 and 100 and
    the viewport has no negative size; the targets of the default grid are,
    so [window.startCalibration] trains the engine on 45 positions inside
    the viewport. *)
Theorem calibration_samples_in_viewport (b : Browser.t)
    (positions : list Position.t) (w : world) :
  isInitialized (this w) = true ->
  (0 <= Browser.innerWidth b)%Z -> (0 <= Browser.innerHeight b)%Z ->
  (Forall (fun pos => (0 <= Position.x pos <= 100)%Z
                      /\ (0 <= Position.y pos <= 100)%Z) positions ->
   Forall (in_viewport b)
     (engine_samples (trace (fst (calibrate b (Some positions) w)))))
  /\ Forall (in_viewport b) (engine_samples (trace (fst (startCalibration b w))))
  /\ length (engine_samples (trace (fst (startCalibration b w)))) = 45.
Proof.
  intros Hi Hw Hh.
  assert (Hgen : forall positions',
    Forall (fun pos => (0 <= Position.x pos <= 100)%Z
                       /\ (0 <= Position.y pos <= 100)%Z)
      (default defaultPositions positions') ->
    Forall (in_viewport b)
      (engine_samples (trace (fst (calibrate b positions' w))))).
  { intros positions' Hps.
    destruct (calibrate_initialized b positions' w Hi) as (w' & Hcal & _ & _ & _ & _ & Hs).
    rewrite Hcal. cbn [fst]. rewrite Hs. clear -Hps Hw Hh.
    induction Hps as [|pos ps [Hx Hy] _ IH]; [constructor|].
    cbn [flat_map]. apply Forall_app. split; [|exact IH].
    unfold target_samples. apply Forall_replicate.
    destruct (to_pixels_bounds _ _ Hx Hw). destruct (to_pixels_bounds _ _ Hy Hh).
    repeat split; assumption. }
  split; [intros Hps; apply (Hgen (Some positions)); exact Hps|]. split.
  - apply (Hgen None). unfold defaultPositions. cbn [from_option id].
    repeat (apply List.Forall_cons; [cbn; lia|]). apply List.Forall_nil.
  - unfold startCalibration.
    destruct (calibrate_initialized b None w Hi) as (w' & Hcal & _ & _ & _ & _ & Hs).
    rewrite Hcal. cbn [fst]. rewrite Hs. reflexivity.
Qed.

Lemma calibration_samples_in_viewport_witness :
  Forall (in_viewport plain_browser)
    (engine_samples (trace (fst (startCalibration plain_browser initialized_world)))).
Proof.
  apply (calibration_samples_in_viewport plain_browser [] initialized_world
           eq_refl); discriminate.
Defined.

(** ** The dwell mapping *)

Lemma dwell_add_keys k n (d : dwell) : map fst (dwell_add k n d) = map fst d.
Proof.
  induction d as [|[k' v'] d IH]; simpl; [reflexivity|].
  destruct (String.eqb k k'); simpl; [reflexivity | rewrite IH; reflexivity].
Qed.

Lemma dwell_add_bounds k n (d : dwell) B :
  (0 < n)%Q -> (n < 500)%Q ->
  Forall (fun e => (0 <= snd e)%Q /\ (snd e <= B)%Q) d ->
  Forall (fun e => (0 <= snd e)%Q /\ (snd e <= B + 500)%Q) (dwell_add k n d).
Proof.
  intros Hn0 Hn. induction 1 as [|[k' v'] d [Hv0 Hv] Hd IH]; simpl; [constructor|].
  simpl in Hv0, Hv.
  destruct (String.eqb k k'); constructor; simpl; try (split; lra); try exact IH.
  eapply Forall_impl; [exact Hd|]. simpl. intros e [? ?]. split; lra.
Qed.

Lemma visit_aoi_keys cur next (d : dwell) el :
  map fst (visit_aoi cur next d el) = map fst d.
Proof.
  unfold visit_aoi. destruct (isGazeOnElement _ _ el); [|reflexivity].
  destruct (List.find _ _); [|reflexivity].
  destruct (String.eqb _ _); [reflexivity|]. cbv zeta.
  destruct (below_threshold _); [|reflexivity].
  unfold add_duration. destruct (duration_between cur next); try reflexivity.
  apply dwell_add_keys.
Qed.

Lemma visit_aoi_bounds cur next (d : dwell) el B :
  Forall (fun e => (0 <= snd e)%Q /\ (snd e <= B)%Q) d ->
  Forall (fun e => (0 <= snd e)%Q /\ (snd e <= B + 500)%Q)
    (visit_aoi cur next d el).
Proof.
  intros Hd.
  assert (Hweak : Forall (fun e => (0 <= snd e)%Q /\ (snd e <= B + 500)%Q) d)
    by (eapply Forall_impl; [exact Hd|]; simpl; intros e [? ?]; split; lra).
  unfold visit_aoi. destruct (isGazeOnElement _ _ el); [|exact Hweak].
  destruct (List.find _ _); [|exact Hweak].
  destruct (String.eqb _ _); [exact Hweak|]. cbv zeta.
  destruct (below_threshold (duration_between cur next)) eqn:Hb; [|exact Hweak].
  apply below_threshold_finite in Hb as (q & -> & H0 & H1).
  cbn [add_duration]. apply dwell_add_bounds; assumption.
Qed.

Lemma fold_visit_keys cur next els : forall d : dwell,
  map fst (fold_left (visit_aoi cur next) els d) = map fst d.
Proof.
  induction els as [|el els IH]; intros d; simpl; [reflexivity|].
  rewrite IH. apply visit_aoi_keys.
Qed.

Lemma fold_visit_bounds cur next els : forall (d : dwell) B,
  Forall (fun e => (0 <= snd e)%Q /\ (snd e <= B)%Q) d ->
  Forall (fun e => (0 <= snd e)%Q
                   /\ (snd e <= B + 500 * inject_Z (Z.of_nat (length els)))%Q)
    (fold_left (visit_aoi cur next) els d).
Proof.
  induction els as [|el els IH]; intros d B Hd; simpl fold_left.
  - eapply Forall_impl; [exact Hd|]. cbn [length Z.of_nat].
    change (inject_Z (Z.of_nat 0)) with 0%Q. cbv beta. intros e [? ?]. split; lra.
  - apply (visit_aoi_bounds cur next d el) in Hd. apply IH in Hd.
    eapply Forall_impl; [exact Hd|]. cbv beta. intros e [? He].
    split; [assumption|].
    cbn [length]. rewrite Nat2Z.inj_succ, <- Z.add_1_r, inject_Z_plus.
    change (inject_Z 1) with 1%Q. lra.
Qed.

Lemma dwell_loop_keys els pts : forall d : dwell,
  map fst (dwell_loop els pts d) = map fst d.
Proof.
  induction pts as [|cur pts IH]; intros d; [reflexivity|].
  destruct pts as [|next pts]; [reflexivity|].
  change (map fst (dwell_loop els (next :: pts)
                     (fold_left (visit_aoi cur next) els d)) = map fst d).
  rewrite IH. apply fold_visit_keys.
Qed.

Lemma dwell_loop_bounds els pts : forall (d : dwell) B,
  Forall (fun e => (0 <= snd e)%Q /\ (snd e <= B)%Q) d ->
  Forall (fun e =>
            (0 <= snd e)%Q
            /\ (snd e <= B + 500 * inject_Z (Z.of_nat (length els))
                             * inject_Z (Z.of_nat (length pts - 1)))%Q)
    (dwell_loop els pts d).
Proof.
  induction pts as [|cur pts IH]; intros d B Hd.
  - eapply Forall_impl; [exact Hd|]. cbn [length Nat.sub Z.of_nat dwell_loop].
    change (inject_Z (Z.of_nat 0)) with 0%Q. cbv beta. intros e [? ?]. split; lra.
  - destruct pts as [|next pts].
    + eapply Forall_impl; [exact Hd|]. cbn [length Nat.sub Z.of_nat dwell_loop].
      change (inject_Z (Z.of_nat 0)) with 0%Q. cbv beta. intros e [? ?]. split; lra.
    + change (Forall
                (fun e =>
                   (0 <= snd e)%Q
                   /\ (snd e <= B + 500 * inject_Z (Z.of_nat (length els))
                                    * inject_Z (Z.of_nat (S (length pts))))%Q)
                (dwell_loop els (next :: pts)
                   (fold_left (visit_aoi cur next) els d))).
      apply (fold_visit_bounds cur next els) in Hd. apply IH in Hd.
      eapply Forall_impl; [exact Hd|]. cbv beta. intros e [? He].
      split; [assumption|].
      replace (length (next :: pts) - 1) with (length pts) in He
        by (cbn [length]; lia).
      rewrite Nat2Z.inj_succ, <- Z.add_1_r, inject_Z_plus.
      change (inject_Z 1) with 1%Q. lra.
Qed.

Lemma dwell_set_keys_in k v (d : dwell) x :
  In x (map fst (dwell_set k v d)) -> x = k \/ In x (map fst d).
Proof.
  induction d as [|[k' v'] d IH]; simpl.
  - intros [<-|[]]. auto.
  - destruct (String.eqb_spec k k') as [->|Hne]; simpl; [auto|].
    intros [<-|H]; [auto|]. destruct (IH H); auto.
Qed.

Lemma dwell_set_NoDup k v (d : dwell) :
  List.NoDup (map fst d) -> List.NoDup (map fst (dwell_set k v d)).
Proof.
  induction d as [|[k' v'] d IH]; simpl; intros Hnd.
  - constructor; [intros [] | constructor].
  - inversion Hnd as [|? ? Hk' Hd]; subst.
    destruct (String.eqb_spec k k') as [->|Hne]; simpl.
    + constructor; assumption.
    + constructor; [|auto].
      intros Hin. apply dwell_set_keys_in in Hin as [->|Hin]; [congruence | auto].
Qed.

Lemma dwell_set_length k v (d : dwell) : length (dwell_set k v d) <= S (length d).
Proof.
  induction d as [|[k' v'] d IH]; simpl; [lia|].
  destruct (String.eqb k k'); simpl; lia.
Qed.

Lemma init_dwellTimes_invariants b els : forall i (d : dwell),
  List.NoDup (map fst d) ->
  List.NoDup (map fst (init_dwellTimes b i els d))
  /\ length (init_dwellTimes b i els d) <= length d + length els
  /\ forall k, In k (map fst (init_dwellTimes b i els d)) ->
               In k (map fst d)
               \/ exists j el, nth_error els j = Some el /\ k = aoi_key b (i + j) el.
Proof.
  induction els as [|el els IH]; intros i d Hnd; cbn [init_dwellTimes length].
  - split; [exact Hnd|]. split; [lia|]. auto.
  - destruct (IH (S i) (dwell_set (aoi_key b i el) 0%Q d)
                (dwell_set_NoDup _ _ _ Hnd)) as (H1 & H2 & H3).
    split; [exact H1|]. split.
    + pose proof (dwell_set_length (aoi_key b i el) 0%Q d). lia.
    + intros k Hk. destruct (H3 k Hk) as [Hin | (j & el' & Hj & ->)].
      * apply dwell_set_keys_in in Hin as [->|Hin]; [|auto].
        right. exists 0, el. split; [reflexivity|]. f_equal. lia.
      * right. exists (S j), el'. split; [exact Hj|]. f_equal. lia.
Qed.

(** X11. The mapping [calculateDwellTimeOnAOIs] returns is laid out by the
    regions alone: its keys are distinct, each is the label of a region
    followed by an underscore and a random suffix, there are no more of
    them than regions, and they are the same whatever the gaze sequence.
    No value is negative, and none exceeds 500ms per region and per pair of
    consecutive points, every delta added being under the threshold; with
    fewer than two points every value is 0, and with no region the mapping
    is empty. *)
Theorem dwell_mapping_invariants (b : Browser.t) (pts : list pobj) :
  let d := calculateDwellTimeOnAOIs b pts in
  List.NoDup (map fst d)
  /\ map fst d = map fst (calculateDwellTimeOnAOIs b [])
  /\ length d <= length (Browser.aoi b)
  /\ (forall k, In k (map fst d) ->
        exists j el, nth_error (Browser.aoi b) j = Some el /\ k = aoi_key b j el)
  /\ Forall (fun e =>
               (0 <= snd e)%Q
               /\ (snd e <= 500 * inject_Z (Z.of_nat (length (Browser.aoi b)))
                                * inject_Z (Z.of_nat (length pts - 1)))%Q) d
  /\ (length pts < 2 -> Forall (fun e => snd e = 0%Q) d)
  /\ (Browser.aoi b = [] -> d = []).
Proof.
  cbv zeta.
  destruct (init_dwellTimes_invariants b (Browser.aoi b) 0 [] (List.NoDup_nil _))
    as (Hnd & Hlen & Hkeys).
  assert (Hzero : Forall (fun e => snd e = 0%Q)
                    (init_dwellTimes b 0 (Browser.aoi b) []))
    by (apply init_dwellTimes_zero; constructor).
  assert (Hk : map fst (calculateDwellTimeOnAOIs b pts)
               = map fst (init_dwellTimes b 0 (Browser.aoi b) [])).
  { unfold calculateDwellTimeOnAOIs. destruct (length pts <? 2)%nat;
      [reflexivity | apply dwell_loop_keys]. }
  split; [rewrite Hk; exact Hnd|]. split; [rewrite Hk; reflexivity|].
  split; [rewrite <- (length_map fst), Hk, length_map; simpl in Hlen; lia|].
  split.
  { intros k Hin. rewrite Hk in Hin.
    destruct (Hkeys k Hin) as [[] | H]. exact H. }
  assert (Hnn : forall n m : nat,
             (0 <= 500 * inject_Z (Z.of_nat n) * inject_Z (Z.of_nat m))%Q).
  { intros n m.
    assert (0 <= inject_Z (Z.of_nat n))%Q
      by (change 0%Q with (inject_Z 0); rewrite <- Zle_Qle; lia).
    assert (0 <= inject_Z (Z.of_nat m))%Q
      by (change 0%Q with (inject_Z 0); rewrite <- Zle_Qle; lia).
    apply Qmult_le_0_compat; [|assumption].
    apply Qmult_le_0_compat; [discriminate | assumption]. }
  split; [|split].
  - unfold calculateDwellTimeOnAOIs. destruct (length pts <? 2)%nat.
    + eapply Forall_impl; [exact Hzero|]. simpl. intros e ->.
      split; [apply Qle_refl | apply Hnn].
    + eapply Forall_impl;
        [apply (dwell_loop_bounds _ pts _ 0%Q);
         eapply Forall_impl; [exact Hzero|]; simpl; intros e ->;
         split; apply Qle_refl|].
      simpl. intros e [? ?]. split; [assumption | lra].
  - intros Hl. unfold calculateDwellTimeOnAOIs.
    apply Nat.ltb_lt in Hl. rewrite Hl. exact Hzero.
  - intros Hnone. unfold calculateDwellTimeOnAOIs. rewrite Hnone.
    destruct pts as [|p [|q pts]]; try reflexivity.
    cbn [length Nat.ltb Nat.leb init_dwellTimes].
    clear. revert p q. induction pts as [|r pts IH]; intros p q; [reflexivity|].
    apply (IH q r).
Qed.

(** ** What the operations leave alone *)

Lemma processNextPoint_frame b rem : forall currentPoint w,
  listeners (this (fst (processNextPoint b currentPoint rem w)))
  = listeners (this w)
  /\ isInitialized (this (fst (processNextPoint b currentPoint rem w)))
     = isInitialized (this w)
  /\ sessionStorage (fst (processNextPoint b currentPoint rem w))
     = sessionStorage w.
Proof.
  induction rem as [|pos rest IH]; intros currentPoint w.
  - cbn [processNextPoint fst].
    rewrite this_notify, sessionStorage_notify. repeat split.
  - cbn [processNextPoint]. cbv zeta.
    set (w3 := emit [SetTimeout 500] _).
    destruct (IH (S currentPoint) w3) as (H1 & H2 & H3). rewrite H1, H2, H3.
    subst w3. cbn [emit this sessionStorage].
    rewrite this_notify, sessionStorage_notify. repeat split.
Qed.

Lemma calibrate_frame b positions w :
  listeners (this (fst (calibrate b positions w))) = listeners (this w)
  /\ isInitialized (this (fst (calibrate b positions w))) = isInitialized (this w)
  /\ sessionStorage (fst (calibrate b positions w)) = sessionStorage w.
Proof.
  unfold calibrate. destruct (isInitialized (this w)) eqn:Hi; cbn [negb];
    [|cbn [fst]; split; [reflexivity|]; split; [exact Hi | reflexivity]].
  set (w3 := notify "calibrationStarted" _ _).
  pose proof (processNextPoint_frame b (default defaultPositions positions) 0 w3)
    as (H1 & H2 & H3).
  destruct (processNextPoint b 0 (default defaultPositions positions) w3)
    as [w4 record]. cbn [fst] in *. rewrite H1, H2, H3. subst w3.
  rewrite this_notify, sessionStorage_notify.
  split; [reflexivity|]. split; [exact Hi | reflexivity].
Qed.

Lemma save_load_frame w :
  (listeners (this (fst (saveCalibrationState w))) = listeners (this w)
   /\ isInitialized (this (fst (saveCalibrationState w))) = isInitialized (this w))
  /\ (listeners (this (fst (loadCalibrationState w))) = listeners (this w)
      /\ isInitialized (this (fst (loadCalibrationState w))) = isInitialized (this w)
      /\ sessionStorage (fst (loadCalibrationState w)) = sessionStorage w).
Proof.
  unfold saveCalibrationState, loadCalibrationState. split.
  - destruct (truthy _ && truthy_opt _); [|split; reflexivity].
    destruct (_ ≫= _); split; reflexivity.
  - destruct (_ && _ && _); [|repeat split].
    destruct (JSON_parse _); [repeat split|].
    destruct (mentions_wide_unit _); repeat split.
Qed.

(** X12. No operation of the tracker ever removes or reorders a registered
    listener: for every event, the callbacks registered before an operation
    are still there after it, in the same order and before any new one.
    Only [on] changes the registry.  For an event that has listeners
    already, or whose name [Object.prototype] does not define, [on] returns
    and appends its callback to the list of its event, touching no other
    event.  For a name inherited from [Object.prototype] that has no list of
    its own ('toString', 'constructor', '__proto__', ...), [on] throws a
    TypeError and registers nothing. *)
Theorem listeners_never_removed (op : operation) (w : world) :
  (forall event,
      default [] (listeners (this w) !! event)
      `prefix_of` default [] (listeners (this (run op w)) !! event))
  /\ (forall event cb,
        op = On event cb ->
        is_Some (listeners (this w) !! event) \/ inherited event = false ->
        snd (on event cb w) = Return tt
        /\ default [] (listeners (this (run op w)) !! event)
           = default [] (listeners (this w) !! event) ++ [cb]
        /\ forall other, other <> event ->
             listeners (this (run op w)) !! other = listeners (this w) !! other)
  /\ (forall event cb,
        op = On event cb ->
        listeners (this w) !! event = None -> inherited event = true ->
        snd (on event cb w) = Throw "TypeError"
        /\ listeners (this (run op w)) = listeners (this w))
  /\ ((forall event cb, op <> On event cb) ->
      listeners (this (run op w)) = listeners (this w)).
Proof.
  assert (Hsame : (forall event cb, op <> On event cb) ->
                  listeners (this (run op w)) = listeners (this w)).
  { intros Hop. destruct op; cbn [run]; try reflexivity.
    - unfold init. destruct begin_error; cbn [fst];
        rewrite this_notify; reflexivity.
    - exfalso. eapply Hop. reflexivity.
    - apply listeners_notify.
    - apply calibrate_frame.
    - unfold clearData. cbn. destruct (isInitialized (this w)); reflexivity.
    - unfold stop. destruct (_ && _); [|reflexivity].
      rewrite this_notify. reflexivity.
    - unfold pause. destruct (isInitialized _); [|reflexivity].
      rewrite this_notify. reflexivity.
    - unfold resume. destruct (isInitialized _); [|reflexivity].
      rewrite this_notify. reflexivity.
    - apply save_load_frame.
    - apply save_load_frame.
    - destruct (webgazer_listening w); [|reflexivity].
      unfold gazeListener. destruct data as [[x y]|]; [|reflexivity].
      rewrite this_notify. reflexivity. }
  assert (Hon : forall event cb,
             op = On event cb ->
             is_Some (listeners (this w) !! event) \/ inherited event = false ->
             snd (on event cb w) = Return tt
             /\ default [] (listeners (this (run op w)) !! event)
                = default [] (listeners (this w) !! event) ++ [cb]
             /\ forall other, other <> event ->
                  listeners (this (run op w)) !! other
                  = listeners (this w) !! other).
  { intros event cb -> Hown. cbn [run]. unfold on.
    destruct (listeners (this w) !! event) as [cbs|] eqn:Hl.
    - cbn [fst snd set_listeners set_this this listeners default].
      split; [reflexivity|]. split.
      + rewrite lookup_insert_eq. reflexivity.
      + intros other Hne. rewrite lookup_insert_ne by congruence. reflexivity.
    - destruct Hown as [[? Hsome] | Hinh]; [discriminate|]. rewrite Hinh.
      cbn [fst snd set_listeners set_this this listeners default].
      split; [reflexivity|]. split.
      + rewrite lookup_insert_eq. reflexivity.
      + intros other Hne. rewrite lookup_insert_ne by congruence. reflexivity. }
  assert (Hthrow : forall event cb,
             op = On event cb ->
             listeners (this w) !! event = None -> inherited event = true ->
             snd (on event cb w) = Throw "TypeError"
             /\ listeners (this (run op w)) = listeners (this w)).
  { intros event cb -> Hl Hinh. cbn [run]. unfold on. rewrite Hl, Hinh.
    split; reflexivity. }
  split; [|split; [assumption | split; assumption]].
  intros event.
  assert (Hcases : (exists e cb, op = On e cb) \/ (forall e cb, op <> On e cb)).
  { destruct op; try (right; intros; discriminate). left. eauto. }
  destruct Hcases as [(e & cb & Hop) | Hop]; [|rewrite (Hsame Hop); reflexivity].
  destruct (listeners (this w) !! e) as [cbs|] eqn:Hl.
  - destruct (Hon e cb Hop) as (_ & Happ & Hother); [left; eauto|].
    destruct (decide (event = e)) as [->|Hne].
    + rewrite Happ, Hl. apply prefix_app_r. reflexivity.
    + rewrite (Hother event Hne). reflexivity.
  - destruct (inherited e) eqn:Hinh.
    + destruct (Hthrow e cb Hop Hl Hinh) as [_ Heq]. rewrite Heq. reflexivity.
    + destruct (Hon e cb Hop) as (_ & Happ & Hother); [right; exact Hinh|].
      destruct (decide (event = e)) as [->|Hne].
      * rewrite Happ, Hl. apply prefix_app_r. reflexivity.
      * rewrite (Hother event Hne). reflexivity.
Qed.

(** On the tracker as constructed, registering for 'gaze' returns and
    registers the callback, and registering for 'toString' throws and
    registers nothing. *)
Lemma listeners_never_removed_witness :
  (snd (on "gaze" 1%nat fresh_world) = Return tt
   /\ default [] (listeners (this (run (On "gaze" 1%nat) fresh_world)) !! "gaze")
      = [1%nat])
  /\ (snd (on "toString" 1%nat fresh_world) = Throw "TypeError"
      /\ listeners (this (run (On "toString" 1%nat) fresh_world))
         = listeners (this fresh_world)).
Proof.
  split.
  - destruct (listeners_never_removed (On "gaze" 1%nat) fresh_world)
      as (_ & Hon & _).
    destruct (Hon "gaze" 1%nat eq_refl (or_intror eq_refl)) as (H1 & H2 & _).
    split; [exact H1 | exact H2].
  - destruct (listeners_never_removed (On "toString" 1%nat) fresh_world)
      as (_ & _ & Hthrow & _).
    exact (Hthrow "toString" 1%nat eq_refl eq_refl eq_refl).
Defined.

(** X13. The tracker writes the session store in [saveCalibrationState]
    only: every other operation leaves the store as it is, and
    [saveCalibrationState] itself changes no key other than
    'eyeTrackingCalibrated', 'calibrationTimestamp' and
    'calibrationData'. *)
Theorem sessionStorage_frame (op : operation) (w : world) :
  (op <> SaveCalibrationState -> sessionStorage (run op w) = sessionStorage w)
  /\ (forall k, ~ In k calibration_keys ->
                sessionStorage (run op w) !! k = sessionStorage w !! k).
Proof.
  assert (Hother : op <> SaveCalibrationState ->
                   sessionStorage (run op w) = sessionStorage w).
  { intros Hop. destruct op; cbn [run]; try reflexivity.
    - unfold init. destruct begin_error; cbn [fst];
        rewrite sessionStorage_notify; reflexivity.
    - apply on_frame.
    - apply sessionStorage_notify.
    - apply calibrate_frame.
    - unfold clearData. cbn. destruct (isInitialized (this w)); reflexivity.
    - unfold stop. destruct (_ && _); [|reflexivity].
      rewrite sessionStorage_notify. reflexivity.
    - unfold pause. destruct (isInitialized _); [|reflexivity].
      rewrite sessionStorage_notify. reflexivity.
    - unfold resume. destruct (isInitialized _); [|reflexivity].
      rewrite sessionStorage_notify. reflexivity.
    - congruence.
    - apply save_load_frame.
    - destruct (webgazer_listening w); [|reflexivity].
      unfold gazeListener. destruct data as [[x y]|]; [|reflexivity].
      rewrite sessionStorage_notify. reflexivity. }
  split; [exact Hother|].
  intros k Hk.
  assert (Hcases : op = SaveCalibrationState \/ op <> SaveCalibrationState)
    by (destruct op; auto; right; discriminate).
  destruct Hcases as [->|Hop]; [|rewrite (Hother Hop); reflexivity].
  cbn [run]. unfold saveCalibrationState.
  destruct (truthy _ && truthy_opt _); [|reflexivity].
  assert (k <> "eyeTrackingCalibrated" /\ k <> "calibrationTimestamp"
          /\ k <> "calibrationData") as (K1 & K2 & K3).
  { unfold calibration_keys in Hk. cbn [In] in Hk. repeat split; intros ->; tauto. }
  destruct (_ ≫= _); cbn [fst set_sessionStorage sessionStorage];
    rewrite !lookup_insert_ne by congruence; reflexivity.
Qed.

(** X14. The initialized flag changes in two places only: an [init] whose
    [begin()] succeeds sets it, and a [stop] while the engine reports itself
    ready clears it.  A failed [init], a [stop] before the engine is ready,
    and every other operation leave it as it is. *)
Theorem isInitialized_transitions (op : operation) (w : world) :
  isInitialized (this (run op w))
  = match op with
    | Init _ None => true
    | Stop => isInitialized (this w) && negb (webgazer_isReady w)
    | _ => isInitialized (this w)
    end.
Proof.
  destruct op; cbn [run]; try reflexivity.
  - unfold init. destruct begin_error; cbn [fst];
      rewrite this_notify; reflexivity.
  - apply on_frame.
  - rewrite this_notify. reflexivity.
  - apply calibrate_frame.
  - unfold clearData. cbn [set_gazeData set_this this isInitialized].
    destruct (isInitialized (this w)) eqn:Hi; exact Hi.
  - unfold stop.
    destruct (isInitialized (this w)) eqn:Hi; destruct (webgazer_isReady w);
      cbn [andb negb]; try exact Hi.
    rewrite this_notify. reflexivity.
  - unfold pause. destruct (isInitialized (this w)) eqn:Hi; [|exact Hi].
    rewrite this_notify. exact Hi.
  - unfold resume. destruct (isInitialized (this w)) eqn:Hi; [|exact Hi].
    rewrite this_notify. exact Hi.
  - apply save_load_frame.
  - apply save_load_frame.
  - destruct (webgazer_listening w); [|reflexivity].
    unfold gazeListener. destruct data as [[x y]|]; [|reflexivity].
    rewrite this_notify. reflexivity.
Qed.

(** ** Regions whose labels do not collide *)

Lemma dwell_get_add k k' n (d : dwell) :
  dwell_get k (dwell_add k' n d)
  = if String.eqb k k' then (fun v => (v + n)%Q) <$> dwell_get k d
    else dwell_get k d.
Proof.
  induction d as [|[k1 v1] d IH]; simpl.
  - destruct (String.eqb k k'); reflexivity.
  - destruct (String.eqb_spec k' k1) as [->|Hne]; simpl.
    + destruct (String.eqb_spec k k1); reflexivity.
    + destruct (String.eqb_spec k k1) as [->|Hk].
      * destruct (String.eqb_spec k1 k'); [congruence | reflexivity].
      * exact IH.
Qed.

Lemma fmap_same (f : Q -> Q) (o : option Q) : (forall v, f v = v) -> f <$> o = o.
Proof. intros Hf. destruct o; simpl; [rewrite Hf|]; reflexivity. Qed.

Lemma visit_aoi_get k key cur next (d : dwell) el :
  List.find (fun k => startsWith k (label el)) (map fst d) = Some key ->
  String.eqb key EmptyString = false ->
  dwell_get k (visit_aoi cur next d el)
  = if String.eqb k key
    then (fun v =>
            if inside el cur then counted (duration_between cur next) v else v)
           <$> dwell_get k d
    else dwell_get k d.
Proof.
  intros Hfind Hne. unfold visit_aoi, inside.
  destruct (isGazeOnElement _ _ el).
  - rewrite Hfind, Hne. cbv zeta. unfold counted.
    destruct (below_threshold (duration_between cur next)) eqn:Hb.
    + apply below_threshold_finite in Hb as (q & Hq & _). rewrite Hq.
      cbn [add_duration]. apply dwell_get_add.
    + rewrite fmap_same by reflexivity. destruct (String.eqb k key); reflexivity.
  - rewrite fmap_same by reflexivity. destruct (String.eqb k key); reflexivity.
Qed.

Lemma aoi_keys_lookup b i el :
  Browser.aoi b !! i = Some el -> aoi_keys b !! i = Some (aoi_key b i el).
Proof. intros H. unfold aoi_keys. rewrite list_lookup_imap, H. reflexivity. Qed.

Lemma dwell_set_fresh k v (d : dwell) :
  k ∉ map fst d -> dwell_set k v d = d ++ [(k, v)].
Proof.
  induction d as [|[k' v'] d IH]; simpl; intros Hk; [reflexivity|].
  destruct (String.eqb_spec k k') as [->|Hne].
  - exfalso. apply Hk. left.
  - rewrite IH; [reflexivity|]. intros Hin. apply Hk. right. exact Hin.
Qed.

Lemma init_dwellTimes_distinct b els : forall i (d : dwell),
  NoDup (map fst d ++ imap (fun j => aoi_key b (i + j)) els) ->
  map fst (init_dwellTimes b i els d)
  = map fst d ++ imap (fun j => aoi_key b (i + j)) els.
Proof.
  induction els as [|el els IH]; intros i d Hnd; cbn [init_dwellTimes].
  - symmetry. apply app_nil_r.
  - rewrite imap_cons in Hnd |- *. cbv beta in Hnd |- *.
    rewrite Nat.add_0_r in Hnd |- *.
    assert (Hext : imap ((fun j => aoi_key b (i + j)) ∘ S) els
                   = imap (fun j => aoi_key b (S i + j)) els).
    { apply imap_ext. intros j x _. simpl. f_equal. lia. }
    rewrite Hext in Hnd |- *.
    assert (Hfresh : aoi_key b i el ∉ map fst d).
    { apply NoDup_app in Hnd as (_ & Hdis & _). intros Hin.
      apply (Hdis _ Hin). left. }
    rewrite dwell_set_fresh by exact Hfresh.
    rewrite IH.
    + rewrite map_app. cbn [map fst]. rewrite <- app_assoc. reflexivity.
    + rewrite map_app. cbn [map fst]. rewrite <- app_assoc. exact Hnd.
Qed.

Lemma dwell_get_zero k (d : dwell) :
  Forall (fun e => snd e = 0%Q) d -> k ∈ map fst d -> dwell_get k d = Some 0%Q.
Proof.
  induction 1 as [|[k' v'] d Hv Hd IH]; simpl; intros Hin.
  - inversion Hin.
  - destruct (String.eqb_spec k k') as [->|Hne]; [simpl in Hv; congruence|].
    apply IH. apply elem_of_cons in Hin as [?|?]; [congruence | assumption].
Qed.

(** X15. On a page where the keys drawn for the regions are distinct and
    the first key that starts with a region's label is that region's own
    key (no label opens another region's key), and for gaze points whose
    properties are primitive values, every region's entry is the sum, over
    the consecutive pairs of the sequence whose earlier point lies in the
    region's rectangle, of the differences of the [time] properties that
    are positive and below 500ms.  A point lies in the rectangle as [>=]
    and [<=] decide it: a coordinate that is [null], a boolean or a string
    is converted to a number first, so that [null] counts as 0. *)
Theorem distinct_labels_dwell (b : Browser.t) (pts : list pobj) :
  NoDup (aoi_keys b) ->
  (forall i el,
      Browser.aoi b !! i = Some el ->
      List.find (fun k => startsWith k (label el)) (aoi_keys b)
      = Some (aoi_key b i el)) ->
  map fst (calculateDwellTimeOnAOIs b pts) = aoi_keys b
  /\ forall i el,
       Browser.aoi b !! i = Some el ->
       dwell_get (aoi_key b i el) (calculateDwellTimeOnAOIs b pts)
       = Some (dwell_sum duration_between el pts).
Proof.
  intros Hnd Hown.
  assert (Hinit : map fst (init_dwellTimes b 0 (Browser.aoi b) []) = aoi_keys b).
  { rewrite init_dwellTimes_distinct; [reflexivity | exact Hnd]. }
  assert (Hkeys : map fst (calculateDwellTimeOnAOIs b pts) = aoi_keys b).
  { unfold calculateDwellTimeOnAOIs. destruct (length pts <? 2)%nat;
      [exact Hinit | rewrite dwell_loop_keys; exact Hinit]. }
  split; [exact Hkeys|].
  intros i el Hi.
  pose proof (aoi_keys_lookup b i el Hi) as Hki.
  (* one pair of points, over the regions from index [j] on *)
  assert (Hfold : forall cur next suffix j (d : dwell),
    map fst d = aoi_keys b ->
    (forall m el', suffix !! m = Some el' -> Browser.aoi b !! (j + m) = Some el') ->
    dwell_get (aoi_key b i el) (fold_left (visit_aoi cur next) suffix d)
    = (fun v =>
         if bool_decide (j <= i < j + length suffix)%nat
         then (if inside el cur
               then counted (duration_between cur next) v else v)
         else v)
        <$> dwell_get (aoi_key b i el) d).
  { intros cur next suffix.
    induction suffix as [|el' suffix IH]; intros j d Hd Hsuf.
    - cbn [fold_left length]. rewrite bool_decide_eq_false_2 by lia.
      symmetry. apply fmap_same. reflexivity.
    - cbn [fold_left].
      assert (Hj : Browser.aoi b !! j = Some el').
      { rewrite <- (Nat.add_0_r j). apply Hsuf. reflexivity. }
      rewrite (IH (S j)).
      + rewrite (visit_aoi_get _ (aoi_key b j el'));
          [|rewrite Hd; apply Hown, Hj | apply aoi_key_not_empty].
        destruct (String.eqb_spec (aoi_key b i el) (aoi_key b j el')) as [He|Hne].
        * assert (i = j).
          { eapply NoDup_lookup; [exact Hnd | exact Hki|].
            rewrite He. apply aoi_keys_lookup, Hj. }
          subst j. rewrite Hj in Hi. injection Hi as ->.
          rewrite bool_decide_eq_false_2 by lia.
          rewrite bool_decide_eq_true_2 by (cbn [length]; lia).
          destruct (dwell_get _ d); reflexivity.
        * assert (i <> j).
          { intros ->. rewrite Hj in Hi. injection Hi as ->. congruence. }
          cbn [length].
          destruct (bool_decide (S j <= i < S j + length suffix)) eqn:Hb.
          -- apply bool_decide_eq_true in Hb.
             rewrite bool_decide_eq_true_2 by lia. reflexivity.
          -- apply bool_decide_eq_false in Hb.
             rewrite bool_decide_eq_false_2 by lia. reflexivity.
      + rewrite visit_aoi_keys. exact Hd.
      + intros m el'' Hm. replace (S j + m) with (j + S m) by lia.
        apply Hsuf. exact Hm. }
  assert (Hloop : forall pts (d : dwell),
    map fst d = aoi_keys b ->
    dwell_get (aoi_key b i el) (dwell_loop (Browser.aoi b) pts d)
    = dwell_sum_from duration_between el pts <$> dwell_get (aoi_key b i el) d).
  { clear pts Hkeys. induction pts as [|cur pts IH]; intros d Hd.
    - symmetry. apply fmap_same. reflexivity.
    - destruct pts as [|next pts]; [symmetry; apply fmap_same; reflexivity|].
      change (dwell_get (aoi_key b i el)
                (dwell_loop (Browser.aoi b) (next :: pts)
                   (fold_left (visit_aoi cur next) (Browser.aoi b) d))
              = dwell_sum_from duration_between el (cur :: next :: pts)
                  <$> dwell_get (aoi_key b i el) d).
      rewrite IH by (rewrite fold_visit_keys; exact Hd).
      rewrite (Hfold cur next (Browser.aoi b) 0 d Hd) by (intros m el' Hm; exact Hm).
      apply lookup_lt_Some in Hi.
      rewrite bool_decide_eq_true_2 by lia.
      destruct (dwell_get _ d); [|reflexivity].
      cbn [fmap option_fmap option_map]. rewrite dwell_sum_from_cons. reflexivity. }
  assert (Hzero : dwell_get (aoi_key b i el) (init_dwellTimes b 0 (Browser.aoi b) [])
                  = Some 0%Q).
  { apply dwell_get_zero; [apply init_dwellTimes_zero; constructor|].
    rewrite Hinit. eapply list_elem_of_lookup_2, Hki. }
  unfold calculateDwellTimeOnAOIs. destruct (length pts <? 2)%nat eqn:Hl.
  - rewrite Hzero. destruct pts as [|p [|q pts]]; try reflexivity. discriminate.
  - rewrite Hloop, Hzero by exact Hinit. reflexivity.
Qed.

(** On the page with "because" at (0,0)-(20,20) and "therefore" at
    (100,100)-(120,120): two samples in the second region 100ms apart give
    it 100ms, and two samples with [null] coordinates 100ms apart give the
    first region, which holds the origin, 100ms. *)
Lemma distinct_labels_dwell_witness :
  (dwell_get (aoi_key two_words_browser 1
                (Element.mk "therefore" (DOMRect.mk 100 120 100 120)))
     (calculateDwellTimeOnAOIs two_words_browser second_region_gaze)
   = Some (dwell_sum duration_between
             (Element.mk "therefore" (DOMRect.mk 100 120 100 120))
             second_region_gaze)
   /\ dwell_sum duration_between
        (Element.mk "therefore" (DOMRect.mk 100 120 100 120))
        second_region_gaze = 100%Q)
  /\ (dwell_get (aoi_key two_words_browser 0
                   (Element.mk "because" (DOMRect.mk 0 20 0 20)))
        (calculateDwellTimeOnAOIs two_words_browser null_gaze)
      = Some (dwell_sum duration_between
                (Element.mk "because" (DOMRect.mk 0 20 0 20)) null_gaze)
      /\ dwell_sum duration_between
           (Element.mk "because" (DOMRect.mk 0 20 0 20)) null_gaze = 100%Q).
Proof.
  assert (Hnd : NoDup (aoi_keys two_words_browser))
    by (eapply bool_decide_eq_true_1; reflexivity).
  assert (Hown : forall i el,
             Browser.aoi two_words_browser !! i = Some el ->
             List.find (fun k => startsWith k (label el))
               (aoi_keys two_words_browser)
             = Some (aoi_key two_words_browser i el)).
  { intros [|[|i]] el H; try discriminate H; injection H as <-; reflexivity. }
  split; (split; [|reflexivity]).
  - apply (proj2 (distinct_labels_dwell two_words_browser second_region_gaze
                    Hnd Hown) 1).
    reflexivity.
  - apply (proj2 (distinct_labels_dwell two_words_browser null_gaze
                    Hnd Hown) 0).
    reflexivity.
Defined.

(** ** Listeners *)

Lemma register_snoc event cbs cb w :
  register event (cbs ++ [cb]) w = fst (on event cb (register event cbs w)).
Proof. unfold register. rewrite fold_left_app. reflexivity. Qed.

Lemma on_registers event cb w :
  is_Some (listeners (this w) !! event) \/ inherited event = false ->
  listeners (this (fst (on event cb w)))
  = <[event := default [] (listeners (this w) !! event) ++ [cb]]>
      (listeners (this w)).
Proof.
  intros Hown. unfold on.
  destruct (listeners (this w) !! event) as [l|] eqn:Hl; [reflexivity|].
  destruct Hown as [[? Hsome] | Hinh]; [discriminate|]. rewrite Hinh. reflexivity.
Qed.

Lemma register_spec event cbs : forall w,
  is_Some (listeners (this w) !! event) \/ inherited event = false ->
  default [] (listeners (this (register event cbs w)) !! event)
  = default [] (listeners (this w) !! event) ++ cbs
  /\ (is_Some (listeners (this w) !! event) ->
      is_Some (listeners (this (register event cbs w)) !! event))
  /\ (forall other, other <> event ->
        listeners (this (register event cbs w)) !! other
        = listeners (this w) !! other)
  /\ trace (register event cbs w) = trace w.
Proof.
  induction cbs as [|cb cbs IH]; intros w Hown.
  - cbn. rewrite app_nil_r. repeat split. intros H; exact H.
  - change (register event (cb :: cbs) w)
      with (register event cbs (fst (on event cb w))).
    pose proof (on_registers event cb w Hown) as Hon.
    assert (Hsome : is_Some (listeners (this (fst (on event cb w))) !! event))
      by (rewrite Hon, lookup_insert_eq; eauto).
    destruct (IH (fst (on event cb w)) (or_introl Hsome)) as (H1 & H2 & H3 & H4).
    split; [|split; [|split]].
    + rewrite H1, Hon, lookup_insert_eq.
      change (default [] (Some ?l)) with l. rewrite <- app_assoc. reflexivity.
    + intros _. apply H2, Hsome.
    + intros other Hne. rewrite (H3 other Hne), Hon.
      apply lookup_insert_ne. congruence.
    + rewrite H4. apply on_frame.
Qed.

Lemma register_inherited event cbs : forall w,
  listeners (this w) !! event = None -> inherited event = true ->
  register event cbs w = w.
Proof.
  induction cbs as [|cb cbs IH]; intros w Hl Hinh; [reflexivity|].
  change (register event (cb :: cbs) w)
    with (register event cbs (fst (on event cb w))).
  unfold on. rewrite Hl, Hinh. cbn [fst]. apply IH; assumption.
Qed.

(** X16. Listeners are called in the order they were registered.  For an
    event that has listeners already, or whose name [Object.prototype] does
    not define: after any callbacks are registered for it with [on],
    [triggerEvent] for that event returns, having called the callbacks
    registered earlier and then the new ones, each once and with the data
    given.  [triggerEvent] never changes the tracker, and registering for
    one event changes what no other event triggers.  An event nobody
    listens to has no effect at all when its name is not inherited; for a
    name inherited from [Object.prototype] that has no list of its own
    ('toString', 'constructor', '__proto__', ...), no callback is ever
    registered and [triggerEvent] throws a TypeError, calling nothing. *)
Theorem listeners_called_in_order (event : string) (cbs : list callback)
    (data : json) (w : world) :
  (is_Some (listeners (this w) !! event) \/ inherited event = false ->
   triggerEvent event data (register event cbs w)
   = (notify event data (register event cbs w), Return tt)
   /\ trace (notify event data (register event cbs w))
      = trace w
        ++ map (fun cb => Called cb data)
             (default [] (listeners (this w) !! event) ++ cbs))
  /\ this (notify event data (register event cbs w))
     = this (register event cbs w)
  /\ (forall other,
        other <> event ->
        trace (notify other data (register event cbs w))
        = trace (notify other data w))
  /\ (listeners (this w) !! event = None -> inherited event = false ->
      triggerEvent event data w = (w, Return tt))
  /\ (listeners (this w) !! event = None -> inherited event = true ->
      register event cbs w = w
      /\ triggerEvent event data w = (w, Throw "TypeError")).
Proof.
  split; [|split; [|split; [|split]]].
  - intros Hown.
    destruct (register_spec event cbs w Hown) as (H1 & H2 & _ & H4).
    split; [|rewrite trace_notify, H1, H4; reflexivity].
    unfold notify, triggerEvent.
    destruct (listeners (this (register event cbs w)) !! event) as [l|] eqn:Hl;
      [reflexivity|].
    destruct Hown as [Hsome | Hinh]; [|rewrite Hinh; reflexivity].
    apply H2 in Hsome. destruct Hsome as [? ?]. discriminate.
  - apply this_notify.
  - intros other Hne. rewrite !trace_notify.
    destruct (listeners (this w) !! event) as [l|] eqn:Hl.
    + destruct (register_spec event cbs w) as (_ & _ & H3 & H4);
        [left; rewrite Hl; eauto|].
      rewrite (H3 other Hne), H4. reflexivity.
    + destruct (inherited event) eqn:Hinh.
      * rewrite (register_inherited event cbs w Hl Hinh). reflexivity.
      * destruct (register_spec event cbs w) as (_ & _ & H3 & H4);
          [right; exact Hinh|].
        rewrite (H3 other Hne), H4. reflexivity.
  - intros Hnone Hinh. unfold triggerEvent. rewrite Hnone, Hinh. reflexivity.
  - intros Hnone Hinh. split; [apply register_inherited; assumption|].
    unfold triggerEvent. rewrite Hnone, Hinh. reflexivity.
Qed.

(** On the tracker as constructed: two callbacks registered for 'gaze' are
    called in that order, and for 'toString' nothing is registered and
    triggering throws. *)
Lemma listeners_called_in_order_witness :
  (triggerEvent "gaze" JNull (register "gaze" [1%nat; 2%nat] fresh_world)
   = (notify "gaze" JNull (register "gaze" [1%nat; 2%nat] fresh_world), Return tt)
   /\ trace (notify "gaze" JNull (register "gaze" [1%nat; 2%nat] fresh_world))
      = [Called 1%nat JNull; Called 2%nat JNull])
  /\ (register "toString" [1%nat; 2%nat] fresh_world = fresh_world
      /\ triggerEvent "toString" JNull fresh_world
         = (fresh_world, Throw "TypeError")).
Proof.
  split.
  - exact (proj1 (listeners_called_in_order "gaze" [1%nat; 2%nat] JNull
                    fresh_world) (or_intror eq_refl)).
  - exact (proj2 (proj2 (proj2 (proj2
             (listeners_called_in_order "toString" [1%nat; 2%nat] JNull
                fresh_world)))) eq_refl eq_refl).
Defined.

(** ** From one page of the session to the next *)

Lemma string_of_Z_not_empty z : string_of_Z z <> EmptyString.
Proof. destruct (string_of_Z_head z) as (c & s & Hs & _). rewrite Hs. discriminate. Qed.

(** X17. A calibration carried out and saved on one page is found on the
    next: after [calibrate] on an initialized tracker and
    [saveCalibrationState()], a tracker newly constructed over the same
    session store is not calibrated until it loads; its
    [loadCalibrationState()] returns true and restores the record
    [calibrate] resolved with, and [isCalibrated()] is then true. *)
Theorem calibration_survives_reload (b : Browser.t)
    (positions : option (list Position.t)) (w : world) :
  isInitialized (this w) = true ->
  let record :=
    calibration_record (default defaultPositions positions) (Browser.now b) true in
  let saved := fst (saveCalibrationState (fst (calibrate b positions w))) in
  snd (calibrate b positions w) = Return record
  /\ isCalibrated saved = Some (JBool true)
  /\ isCalibrated (reloaded saved) = Some JNull
  /\ loadCalibrationState (reloaded saved)
     = (set_calibrationData record (reloaded saved), Return true)
  /\ isCalibrated (fst (loadCalibrationState (reloaded saved))) = Some (JBool true).
Proof.
  intros Hi record saved.
  destruct (calibrate_initialized b positions w Hi) as (w' & Hcal & Hrec & _).
  fold record in Hcal, Hrec.
  assert (Hsaved : sessionStorage saved
                   = <["calibrationData" := JSON_stringify record]>
                       (<["calibrationTimestamp" := string_of_Z (Browser.now b)]>
                          (<["eyeTrackingCalibrated" := "true"]>
                             (sessionStorage w')))
                   /\ calibrationData (this saved) = record).
  { subst saved. rewrite Hcal. cbn [fst]. unfold saveCalibrationState.
    rewrite Hrec. split; [reflexivity | exact Hrec]. }
  destruct Hsaved as [Hstore Hthis].
  assert (Hflag : sessionStorage saved !! "eyeTrackingCalibrated" = Some "true").
  { rewrite Hstore. rewrite !lookup_insert_ne by discriminate.
    apply lookup_insert_eq. }
  split; [rewrite Hcal; reflexivity|]. split.
  { unfold isCalibrated, item_is_true. rewrite Hthis.
    rewrite (bool_decide_eq_true_2 _ Hflag). reflexivity. }
  split; [reflexivity|].
  assert (Hload : loadCalibrationState (reloaded saved)
                  = (set_calibrationData record (reloaded saved), Return true)).
  { apply (load_stored (reloaded saved) (string_of_Z (Browser.now b)) record).
    - apply json_wf_calibration_record.
    - exact Hflag.
    - cbn [reloaded sessionStorage]. rewrite Hstore.
      rewrite lookup_insert_ne by discriminate. apply lookup_insert_eq.
    - cbn [reloaded sessionStorage]. rewrite Hstore. apply lookup_insert_eq.
    - apply string_of_Z_not_empty. }
  split; [exact Hload|]. rewrite Hload.
  unfold isCalibrated, item_is_true.
  cbn [fst set_calibrationData set_this this calibrationData reloaded
       sessionStorage].
  rewrite (bool_decide_eq_true_2 _ Hflag). reflexivity.
Qed.

Lemma calibration_survives_reload_witness :
  isCalibrated
    (fst (loadCalibrationState
            (reloaded (fst (saveCalibrationState
                              (fst (calibrate plain_browser None
                                      initialized_world)))))))
  = Some (JBool true).
Proof.
  apply (calibration_survives_reload plain_browser None initialized_world).
  reflexivity.
Defined.

(** X18. [saveCalibrationState()] writes the flag before it reads the
    timestamp: on a completed record whose [timestamp] is missing or null,
    the call ends with a TypeError after 'eyeTrackingCalibrated' was set to
    'true' and before the other two keys are written, so [isCalibrated()]
    is true afterwards although no record was stored. *)
Theorem saveCalibrationState_without_timestamp (w : world) :
  truthy (calibrationData (this w)) = true ->
  truthy_opt (prop_of (calibrationData (this w)) "completed") = true ->
  prop_of (calibrationData (this w)) "timestamp" = None
  \/ prop_of (calibrationData (this w)) "timestamp" = Some JNull ->
  snd (saveCalibrationState w) = Throw "TypeError"
  /\ sessionStorage (fst (saveCalibrationState w))
     = <["eyeTrackingCalibrated" := "true"]> (sessionStorage w)
  /\ this (fst (saveCalibrationState w)) = this w
  /\ isCalibrated (fst (saveCalibrationState w)) = Some (JBool true).
Proof.
  intros Hc Hd Hts.
  assert (Hnone : prop_of (calibrationData (this w)) "timestamp" ≫= js_toString
                  = None) by (destruct Hts as [-> | ->]; reflexivity).
  unfold saveCalibrationState. cbv zeta. rewrite Hc, Hd, Hnone.
  cbn [andb fst snd set_sessionStorage sessionStorage this].
  do 3 (split; [reflexivity|]).
  unfold isCalibrated, item_is_true. cbv zeta.
  cbn [set_sessionStorage this sessionStorage]. rewrite Hc, Hd.
  rewrite bool_decide_eq_true_2 by apply lookup_insert_eq. reflexivity.
Qed.

Lemma saveCalibrationState_without_timestamp_witness :
  snd (saveCalibrationState untimed_world) = Throw "TypeError"
  /\ sessionStorage (fst (saveCalibrationState untimed_world))
     = <["eyeTrackingCalibrated" := "true"]> (sessionStorage untimed_world)
  /\ this (fst (saveCalibrationState untimed_world)) = this untimed_world
  /\ isCalibrated (fst (saveCalibrationState untimed_world)) = Some (JBool true).
Proof.
  apply (saveCalibrationState_without_timestamp untimed_world).
  - reflexivity.
  - reflexivity.
  - left. reflexivity.
Defined.
